(** * The retrieval-augmented query pipeline of [rag.py]

    A shallow embedding of [RAGApp] (chunking, prompt assembly, the guarded
    backend call, the per-query log file and the interactive loop) together
    with the properties of the pipeline that the design document states. *)

From Stdlib Require Import ZArith List String Ascii Lia DecimalString.
From stdpp Require Import base list gmap sorting.

Local Open Scope Z_scope.

(** ** Python values used by the program *)

(** A Python [str] is a sequence of Unicode code points. *)
Abbreviation str := (list N).

(** An ASCII literal of the source as a [str]. *)
Definition lit (s : string) : str := map N_of_ascii (list_ascii_of_string s).

(** Exceptions.  [Exception msg] stands for any instance of a subclass of
    Python's [Exception] whose [str(e)] is [msg]; [KeyboardInterrupt] derives
    from [BaseException] only, so [except Exception] does not catch it.  No
    other exception that derives from [BaseException] only is followed. *)
Inductive exception :=
| Exception (msg : str)
| KeyboardInterrupt.

Module Py.

(** [str.isspace] on one code point: the characters CPython's
    [_PyUnicode_IsWhitespace] accepts, which are the separators of
    [str.split()] and the characters removed by [str.strip()]. *)
Definition isspace (c : N) : bool :=
  ((9 <=? c) && (c <=? 13) || (28 <=? c) && (c <=? 32)
   || (c =? 133) || (c =? 160) || (c =? 5760)
   || (8192 <=? c) && (c <=? 8202)
   || (c =? 8232) || (c =? 8233) || (c =? 8239) || (c =? 8287)
   || (c =? 12288))%N.

(** [s.split()] with no separator: maximal runs of non-whitespace
    characters, in order; [cur] holds the run being read, reversed. *)
Fixpoint split_from (cur : str) (s : str) : list str :=
  match s with
  | [] => match cur with [] => [] | _ => [rev cur] end
  | c :: s' =>
      if isspace c
      then match cur with
           | [] => split_from [] s'
           | _ => rev cur :: split_from [] s'
           end
      else split_from (c :: cur) s'
  end.

Definition split (s : str) : list str := split_from [] s.

(** [sep.join(parts)]. *)
Fixpoint join (sep : str) (parts : list str) : str :=
  match parts with
  | [] => []
  | [p] => p
  | p :: ps => p ++ sep ++ join sep ps
  end.

(** Length of [range(start, stop, step)] for a non-zero step. *)
Definition range_length (start stop step : Z) : Z :=
  if 0 <? step
  then (if start <? stop then (stop - start - 1) / step + 1 else 0)
  else (if stop <? start then (start - stop - 1) / (- step) + 1 else 0).

(** [range(start, stop, step)], which raises [ValueError] on a zero step. *)
Definition range (start stop step : Z) : exception + list Z :=
  if step =? 0
  then inl (Exception (lit "range() arg 3 must not be zero"))
  else inr (map (fun k => start + Z.of_nat k * step)
                (seq 0 (Z.to_nat (range_length start stop step)))).

(** A slice bound brought into [0 .. len]: a negative bound counts from
    the end of the sequence. *)
Definition adjust_index (len idx : Z) : Z :=
  if idx <? 0 then Z.max 0 (idx + len) else Z.min idx len.

(** [l[lo:hi]]. *)
Definition slice {A} (l : list A) (lo hi : Z) : list A :=
  let len := Z.of_nat (length l) in
  let lo' := adjust_index len lo in
  let hi' := adjust_index len hi in
  take (Z.to_nat (hi' - lo')) (drop (Z.to_nat lo') l).

(** Truth value of a [str]: the empty string is false. *)
Definition truthy (s : str) : bool :=
  match s with [] => false | _ => true end.

End Py.

(** ** The chunker: [RAGApp.chunk_text] *)

Definition default_chunk_size : Z := 500.
Definition default_overlap : Z := 50.

(** One iteration of the loop body of [chunk_text]. *)
Definition chunk_step (words : list str) (chunk_size : Z)
    (chunks : list str) (i : Z) : list str :=
  let chunk := Py.join (lit " ") (Py.slice words i (i + chunk_size)) in
  if Py.truthy chunk then chunks ++ [chunk] else chunks.

Definition chunk_text (text : str) (chunk_size overlap : Z)
    : exception + list str :=
  let words := Py.split text in
  match Py.range 0 (Z.of_nat (length words)) (chunk_size - overlap) with
  | inl e => inl e
  | inr indices => inr (fold_left (chunk_step words chunk_size) indices [])
  end.

(** ** Clock readings and the name of a log file *)

(** A reading of [datetime.now()]. *)
Record datetime := {
  year : N; month : N; day : N;
  hour : N; minute : N; second : N;
  microsecond : N
}.

(** The fields of a reading are within the ranges of Python's [datetime]. *)
Definition valid_datetime (d : datetime) : Prop :=
  (1 <= year d <= 9999 /\ 1 <= month d <= 12 /\ 1 <= day d <= 31
   /\ hour d < 24 /\ minute d < 60 /\ second d < 60
   /\ microsecond d < 1000000)%N.

(** The character of a decimal digit. *)
Definition digit (d : N) : N := (48 + d)%N.

(** A number as [width] decimal digits with leading zeros: what [strftime]
    prints for a field that is within its range. *)
Fixpoint zero_padded (width : nat) (n : N) : str :=
  match width with
  | O => []
  | S w => zero_padded w (n / 10)%N ++ [digit (n mod 10)%N]
  end.

(** [d.strftime("%Y%m%d_%H%M%S_%f")], the year written with four digits:
    what every platform prints from the year 1000 on; below it the C
    library decides whether the year is padded. *)
Definition strftime_stamp (d : datetime) : str :=
  zero_padded 4 (year d) ++ zero_padded 2 (month d) ++ zero_padded 2 (day d)
  ++ lit "_"
  ++ zero_padded 2 (hour d) ++ zero_padded 2 (minute d)
  ++ zero_padded 2 (second d)
  ++ lit "_"
  ++ zero_padded 6 (microsecond d).

(** ** Records of the application *)

(** The attributes of a [RAGApp] that stay fixed after [__init__]. *)
Record RAGApp := {
  pdf_path : str;
  collection_name : str;
  model : str;
  logs_dir : str
}.

(** [RAGApp(pdf_path)]. *)
Definition new_app (path : str) : RAGApp :=
  {| pdf_path := path;
     collection_name := lit "pdf_rag";
     model := lit "qwen3-vl:32b";
     logs_dir := lit "query_logs" |}.

(** What [ollama.chat] returns: the message content and the counters, each
    of which the backend may leave out. *)
Record response := {
  content : str;
  r_prompt_eval_count : option Z;
  r_eval_count : option Z;
  r_total_duration : option Z;
  r_load_duration : option Z;
  r_prompt_eval_duration : option Z;
  r_eval_duration : option Z
}.

(** The [token_info] dictionary built by [query]. *)
Record token_info := {
  prompt_eval_count : Z;
  eval_count : Z;
  total_duration : Z;
  load_duration : Z;
  prompt_eval_duration : Z;
  eval_duration : Z
}.

(** The ["token_details"] entry of a log.  Its two [*_sec] members are
    floating-point quotients of [total_duration_ns] and [eval_duration_ns]
    by [1e9] and are not represented. *)
Record token_details := {
  prompt_tokens : Z;
  response_tokens : Z;
  total_tokens : Z;
  total_duration_ns : Z;
  load_duration_ns : Z;
  prompt_eval_duration_ns : Z;
  eval_duration_ns : Z
}.

(** The [log_data] dictionary; a missing key is [None]. *)
Record log_data := {
  log_timestamp : datetime;
  log_model : str;
  log_question : str;
  log_response : str;
  context_length_chars : nat;
  prompt_length_chars : nat;
  pdf_source : str;
  log_token_details : option token_details
}.

(** A document of the collection: its id is ["chunk_<chunk_id>"]. *)
Record entry := {
  chunk_id : nat;
  document : str;
  source : str
}.

(** What the interactive loop shows to the user. *)
Inductive output :=
| ShowGoodbye
| ShowStats (count : nat) (name : str)
| ShowAnswer (answer : str)
| ShowError (msg : str).

(** ** The world around the program *)

(** The part of the world that the program changes. *)
Record state := {
  calls : nat;                          (* external calls made so far *)
  coll : list entry;                    (* the collection *)
  files : gmap str log_data;            (* the files of the log directory *)
  writes : list (str * log_data);       (* every file write, in order *)
  sent : list (str * str);              (* every (model, prompt) sent *)
  shown : list output                   (* what the loop has displayed *)
}.

(** The answers of the world, indexed by the number of the external call:
    the clock, the collection's nearest-neighbour query, the inference
    backend, the PDF reader and the terminal. *)
Record world := {
  now : nat -> datetime;
  collection_query : nat -> list entry -> str -> Z -> exception + list str;
  ollama_chat : nat -> str -> str -> exception + response;
  read_pdf : nat -> str -> exception + str;
  input : nat -> exception + str
}.

(** ** Computations that change the state and may raise *)

Definition M (A : Type) : Type := state -> (exception + A) * state.

#[global] Instance M_ret : MRet M := fun A (a : A) s => (inr a, s).

#[global] Instance M_bind : MBind M := fun A B (f : A -> M B) (m : M A) s =>
  match m s with
  | (inl e, s') => (inl e, s')
  | (inr a, s') => f a s'
  end.

(** [raise e]. *)
Definition raise {A} (e : exception) : M A := fun s => (inl e, s).

(** The result of a call that the world answers. *)
Definition lift {A} (r : exception + A) : M A := fun s => (r, s).

(** [try: body  except Exception as e: handler(str(e))]. *)
Definition try_except {A} (body : M A) (handler : str -> M A) : M A :=
  fun s =>
    match body s with
    | (inl (Exception msg), s') => handler msg s'
    | r => r
    end.

(** [try: body  except KeyboardInterrupt: on_interrupt
     except Exception as e: on_error(str(e))]. *)
Definition try_except_interrupt {A} (body : M A)
    (on_interrupt : M A) (on_error : str -> M A) : M A :=
  fun s =>
    match body s with
    | (inl KeyboardInterrupt, s') => on_interrupt s'
    | (inl (Exception msg), s') => on_error msg s'
    | r => r
    end.

(** The number of the next external call, which is then used up. *)
Definition tick : M nat := fun s =>
  (inr (calls s),
   {| calls := S (calls s); coll := coll s; files := files s;
      writes := writes s; sent := sent s; shown := shown s |}).

Definition get_collection : M (list entry) := fun s => (inr (coll s), s).

Definition set_collection (c : list entry) : M unit := fun s =>
  (inr tt,
   {| calls := calls s; coll := c; files := files s;
      writes := writes s; sent := sent s; shown := shown s |}).

(** [with open(name, 'w') as f: json.dump(data, f)] when it succeeds: the
    file is created or replaced.  [Fallible.write_file] below follows the
    write that fails. *)
Definition write_file (name : str) (data : log_data) : M unit := fun s =>
  (inr tt,
   {| calls := calls s; coll := coll s; files := <[name := data]> (files s);
      writes := writes s ++ [(name, data)]; sent := sent s;
      shown := shown s |}).

Definition record_request (mdl prompt : str) : M unit := fun s =>
  (inr tt,
   {| calls := calls s; coll := coll s; files := files s;
      writes := writes s; sent := sent s ++ [(mdl, prompt)];
      shown := shown s |}).

(** [print]: the text shown is recorded.  A terminal that cannot be
    written to is not followed. *)
Definition show (o : output) : M unit := fun s =>
  (inr tt,
   {| calls := calls s; coll := coll s; files := files s;
      writes := writes s; sent := sent s; shown := shown s ++ [o] |}).

(** ** [RAGApp.save_query_log] *)

(** The name of the log file written at clock reading [d]. *)
Definition log_file_name (self : RAGApp) (d : datetime) : str :=
  logs_dir self ++ lit "/" ++ lit "query_" ++ strftime_stamp d ++ lit ".json".

(** The ["token_details"] entry computed from a [token_info] whose
    counters are integers that convert to floats.  [Fallible.details_of]
    below follows the sum and the divisions that raise. *)
Definition details_of (ti : token_info) : token_details :=
  {| prompt_tokens := prompt_eval_count ti;
     response_tokens := eval_count ti;
     total_tokens := prompt_eval_count ti + eval_count ti;
     total_duration_ns := total_duration ti;
     load_duration_ns := load_duration ti;
     prompt_eval_duration_ns := prompt_eval_duration ti;
     eval_duration_ns := eval_duration ti |}.

(** The clock is read twice: for the file name, then for the ["timestamp"]
    entry.  [if token_info:] holds for every [token_info] that [query]
    builds (a dictionary of six keys) and fails for [None].  This is the
    run in which the token details are computed and the file is written;
    [Fallible.save_query_log] below follows the run in which either
    raises. *)
Definition save_query_log (self : RAGApp) (w : world)
    (question answer : str) (context_length prompt_length : nat)
    (info : option token_info) : M unit :=
  c1 ← tick;
  let timestamp := now w c1 in
  c2 ← tick;
  let data :=
    {| log_timestamp := now w c2;
       log_model := model self;
       log_question := question;
       log_response := answer;
       context_length_chars := context_length;
       prompt_length_chars := prompt_length;
       pdf_source := pdf_path self;
       log_token_details := details_of <$> info |} in
  write_file (log_file_name self timestamp) data.

(** ** [RAGApp.query] *)

Definition nl : str := [10%N].

(** The prompt built from the context and the question. *)
Definition build_prompt (context question : str) : str :=
  lit "Based on the following context from the document, please answer the question."
  ++ nl ++ nl
  ++ lit "Context:" ++ nl
  ++ context ++ nl ++ nl
  ++ lit "Question: " ++ question ++ nl ++ nl
  ++ lit "Answer:".

(** [response.get(key, 0)] for each counter, a counter being an integer or
    a missing key.  [Fallible.token_info_of] below follows a counter whose
    value is [None]. *)
Definition token_info_of (r : response) : token_info :=
  {| prompt_eval_count := default 0 (r_prompt_eval_count r);
     eval_count := default 0 (r_eval_count r);
     total_duration := default 0 (r_total_duration r);
     load_duration := default 0 (r_load_duration r);
     prompt_eval_duration := default 0 (r_prompt_eval_duration r);
     eval_duration := default 0 (r_eval_duration r) |}.

Definition default_n_results : Z := 5.

Definition query (self : RAGApp) (w : world) (question : str)
    (n_results : Z) : M str :=
  c ← tick;
  entries ← get_collection;
  context_chunks ← lift (collection_query w c entries question n_results);
  let context := Py.join (nl ++ nl) context_chunks in
  let context_length := length context in
  let prompt := build_prompt context question in
  let prompt_length := length prompt in
  try_except
    (c' ← tick;
     record_request (model self) prompt;;
     response ← lift (ollama_chat w c' (model self) prompt);
     let answer := content response in
     let info := token_info_of response in
     save_query_log self w question answer context_length prompt_length
       (Some info);;
     mret answer)
    (fun e =>
       let error_msg := lit "Error querying model: " ++ e in
       save_query_log self w question error_msg context_length prompt_length
         None;;
       mret error_msg).

(** ** [RAGApp.index_pdf] *)

(** [extract_text_from_pdf]: the text of the pages as the PDF reader
    returns it (the page separators are part of that text). *)
Definition extract_text_from_pdf (self : RAGApp) (w : world) : M str :=
  c ← tick;
  lift (read_pdf w c (pdf_path self)).

(** ASCII lower-casing.  The loop compares [s.lower()] only with the words
    [quit], [exit], [q], [stats] and [y], none of whose letters is the
    lower case of a character outside ASCII, so these tests are decided as
    in Python. *)
Definition lower_char (c : N) : N :=
  if ((65 <=? c) && (c <=? 90))%N then (c + 32)%N else c.

Definition lower (s : str) : str := map lower_char s.

(** [s.strip()]. *)
Fixpoint lstrip (s : str) : str :=
  match s with
  | c :: s' => if Py.isspace c then lstrip s' else s
  | [] => []
  end.

Definition strip (s : str) : str := rev (lstrip (rev (lstrip s))).

Definition str_eqb (a b : str) : bool := bool_decide (a = b).

(** The documents added for a list of chunks, numbered from [0]. *)
Definition entries_of (self : RAGApp) (chunks : list str) : list entry :=
  imap (fun i c => {| chunk_id := i; document := c;
                       source := pdf_path self |}) chunks.

(** [collection.add(documents=..., ids=..., metadatas=...)]: chromadb
    refuses empty lists with a [ValueError]; otherwise the documents are
    added to the collection.  The wording of the message depends on the
    version of the library; only the fact that the call raises is used. *)
Definition collection_add (new : list entry) : M unit := fun s =>
  match new with
  | [] =>
      (inl (Exception (lit "Expected IDs to be a non-empty list, got 0 IDs")),
       s)
  | _ :: _ => set_collection (coll s ++ new) s
  end.

Definition index_pdf (self : RAGApp) (w : world) : M unit :=
  old ← get_collection;
  proceed ←
    (if (0 <? length old)%nat
     then c ← tick;
          answer ← lift (input w c);
          if negb (str_eqb (lower answer) (lit "y"))
          then mret false
          else set_collection [];; mret true
     else mret true);
  if (proceed : bool)
  then text ← extract_text_from_pdf self w;
       chunks ← lift (chunk_text text default_chunk_size default_overlap);
       collection_add (entries_of self chunks)
  else mret tt.

(** ** [RAGApp.run_interactive] *)

Inductive control := Continue | Break.

(** One pass through the body of the [while True] loop. *)
Definition loop_body (self : RAGApp) (w : world) : M control :=
  try_except_interrupt
    (c ← tick;
     line ← lift (input w c);
     let question := strip line in
     if negb (Py.truthy question) then mret Continue
     else if existsb (str_eqb (lower question))
               [lit "quit"; lit "exit"; lit "q"]
     then show ShowGoodbye;; mret Break
     else if str_eqb (lower question) (lit "stats")
     then entries ← get_collection;
          show (ShowStats (length entries) (collection_name self));;
          mret Continue
     else answer ← query self w question default_n_results;
          show (ShowAnswer answer);;
          mret Continue)
    (show ShowGoodbye;; mret Break)
    (fun e => show (ShowError e);; mret Continue).

(** The loop, followed for at most [fuel] passes; [Continue] means that the
    session is still running after them. *)
Fixpoint run_interactive (self : RAGApp) (w : world) (fuel : nat)
    : M control :=
  match fuel with
  | O => mret Continue
  | S fuel' =>
      ctl ← loop_body self w;
      match ctl with
      | Break => mret Break
      | Continue => run_interactive self w fuel'
      end
  end.

(** ** The vector index *)

Module VectorIndex.

(** Modelled from the spec: the vector index is the [chromadb] collection,
    a library whose code is not part of the sources; [rag.py] only calls
    it.  A chunk as the data model of the design describes it. *)
Record Chunk := {
  id : str;
  sequence_index : nat;
  text : str;
  source_id : str
}.

Section Index.

(** The embedding function and the similarity of two embeddings are
    opaque; scores are compared with [score_ge]. *)
Context {embedding score : Type}.
Variable embed : str -> embedding.
Variable similarity : embedding -> embedding -> score.
Variable score_ge : relation score.
Context `{!RelDecision score_ge}.

(** Modelled from the spec: an entry of the index, a chunk with the
    embedding computed for it. *)
Record IndexEntry := {
  chunk : Chunk;
  embedding_of : embedding
}.

(** Modelled from the spec: the entries of the current generation. *)
Definition generation := list IndexEntry.

(** Modelled from the spec: [count()] is the number of indexed chunks in
    the current generation. *)
Definition count (g : generation) : nat := length g.

(** Modelled from the spec: [add(chunks)] computes an embedding for each
    chunk and inserts all entries; it does not deduplicate. *)
Definition add (g : generation) (chunks : list Chunk) : generation :=
  g ++ map (fun c => {| chunk := c; embedding_of := embed (text c) |})
           chunks.

(** Modelled from the spec: [clear_and_recreate()] discards the current
    generation and starts a new empty one. *)
Definition clear_and_recreate (g : generation) : generation := [].

(** Modelled from the spec: the similarity of every entry of the
    generation to the embedded query text. *)
Definition scored (g : generation) (q : str) : list (Chunk * score) :=
  map (fun e => (chunk e, similarity (embed q) (embedding_of e))) g.

(** Modelled from the spec: two scored chunks in ranked order, the first
    scoring at least as much as the second. *)
Definition ranked (a b : Chunk * score) : Prop := score_ge a.2 b.2.

#[global] Instance ranked_dec : RelDecision ranked :=
  fun a b => decide_rel score_ge a.2 b.2.

(** Modelled from the spec: [query(text, top_k)] embeds [text], computes
    the similarity against all entries of the current generation and
    returns up to [top_k] chunks ordered by descending similarity. *)
Definition query (g : generation) (q : str) (top_k : Z)
    : list (Chunk * score) :=
  take (Z.to_nat top_k) (merge_sort ranked (scored g q)).

End Index.

End VectorIndex.

(** ** The page loop of [RAGApp.extract_text_from_pdf] *)

(** [str(n)] for a natural number: its decimal digits. *)
Definition str_of_nat (n : nat) : str :=
  lit (NilZero.string_of_uint (Nat.to_uint n)).

(** The separator written before page [i] (counted from [0]):
    [f"\n--- Page {i+1} ---\n"]. *)
Definition page_marker (i : nat) : str :=
  nl ++ lit "--- Page " ++ str_of_nat (i + 1) ++ lit " ---" ++ nl.

(** One pass of the loop: the two [text += ...] statements. *)
Definition add_page (text : str) (numbered : nat * str) : str :=
  (text ++ page_marker numbered.1) ++ numbered.2.

(** The text that [extract_text_from_pdf] builds from the texts of the
    pages, [page.extract_text()] for each page of [reader.pages] in
    order. *)
Definition text_of_pages (pages : list str) : str :=
  fold_left add_page (zip (seq 0 (length pages)) pages) [].

(** ** [main] *)

(** How [main] ends: [sys.exit(status)], an exception that nothing catches,
    or the end of [run_interactive] ([Continue] when the session is still
    running after the passes that were followed). *)
Inductive outcome :=
| Exited (status : Z)
| Crashed (e : exception)
| Session (ctl : control).


(** ** The query with the failures of its log write *)

(** [save_query_log] can raise: the token details add and divide counters
    that may be [None] or too large for a float, and opening or writing the
    file may fail.  Both calls of [save_query_log] in [query] sit inside
    its [try].  This module follows [save_query_log], [query] and the loop
    with these failures; the application record, the prompt and the name of
    a log file are the ones defined above. *)
Module Fallible.

(** A counter of the backend's response as [response.get(key, 0)] finds it:
    the key is missing, its value is [None], or it is an integer. *)
Inductive counter :=
| Missing
| Unset
| Count (n : Z).

(** [response.get(key, default)]; the result [None] is Python's [None]. *)
Definition get_or (default : Z) (c : counter) : option Z :=
  match c with
  | Missing => Some default
  | Unset => None
  | Count n => Some n
  end.

Record response := {
  content : str;
  r_prompt_eval_count : counter;
  r_eval_count : counter;
  r_total_duration : counter;
  r_load_duration : counter;
  r_prompt_eval_duration : counter;
  r_eval_duration : counter
}.

(** The [token_info] dictionary; a value [None] is Python's [None]. *)
Record token_info := {
  prompt_eval_count : option Z;
  eval_count : option Z;
  total_duration : option Z;
  load_duration : option Z;
  prompt_eval_duration : option Z;
  eval_duration : option Z
}.

Definition token_info_of (r : response) : token_info :=
  {| prompt_eval_count := get_or 0 (r_prompt_eval_count r);
     eval_count := get_or 0 (r_eval_count r);
     total_duration := get_or 0 (r_total_duration r);
     load_duration := get_or 0 (r_load_duration r);
     prompt_eval_duration := get_or 0 (r_prompt_eval_duration r);
     eval_duration := get_or 0 (r_eval_duration r) |}.

(** The ["token_details"] entry of a log.  The two [*_sec] members are
    floating-point quotients and are not represented; the two durations
    that are only copied may be [None]. *)
Record token_details := {
  prompt_tokens : Z;
  response_tokens : Z;
  total_tokens : Z;
  total_duration_ns : Z;
  load_duration_ns : option Z;
  prompt_eval_duration_ns : option Z;
  eval_duration_ns : Z
}.

Record log_data := {
  log_timestamp : datetime;
  log_model : str;
  log_question : str;
  log_response : str;
  context_length_chars : nat;
  prompt_length_chars : nat;
  pdf_source : str;
  log_token_details : option token_details
}.

(** An integer converts to a float, as [n / 1e9] requires, when its
    magnitude rounds to a finite double. *)
Definition fits_float (n : Z) : bool := Z.abs n <? 2 ^ 1024 - 2 ^ 970.

(** The message of the [TypeError] of [a + b] when [a] or [b] is [None]. *)
Definition sum_error (a b : option Z) : str :=
  match a, b with
  | None, None =>
      lit "unsupported operand type(s) for +: 'NoneType' and 'NoneType'"
  | None, Some _ =>
      lit "unsupported operand type(s) for +: 'NoneType' and 'int'"
  | _, _ => lit "unsupported operand type(s) for +: 'int' and 'NoneType'"
  end.

Definition division_error : str :=
  lit "unsupported operand type(s) for /: 'NoneType' and 'float'".

Definition overflow_error : str := lit "int too large to convert to float".

(** The ["token_details"] entry computed from a [token_info], or the
    message of the exception that computing it raises: the members are
    evaluated in the order of the source, the sum of the two counts first,
    then the two divisions by [1e9]. *)
Definition details_of (ti : token_info) : str + token_details :=
  match prompt_eval_count ti, eval_count ti with
  | Some p, Some e =>
      match total_duration ti with
      | None => inl division_error
      | Some t =>
          if fits_float t
          then match eval_duration ti with
               | None => inl division_error
               | Some d =>
                   if fits_float d
                   then inr {| prompt_tokens := p;
                               response_tokens := e;
                               total_tokens := p + e;
                               total_duration_ns := t;
                               load_duration_ns := load_duration ti;
                               prompt_eval_duration_ns :=
                                 prompt_eval_duration ti;
                               eval_duration_ns := d |}
                   else inl overflow_error
               end
          else inl overflow_error
      end
  | a, b => inl (sum_error a b)
  end.

(** What happens to [with open(name, 'w') as f: json.dump(data, f)]: the
    file is written; or [open] raises and no file is touched; or the write
    raises after the file was opened, which leaves it incomplete. *)
Inductive write_result :=
| Written
| OpenFails (msg : str)
| DumpFails (msg : str).

(** The part of the world that the program changes.  A file of the log
    directory holds a record, or is incomplete ([None]). *)
Record state := {
  calls : nat;
  coll : list entry;
  files : gmap str (option log_data);
  opened : list str;                (* every file opened for writing *)
  saves : list (str * str);         (* every call of save_query_log:
                                       its question and its answer *)
  sent : list (str * str);
  shown : list output
}.

Record world := {
  now : nat -> datetime;
  collection_query : nat -> list entry -> str -> Z -> exception + list str;
  ollama_chat : nat -> str -> str -> exception + response;
  input : nat -> exception + str;
  write : nat -> write_result
}.

Definition M (A : Type) : Type := state -> (exception + A) * state.

#[global] Instance M_ret : MRet M := fun A (a : A) s => (inr a, s).

#[global] Instance M_bind : MBind M := fun A B (f : A -> M B) (m : M A) s =>
  match m s with
  | (inl e, s') => (inl e, s')
  | (inr a, s') => f a s'
  end.

Definition raise {A} (e : exception) : M A := fun s => (inl e, s).

Definition lift {A} (r : exception + A) : M A := fun s => (r, s).

Definition try_except {A} (body : M A) (handler : str -> M A) : M A :=
  fun s =>
    match body s with
    | (inl (Exception msg), s') => handler msg s'
    | r => r
    end.

Definition try_except_interrupt {A} (body : M A)
    (on_interrupt : M A) (on_error : str -> M A) : M A :=
  fun s =>
    match body s with
    | (inl KeyboardInterrupt, s') => on_interrupt s'
    | (inl (Exception msg), s') => on_error msg s'
    | r => r
    end.

Definition tick : M nat := fun s =>
  (inr (calls s),
   {| calls := S (calls s); coll := coll s; files := files s;
      opened := opened s; saves := saves s; sent := sent s;
      shown := shown s |}).

Definition get_collection : M (list entry) := fun s => (inr (coll s), s).

Definition note_save (question answer : str) : M unit := fun s =>
  (inr tt,
   {| calls := calls s; coll := coll s; files := files s;
      opened := opened s; saves := saves s ++ [(question, answer)];
      sent := sent s; shown := shown s |}).

Definition record_request (mdl prompt : str) : M unit := fun s =>
  (inr tt,
   {| calls := calls s; coll := coll s; files := files s;
      opened := opened s; saves := saves s;
      sent := sent s ++ [(mdl, prompt)]; shown := shown s |}).

Definition show (o : output) : M unit := fun s =>
  (inr tt,
   {| calls := calls s; coll := coll s; files := files s;
      opened := opened s; saves := saves s; sent := sent s;
      shown := shown s ++ [o] |}).

(** The file named [name] after a write with the given result. *)
Definition write_file (result : write_result) (name : str)
    (data : log_data) : M unit := fun s =>
  match result with
  | Written =>
      (inr tt,
       {| calls := calls s; coll := coll s;
          files := <[name := Some data]> (files s);
          opened := opened s ++ [name]; saves := saves s; sent := sent s;
          shown := shown s |})
  | OpenFails msg => (inl (Exception msg), s)
  | DumpFails msg =>
      (inl (Exception msg),
       {| calls := calls s; coll := coll s;
          files := <[name := None]> (files s);
          opened := opened s ++ [name]; saves := saves s; sent := sent s;
          shown := shown s |})
  end.

(** [RAGApp.save_query_log]: the clock is read twice, the token details
    are computed when [token_info] is given, then the file is written. *)
Definition save_query_log (self : RAGApp) (w : world)
    (question answer : str) (context_length prompt_length : nat)
    (info : option token_info) : M unit :=
  note_save question answer;;
  c1 ← tick;
  let timestamp := now w c1 in
  c2 ← tick;
  details ←
    match info with
    | None => mret None
    | Some ti =>
        match details_of ti with
        | inl msg => raise (Exception msg)
        | inr d => mret (Some d)
        end
    end;
  let data :=
    {| log_timestamp := now w c2;
       log_model := model self;
       log_question := question;
       log_response := answer;
       context_length_chars := context_length;
       prompt_length_chars := prompt_length;
       pdf_source := pdf_path self;
       log_token_details := details |} in
  c3 ← tick;
  write_file (write w c3) (log_file_name self timestamp) data.

(** [RAGApp.query]. *)
Definition query (self : RAGApp) (w : world) (question : str)
    (n_results : Z) : M str :=
  c ← tick;
  entries ← get_collection;
  context_chunks ← lift (collection_query w c entries question n_results);
  let context := Py.join (nl ++ nl) context_chunks in
  let context_length := length context in
  let prompt := build_prompt context question in
  let prompt_length := length prompt in
  try_except
    (c' ← tick;
     record_request (model self) prompt;;
     response ← lift (ollama_chat w c' (model self) prompt);
     let answer := content response in
     let info := token_info_of response in
     save_query_log self w question answer context_length prompt_length
       (Some info);;
     mret answer)
    (fun e =>
       let error_msg := lit "Error querying model: " ++ e in
       save_query_log self w question error_msg context_length prompt_length
         None;;
       mret error_msg).

(** One pass through the body of the loop of [RAGApp.run_interactive]. *)
Definition loop_body (self : RAGApp) (w : world) : M control :=
  try_except_interrupt
    (c ← tick;
     line ← lift (input w c);
     let question := strip line in
     if negb (Py.truthy question) then mret Continue
     else if existsb (str_eqb (lower question))
               [lit "quit"; lit "exit"; lit "q"]
     then show ShowGoodbye;; mret Break
     else if str_eqb (lower question) (lit "stats")
     then entries ← get_collection;
          show (ShowStats (length entries) (collection_name self));;
          mret Continue
     else answer ← query self w question default_n_results;
          show (ShowAnswer answer);;
          mret Continue)
    (show ShowGoodbye;; mret Break)
    (fun e => show (ShowError e);; mret Continue).

Fixpoint run_interactive (self : RAGApp) (w : world) (fuel : nat)
    : M control :=
  match fuel with
  | O => mret Continue
  | S fuel' =>
      ctl ← loop_body self w;
      match ctl with
      | Break => mret Break
      | Continue => run_interactive self w fuel'
      end
  end.

End Fallible.

(** * Vocabulary of the statements *)

(** A word: a non-empty string without whitespace. *)
Definition is_word (w : str) : Prop :=
  w ≠ [] ∧ Forall (fun c => Py.isspace c = false) w.

(** The [k]-th window of [size] words, the windows being [stride] apart. *)
Definition window (words : list str) (size stride k : nat) : list str :=
  take size (drop (k * stride) words).

(** Two consecutive chunks share [n] words: the last [n] words of the first
    are the first [n] words of the second. *)
Definition shares_words (n : nat) (c1 c2 : str) : Prop :=
  (n ≤ length (Py.split c1))%nat
  ∧ (n ≤ length (Py.split c2))%nat
  ∧ drop (length (Py.split c1) - n) (Py.split c1) = take n (Py.split c2).

(** A text of [n] one-letter words. *)
Definition sample_text (n : nat) : str := concat (replicate n (lit "w ")).

(** A world for the examples: the clock, the answer of the collection and
    the answer of the backend are given; the PDF holds four words and the
    user types one question. *)
Definition sample_world (clock : nat -> datetime)
    (retrieval : exception + list str) (backend : exception + response)
    : world :=
  {| now := clock;
     collection_query := fun _ _ _ _ => retrieval;
     ollama_chat := fun _ _ _ => backend;
     read_pdf := fun _ _ => inr (lit "a b c d");
     input := fun _ => inr (lit " what is this? ") |}.

(** A clock that advances by one microsecond per reading, and one that is
    stuck. *)
Definition running_clock (n : nat) : datetime :=
  {| year := 2025; month := 11; day := 4; hour := 9; minute := 59;
     second := 7; microsecond := N.of_nat n |}.

Definition stuck_clock (n : nat) : datetime := running_clock 0.

Definition sample_response : response :=
  {| content := lit "It is a test.";
     r_prompt_eval_count := Some 120; r_eval_count := Some 5;
     r_total_duration := Some 900; r_load_duration := None;
     r_prompt_eval_duration := None; r_eval_duration := Some 300 |}.

Definition sample_app : RAGApp := new_app (lit "paper.pdf").

Definition initial_state : state :=
  {| calls := 0; coll := []; files := ∅; writes := []; sent := [];
     shown := [] |}.

(** A line typed by the user is a question: it is not blank and is none of
    the commands of the loop. *)
Definition is_question (line : str) : Prop :=
  Py.truthy (strip line) = true
  ∧ existsb (str_eqb (lower (strip line))) [lit "quit"; lit "exit"; lit "q"]
    = false
  ∧ str_eqb (lower (strip line)) (lit "stats") = false.

(** An index of three chunks whose embedding is the text itself, scored by
    how close the lengths of two texts are. *)
Definition sample_chunk (i : nat) (t : str) : VectorIndex.Chunk :=
  {| VectorIndex.id := lit "chunk_" ++ zero_padded 1 (N.of_nat i);
     VectorIndex.sequence_index := i;
     VectorIndex.text := t;
     VectorIndex.source_id := lit "paper.pdf" |}.

Definition sample_similarity (a b : str) : Z :=
  - Z.abs (Z.of_nat (length a) - Z.of_nat (length b)).

Definition sample_generation : VectorIndex.generation :=
  VectorIndex.add (fun t : str => t) []
    [sample_chunk 0 (lit "a long chunk of text");
     sample_chunk 1 (lit "x");
     sample_chunk 2 (lit "short")].

(** A chunk is a run of the words of a text: one or more consecutive words
    of the text, joined by single blanks. *)
Definition run_of_words (words : list str) (c : str) : Prop :=
  ∃ before run after,
    words = before ++ run ++ after ∧ run ≠ [] ∧ c = Py.join (lit " ") run.

(** The four words that the separator of page [i] adds to the text. *)
Definition marker_words (i : nat) : list str :=
  [lit "---"; lit "Page"; str_of_nat (i + 1); lit "---"].

(** A world for the examples in which the lines typed by the user and the
    answer of the PDF reader are given as well. *)
Definition scripted_world (typed : nat -> exception + str)
    (pdf : exception + str) (retrieval : exception + list str)
    (backend : exception + response) : world :=
  {| now := running_clock;
     collection_query := fun _ _ _ _ => retrieval;
     ollama_chat := fun _ _ _ => backend;
     read_pdf := fun _ _ => pdf;
     input := typed |}.

(** A state whose collection already holds two chunks. *)
Definition indexed_state : state :=
  {| calls := 0;
     coll := entries_of sample_app [lit "an old chunk"; lit "another one"];
     files := ∅; writes := []; sent := []; shown := [] |}.

(** The answer that [query] returns for an outcome of the backend call:
    the content of the response, or the error text made from the message of
    the exception. *)
Definition answer_of (outcome : exception + response) : str :=
  match outcome with
  | inr r => content r
  | inl (Exception msg) => lit "Error querying model: " ++ msg
  | inl KeyboardInterrupt => []
  end.

(** The order of Python on strings: by the first character that differs,
    a proper prefix coming first. *)
Fixpoint str_compare (a b : str) : comparison :=
  match a, b with
  | [], [] => Eq
  | [], _ :: _ => Lt
  | _ :: _, [] => Gt
  | x :: a', y :: b' =>
      match (x ?= y)%N with
      | Eq => str_compare a' b'
      | c => c
      end
  end.

(** The first comparison decides unless it finds equality. *)
Definition and_then (c d : comparison) : comparison :=
  match c with Eq => d | _ => c end.

(** The order of clock readings in time: by year, then month, day, hour,
    minute, second and microsecond. *)
Definition datetime_compare (d1 d2 : datetime) : comparison :=
  and_then (year d1 ?= year d2)%N
    (and_then (month d1 ?= month d2)%N
       (and_then (day d1 ?= day d2)%N
          (and_then (hour d1 ?= hour d2)%N
             (and_then (minute d1 ?= minute d2)%N
                (and_then (second d1 ?= second d2)%N
                   (microsecond d1 ?= microsecond d2)%N))))).

(** The answer that [Fallible.query] returns for an outcome of the backend
    call when the log is saved at the first attempt. *)
Definition reported (outcome : exception + Fallible.response) : str :=
  match outcome with
  | inr r => Fallible.content r
  | inl (Exception msg) => lit "Error querying model: " ++ msg
  | inl KeyboardInterrupt => []
  end.

(** The token details of a response can be computed: the sum and the two
    divisions of [save_query_log] do not raise. *)
Definition usable_counters (r : Fallible.response) : Prop :=
  ∃ d, Fallible.details_of (Fallible.token_info_of r) = inr d.

(** A world for the examples of [Fallible]: the user types one question. *)
Definition fallible_world (retrieval : exception + list str)
    (backend : exception + Fallible.response)
    (writing : nat -> Fallible.write_result) : Fallible.world :=
  {| Fallible.now := running_clock;
     Fallible.collection_query := fun _ _ _ _ => retrieval;
     Fallible.ollama_chat := fun _ _ _ => backend;
     Fallible.input := fun _ => inr (lit " what is this? ");
     Fallible.write := writing |}.

Definition fallible_initial : Fallible.state :=
  {| Fallible.calls := 0; Fallible.coll := []; Fallible.files := ∅;
     Fallible.opened := []; Fallible.saves := []; Fallible.sent := [];
     Fallible.shown := [] |}.

(** A response with all the counters that the token details need, and one
    whose counters are all [None]. *)
Definition full_response : Fallible.response :=
  {| Fallible.content := lit "It is a test.";
     Fallible.r_prompt_eval_count := Fallible.Count 120;
     Fallible.r_eval_count := Fallible.Count 5;
     Fallible.r_total_duration := Fallible.Count 900;
     Fallible.r_load_duration := Fallible.Missing;
     Fallible.r_prompt_eval_duration := Fallible.Unset;
     Fallible.r_eval_duration := Fallible.Count 300 |}.

Definition bare_response : Fallible.response :=
  {| Fallible.content := lit "It is a test.";
     Fallible.r_prompt_eval_count := Fallible.Unset;
     Fallible.r_eval_count := Fallible.Unset;
     Fallible.r_total_duration := Fallible.Unset;
     Fallible.r_load_duration := Fallible.Unset;
     Fallible.r_prompt_eval_duration := Fallible.Unset;
     Fallible.r_eval_duration := Fallible.Unset |}.

(** Writes that all succeed, and writes of which only the one made at the
    external call [n] fails after the file was opened. *)
Definition reliable (n : nat) : Fallible.write_result := Fallible.Written.

Definition failing_at (k : nat) (n : nat) : Fallible.write_result :=
  if Nat.eqb n k then Fallible.DumpFails (lit "No space left on device")
  else Fallible.Written.

Definition never_opening (n : nat) : Fallible.write_result :=
  Fallible.OpenFails (lit "Permission denied").

(** The log record that [save_query_log] builds. *)
Definition record_of (self : RAGApp) (w : Fallible.world) (reading : nat)
    (question answer : str) (docs : list str)
    (details : option Fallible.token_details) : Fallible.log_data :=
  {| Fallible.log_timestamp := Fallible.now w reading;
     Fallible.log_model := model self;
     Fallible.log_question := question;
     Fallible.log_response := answer;
     Fallible.context_length_chars := length (Py.join (nl ++ nl) docs);
     Fallible.prompt_length_chars :=
       length (build_prompt (Py.join (nl ++ nl) docs) question);
     Fallible.pdf_source := pdf_path self;
     Fallible.log_token_details := details |}.

(** * Properties *)

(** ** Words *)

Lemma split_from_words s : ∀ cur,
  Forall (fun c => Py.isspace c = false) cur →
  Forall is_word (Py.split_from cur s).
Proof.
  induction s as [|c s IH]; intros cur Hcur; simpl.
  - destruct cur as [|c0 cur']; [constructor|].
    constructor; [|constructor]. split.
    + intros E. apply (f_equal length) in E. rewrite length_rev in E. discriminate.
    + apply Forall_rev. exact Hcur.
  - destruct (Py.isspace c) eqn:Hc.
    + destruct cur as [|c0 cur']; [apply IH; constructor|].
      constructor; [|apply IH; constructor]. split.
      * intros E. apply (f_equal length) in E. rewrite length_rev in E. discriminate.
      * apply Forall_rev. exact Hcur.
    + apply IH. constructor; assumption.
Qed.

Lemma split_words s : Forall is_word (Py.split s).
Proof. apply split_from_words. constructor. Qed.

Lemma split_from_whitespace s :
  Forall (fun c => Py.isspace c = true) s → Py.split_from [] s = [].
Proof.
  induction 1 as [|c s Hc _ IH]; simpl; [reflexivity|].
  rewrite Hc. exact IH.
Qed.

Lemma split_from_app_word w : ∀ cur rest,
  Forall (fun c => Py.isspace c = false) w →
  Py.split_from cur (w ++ rest) = Py.split_from (rev w ++ cur) rest.
Proof.
  induction w as [|c w IH]; intros cur rest Hw; simpl; [reflexivity|].
  inversion Hw as [|? ? Hc Hw']; subst. rewrite Hc.
  rewrite IH by assumption. rewrite <- app_assoc. reflexivity.
Qed.

Lemma split_join ws :
  Forall is_word ws → Py.split (Py.join (lit " ") ws) = ws.
Proof.
  unfold Py.split. induction 1 as [|w ws [Hne Hw] Hws IH]; [reflexivity|].
  destruct ws as [|w' ws'].
  - simpl. rewrite <- (app_nil_r w) at 1.
    rewrite split_from_app_word by assumption. rewrite app_nil_r. simpl.
    destruct (rev w) eqn:E.
    + apply (f_equal length) in E. rewrite length_rev in E.
      destruct w; [contradiction|discriminate].
    + rewrite <- E, rev_involutive. reflexivity.
  - change (Py.join (lit " ") (w :: w' :: ws'))
      with (w ++ lit " " ++ Py.join (lit " ") (w' :: ws')).
    rewrite split_from_app_word by assumption. rewrite app_nil_r.
    change (lit " " ++ Py.join (lit " ") (w' :: ws'))
      with (32%N :: Py.join (lit " ") (w' :: ws')).
    simpl Py.split_from at 1.
    destruct (rev w) eqn:E.
    + apply (f_equal length) in E. rewrite length_rev in E.
      destruct w; [contradiction|discriminate].
    + rewrite <- E, rev_involutive. f_equal. exact IH.
Qed.

Lemma join_nonempty sep ws :
  ws ≠ [] → Forall is_word ws → Py.truthy (Py.join sep ws) = true.
Proof.
  intros Hne Hws. destruct ws as [|w ws]; [contradiction|].
  inversion Hws as [|? ? [Hw _] _]; subst.
  destruct w as [|c w]; [contradiction|].
  destruct ws; reflexivity.
Qed.

Lemma join_nil_inv sep ws :
  Py.truthy (Py.join sep ws) = true → ws ≠ [].
Proof. intros H ->. discriminate. Qed.

(** ** Ranges and slices *)

Lemma range_length_spec n step k :
  0 < step → 0 ≤ n → 0 ≤ k →
  k < Py.range_length 0 n step ↔ k * step < n.
Proof.
  intros Hstep Hn Hk. unfold Py.range_length.
  destruct (Z.ltb_spec 0 step); [|lia].
  destruct (Z.ltb_spec 0 n).
  - replace (n - 0 - 1) with (n - 1) by lia.
    pose proof (Z.div_mod (n - 1) step ltac:(lia)) as Hdm.
    pose proof (Z.mod_pos_bound (n - 1) step Hstep) as Hr.
    split; intros; nia.
  - split; intros; nia.
Qed.

Lemma range_forward n step :
  0 < step →
  Py.range 0 n step
  = inr (map (fun k => Z.of_nat k * step)
             (seq 0 (Z.to_nat (Py.range_length 0 n step)))).
Proof.
  intros Hstep. unfold Py.range.
  destruct (Z.eqb_spec step 0); [lia|]. reflexivity.
Qed.

Lemma range_backward n step :
  step < 0 → 0 ≤ n → Py.range 0 n step = inr [].
Proof.
  intros Hstep Hn. unfold Py.range, Py.range_length.
  destruct (Z.eqb_spec step 0); [lia|].
  destruct (Z.ltb_spec 0 step); [lia|].
  destruct (Z.ltb_spec n 0); [lia|]. reflexivity.
Qed.

Lemma range_raises_iff start stop step :
  (∃ e, Py.range start stop step = inl e) ↔ step = 0.
Proof.
  unfold Py.range. destruct (Z.eqb_spec step 0) as [->|Hne].
  - split; [reflexivity|]. intros _. eexists. reflexivity.
  - split; [intros [e He]; discriminate|contradiction].
Qed.

Lemma slice_window {A} (l : list A) i size :
  0 ≤ i → i < Z.of_nat (length l) → 0 < size →
  Py.slice l i (i + size) = take (Z.to_nat size) (drop (Z.to_nat i) l).
Proof.
  intros Hi Hlen Hsize. unfold Py.slice, Py.adjust_index.
  destruct (Z.ltb_spec i 0); [lia|].
  destruct (Z.ltb_spec (i + size) 0); [lia|].
  replace (Z.to_nat (Z.min i (Z.of_nat (length l)))) with (Z.to_nat i) by lia.
  destruct (Z.le_gt_cases (i + size) (Z.of_nat (length l))).
  - f_equal. lia.
  - rewrite !take_ge; [reflexivity| |]; rewrite length_drop; lia.
Qed.

(** ** The chunks as windows over the words *)

Lemma fold_chunk_step words size : ∀ indices acc,
  Forall (fun i => 0 ≤ i < Z.of_nat (length words)) indices →
  Forall is_word words → 0 < size →
  fold_left (chunk_step words size) indices acc
  = acc ++ map (fun i => Py.join (lit " ")
                  (take (Z.to_nat size) (drop (Z.to_nat i) words))) indices.
Proof.
  induction indices as [|i indices IH]; intros acc Hall Hw Hsize; simpl.
  - rewrite app_nil_r. reflexivity.
  - inversion Hall as [|? ? Hi Hrest]; subst.
    rewrite IH by assumption. unfold chunk_step at 1.
    rewrite slice_window by lia.
    rewrite join_nonempty.
    + rewrite <- app_assoc. reflexivity.
    + intros E. apply (f_equal length) in E.
      rewrite length_take, length_drop in E. simpl in E. lia.
    + apply Forall_take, Forall_drop. exact Hw.
Qed.

Lemma fold_chunk_step_truthy words size : ∀ indices acc,
  Forall (fun c => Py.truthy c = true) acc →
  Forall (fun c => Py.truthy c = true)
         (fold_left (chunk_step words size) indices acc).
Proof.
  induction indices as [|i indices IH]; intros acc Hacc; simpl; [exact Hacc|].
  apply IH. unfold chunk_step.
  destruct (Py.truthy _) eqn:E; [|exact Hacc].
  apply Forall_app. split; [exact Hacc|]. constructor; [exact E|constructor].
Qed.

(** With a positive size and an overlap below it, the chunks are exactly the
    windows that start before the end of the words. *)
Lemma chunk_text_windows text chunk_size overlap :
  0 < chunk_size → 0 ≤ overlap < chunk_size →
  chunk_text text chunk_size overlap
  = inr (map (fun k => Py.join (lit " ")
                 (window (Py.split text) (Z.to_nat chunk_size)
                         (Z.to_nat (chunk_size - overlap)) k))
             (seq 0 (Z.to_nat (Py.range_length 0
                        (Z.of_nat (length (Py.split text)))
                        (chunk_size - overlap))))).
Proof.
  intros Hsize Hov. unfold chunk_text.
  rewrite range_forward by lia.
  rewrite fold_chunk_step; [| |apply split_words|lia].
  - simpl. rewrite map_map. f_equal. apply map_ext. intros k.
    unfold window. rewrite Z2Nat.inj_mul, Nat2Z.id by lia. reflexivity.
  - apply Forall_forall. intros i Hi.
    apply list_elem_of_In, in_map_iff in Hi as [k [<- Hk]]. apply in_seq in Hk.
    pose proof (range_length_spec (Z.of_nat (length (Py.split text)))
                  (chunk_size - overlap) (Z.of_nat k)
                  ltac:(lia) ltac:(lia) ltac:(lia)) as Hr.
    split; [nia|]. apply Hr. lia.
Qed.

Lemma lookup_map {A B} (f : A → B) (l : list A) i :
  map f l !! i = f <$> l !! i.
Proof. exact (list_lookup_fmap f l i). Qed.

Lemma window_words text size stride k :
  Forall is_word (window (Py.split text) size stride k).
Proof. apply Forall_take, Forall_drop, split_words. Qed.

Lemma chunk_lookup text chunk_size overlap chunks k c :
  0 < chunk_size → 0 ≤ overlap < chunk_size →
  chunk_text text chunk_size overlap = inr chunks →
  chunks !! k = Some c →
  Z.of_nat k * (chunk_size - overlap) < Z.of_nat (length (Py.split text))
  ∧ Py.split c = window (Py.split text) (Z.to_nat chunk_size)
                   (Z.to_nat (chunk_size - overlap)) k.
Proof.
  intros Hsize Hov Hrun Hk.
  rewrite chunk_text_windows in Hrun by assumption.
  injection Hrun as <-.
  rewrite lookup_map in Hk.
  destruct (seq _ _ !! k) as [k'|] eqn:Hk'; [|discriminate].
  injection Hk as <-.
  apply lookup_seq in Hk'. destruct Hk' as [-> Hlt]. simpl. split.
  - apply range_length_spec; lia.
  - apply split_join, window_words.
Qed.

Lemma chunk_lookup_inv text chunk_size overlap k :
  0 < chunk_size → 0 ≤ overlap < chunk_size →
  Z.of_nat k * (chunk_size - overlap) < Z.of_nat (length (Py.split text)) →
  ∃ chunks c, chunk_text text chunk_size overlap = inr chunks
    ∧ chunks !! k = Some c
    ∧ Py.split c = window (Py.split text) (Z.to_nat chunk_size)
                     (Z.to_nat (chunk_size - overlap)) k.
Proof.
  intros Hsize Hov Hk. eexists _, _. split; [|split].
  - apply chunk_text_windows; assumption.
  - rewrite lookup_map, lookup_seq_lt; [reflexivity|].
    apply Nat2Z.inj_lt. rewrite Z2Nat.id.
    + apply range_length_spec; lia.
    + unfold Py.range_length. repeat case_match; try lia.
      apply Z.add_nonneg_nonneg; [apply Z.div_pos|]; lia.
  - apply split_join, window_words.
Qed.

(** C2. With a positive chunk size and an overlap below it, [chunk_text]
    returns chunks whose [k]-th element holds the words of the window that
    starts [k] strides into the text (so the chunks follow the order of the
    source), and every word of the text lies in one of them.  For a text of
    1200 words and the sizes 500 and 50 the windows start at the words 0,
    450 and 900, and each of the three chunks has at most 500 words. *)
Theorem chunk_text_covers_input :
  (∀ text chunk_size overlap,
     0 < chunk_size → 0 ≤ overlap < chunk_size →
     ∃ chunks,
       chunk_text text chunk_size overlap = inr chunks
       ∧ (∀ k c, chunks !! k = Some c →
            Py.split c = window (Py.split text) (Z.to_nat chunk_size)
                           (Z.to_nat (chunk_size - overlap)) k)
       ∧ (∀ j w, Py.split text !! j = Some w →
            ∃ k c, chunks !! k = Some c
              ∧ (k * Z.to_nat (chunk_size - overlap) ≤ j)%nat
              ∧ Py.split c !! (j - k * Z.to_nat (chunk_size - overlap))%nat
                = Some w))
  ∧ (∀ text,
       length (Py.split text) = 1200%nat →
       ∃ c0 c1 c2,
         chunk_text text 500 50 = inr [c0; c1; c2]
         ∧ Py.split c0 = take 500 (Py.split text)
         ∧ Py.split c1 = take 500 (drop 450 (Py.split text))
         ∧ Py.split c2 = take 500 (drop 900 (Py.split text))
         ∧ (length (Py.split c0) ≤ 500)%nat
         ∧ (length (Py.split c1) ≤ 500)%nat
         ∧ (length (Py.split c2) ≤ 500)%nat).
Proof.
  split.
  - intros text chunk_size overlap Hsize Hov.
    eexists. split; [apply chunk_text_windows; assumption|]. split.
    + intros k c Hk.
      eapply chunk_lookup; [exact Hsize|exact Hov| |exact Hk].
      apply chunk_text_windows; assumption.
    + intros j w Hj.
      set (stride := Z.to_nat (chunk_size - overlap)).
      assert (Hstride : (0 < stride)%nat) by (unfold stride; lia).
      pose proof (lookup_lt_Some _ _ _ Hj) as Hlt.
      pose proof (Nat.div_mod_eq j stride) as Hdm.
      pose proof (Nat.mod_upper_bound j stride ltac:(lia)) as Hmod.
      destruct (chunk_lookup_inv text chunk_size overlap (j / stride)%nat)
        as (chunks & c & Hrun & Hc & Hsplit); [assumption|assumption| |].
      { replace (chunk_size - overlap) with (Z.of_nat stride)
          by (unfold stride; lia). nia. }
      rewrite chunk_text_windows in Hrun by assumption. injection Hrun as <-.
      exists (j / stride)%nat, c. split; [exact Hc|]. split; [nia|].
      rewrite Hsplit. unfold window. fold stride.
      rewrite lookup_take_lt by (unfold stride in *; nia).
      rewrite lookup_drop. rewrite <- Hj. f_equal. nia.
  - intros text Hlen.
    pose proof (chunk_text_windows text 500 50 ltac:(lia) ltac:(lia)) as Hrun.
    rewrite Hlen in Hrun.
    change (Z.to_nat (Py.range_length 0 (Z.of_nat 1200) (500 - 50)))
      with 3%nat in Hrun.
    simpl map in Hrun. unfold window in Hrun.
    change (Z.to_nat (500 - 50)) with 450%nat in Hrun.
    change (Z.to_nat 500) with 500%nat in Hrun.
    change (0 * 450)%nat with 0%nat in Hrun.
    change (1 * 450)%nat with 450%nat in Hrun.
    change (2 * 450)%nat with 900%nat in Hrun.
    eexists _, _, _. split; [exact Hrun|].
    rewrite !split_join
      by (repeat first [apply Forall_take | apply Forall_drop];
          apply split_words).
    rewrite !length_take. repeat split; try reflexivity; lia.
Qed.

(** A witness of [chunk_text_covers_input]: five words in windows of three
    with one word of overlap, and 1200 words with the default sizes. *)
Lemma chunk_text_covers_input_witness :
  (∃ chunks,
     chunk_text (lit "a b c d e") 3 1 = inr chunks
     ∧ (∀ k c, chunks !! k = Some c →
          Py.split c = window (Py.split (lit "a b c d e")) (Z.to_nat 3)
                         (Z.to_nat (3 - 1)) k)
     ∧ (∀ j w, Py.split (lit "a b c d e") !! j = Some w →
          ∃ k c, chunks !! k = Some c
            ∧ (k * Z.to_nat (3 - 1) ≤ j)%nat
            ∧ Py.split c !! (j - k * Z.to_nat (3 - 1))%nat = Some w))
  ∧ (∃ c0 c1 c2,
       chunk_text (sample_text 1200) 500 50 = inr [c0; c1; c2]
       ∧ Py.split c0 = take 500 (Py.split (sample_text 1200))
       ∧ Py.split c1 = take 500 (drop 450 (Py.split (sample_text 1200)))
       ∧ Py.split c2 = take 500 (drop 900 (Py.split (sample_text 1200)))
       ∧ (length (Py.split c0) ≤ 500)%nat
       ∧ (length (Py.split c1) ≤ 500)%nat
       ∧ (length (Py.split c2) ≤ 500)%nat).
Proof.
  split.
  - apply (proj1 chunk_text_covers_input (lit "a b c d e") 3 1); lia.
  - apply (proj2 chunk_text_covers_input (sample_text 1200)).
    vm_compute. reflexivity.
Defined.

(** ** Overlap of consecutive chunks *)

Lemma window_length words size stride k :
  length (window words size stride k)
  = Nat.min size (length words - k * stride).
Proof. unfold window. rewrite length_take, length_drop. reflexivity. Qed.

Lemma window_overlap words stride ov k :
  (0 < stride)%nat →
  (S k * stride < length words)%nat →
  let w1 := window words (stride + ov) stride k in
  let w2 := window words (stride + ov) stride (S k) in
  let n := Nat.min ov (length w2) in
  (k * stride + length w1 = S k * stride + n)%nat
  ∧ drop (length w1 - n) w1 = take n w2.
Proof.
  intros Hstride Hk w1 w2 n.
  assert (Hl1 : length w1 = Nat.min (stride + ov) (length words - k * stride))
    by apply window_length.
  assert (Hl2 : length w2
                = Nat.min (stride + ov) (length words - S k * stride))
    by apply window_length.
  assert (Hpos : (k * stride + length w1 = S k * stride + n)%nat)
    by (unfold n; lia).
  split; [exact Hpos|].
  replace (length w1 - n)%nat with stride by lia.
  apply list_eq. intros i. unfold w1, w2, window.
  rewrite lookup_drop, !lookup_take, lookup_drop.
  repeat case_decide; try lia.
  - rewrite lookup_drop. f_equal. lia.
  - apply lookup_ge_None. lia.
  - reflexivity.
Qed.

(** C3 (as amended). With a positive chunk size and an overlap below it,
    two consecutive chunks share exactly [min overlap m] words, [m] being
    the number of words of the later chunk: the last that many words of the
    earlier chunk are the first that many words of the later one, and the
    two windows have exactly these positions in common.  So the chunks share
    exactly [overlap] words whenever the later chunk has at least [overlap]
    words; a shorter final chunk only repeats the end of the chunk before
    it. *)
Theorem consecutive_chunks_overlap text chunk_size overlap :
  0 < chunk_size → 0 ≤ overlap < chunk_size →
  ∃ chunks,
    chunk_text text chunk_size overlap = inr chunks
    ∧ ∀ k c1 c2,
        chunks !! k = Some c1 → chunks !! S k = Some c2 →
        let stride := Z.to_nat (chunk_size - overlap) in
        let n := Nat.min (Z.to_nat overlap) (length (Py.split c2)) in
        shares_words n c1 c2
        ∧ (k * stride + length (Py.split c1) = S k * stride + n)%nat
        ∧ (Z.to_nat overlap ≤ length (Py.split c2) →
           shares_words (Z.to_nat overlap) c1 c2)%nat.
Proof.
  intros Hsize Hov.
  eexists. split; [apply chunk_text_windows; assumption|].
  intros k c1 c2 Hc1 Hc2 stride n.
  pose proof (chunk_text_windows text chunk_size overlap Hsize Hov) as Hrun.
  destruct (chunk_lookup _ _ _ _ _ _ Hsize Hov Hrun Hc1) as [_ Hw1].
  destruct (chunk_lookup _ _ _ _ _ _ Hsize Hov Hrun Hc2) as [Hk2 Hw2].
  assert (Hsz : Z.to_nat chunk_size = (stride + Z.to_nat overlap)%nat)
    by (unfold stride; lia).
  rewrite Hsz in Hw1, Hw2. fold stride in Hw1, Hw2.
  assert (Hlt : (S k * stride < length (Py.split text))%nat).
  { apply Nat2Z.inj_lt. rewrite Nat2Z.inj_mul.
    replace (Z.of_nat stride) with (chunk_size - overlap)
      by (unfold stride; lia).
    exact Hk2. }
  destruct (window_overlap (Py.split text) stride (Z.to_nat overlap) k
              ltac:(unfold stride; lia) Hlt) as [Hpos Heq].
  rewrite <- Hw1, <- Hw2 in Hpos, Heq. fold n in Hpos, Heq.
  assert (Hshare : shares_words n c1 c2).
  { unfold shares_words. split; [lia|]. split; [unfold n; lia|exact Heq]. }
  split; [exact Hshare|]. split; [exact Hpos|].
  intros Hfull. replace (Z.to_nat overlap) with n by (unfold n; lia).
  exact Hshare.
Qed.

(** A witness of [consecutive_chunks_overlap]: four words in windows of
    three words with two words of overlap. *)
Lemma consecutive_chunks_overlap_witness :
  ∃ chunks,
    chunk_text (lit "a b c d") 3 2 = inr chunks
    ∧ ∀ k c1 c2,
        chunks !! k = Some c1 → chunks !! S k = Some c2 →
        let stride := Z.to_nat (3 - 2) in
        let n := Nat.min (Z.to_nat 2) (length (Py.split c2)) in
        shares_words n c1 c2
        ∧ (k * stride + length (Py.split c1) = S k * stride + n)%nat
        ∧ (Z.to_nat 2 ≤ length (Py.split c2) →
           shares_words (Z.to_nat 2) c1 c2)%nat.
Proof. apply (consecutive_chunks_overlap (lit "a b c d") 3 2); lia. Defined.

(** C3 as stated fails: four words cut into windows of three words with an
    overlap of two give the chunks [a b c], [b c d], [c d] and [d]; the text
    has more words than one chunk holds, yet the last two words of [c d]
    are not the first two words of [d]. *)
Lemma consecutive_chunks_overlap_counterexample :
  ¬ (∀ chunks k c1 c2,
       chunk_text (lit "a b c d") 3 2 = inr chunks →
       chunks !! k = Some c1 → chunks !! S k = Some c2 →
       drop (length (Py.split c1) - 2) (Py.split c1) = take 2 (Py.split c2))
  ∧ (3 < length (Py.split (lit "a b c d")))%nat
  ∧ chunk_text (lit "a b c d") 3 2
    = inr [lit "a b c"; lit "b c d"; lit "c d"; lit "d"].
Proof.
  assert (Hrun : chunk_text (lit "a b c d") 3 2
                 = inr [lit "a b c"; lit "b c d"; lit "c d"; lit "d"])
    by (vm_compute; reflexivity).
  split; [|split; [vm_compute; lia|exact Hrun]].
  intros Hclaim.
  pose proof (Hclaim _ 2%nat (lit "c d") (lit "d") Hrun eq_refl eq_refl)
    as Heq.
  vm_compute in Heq. discriminate Heq.
Qed.

(** ** Chunks are never empty *)

Lemma truthy_nonempty (c : str) : Py.truthy c = true → c ≠ [].
Proof. intros H ->. discriminate. Qed.

Lemma chunk_text_returns text chunk_size overlap :
  chunk_size ≠ overlap →
  chunk_text text chunk_size overlap
  = inr (fold_left (chunk_step (Py.split text) chunk_size)
           (map (fun k => 0 + Z.of_nat k * (chunk_size - overlap))
              (seq 0 (Z.to_nat (Py.range_length 0
                         (Z.of_nat (length (Py.split text)))
                         (chunk_size - overlap)))))
           []).
Proof.
  intros Hne. unfold chunk_text, Py.range.
  destruct (Z.eqb_spec (chunk_size - overlap) 0); [lia|]. reflexivity.
Qed.

(** C10. Whenever the stride is not zero, [chunk_text] returns, and every
    chunk it returns is a non-empty string; for a text that is empty or
    holds only whitespace it returns no chunk at all. *)
Theorem chunks_are_nonempty :
  (∀ text chunk_size overlap,
     chunk_size ≠ overlap →
     ∃ chunks, chunk_text text chunk_size overlap = inr chunks
               ∧ Forall (fun c => c ≠ []) chunks)
  ∧ (∀ text chunk_size overlap,
       Forall (fun c => Py.isspace c = true) text →
       chunk_size ≠ overlap →
       chunk_text text chunk_size overlap = inr []).
Proof.
  split.
  - intros text chunk_size overlap Hne.
    eexists. split; [apply chunk_text_returns; exact Hne|].
    eapply Forall_impl; [apply fold_chunk_step_truthy; constructor|].
    intros c. apply truthy_nonempty.
  - intros text chunk_size overlap Hws Hne.
    rewrite chunk_text_returns by exact Hne.
    unfold Py.split. rewrite split_from_whitespace by exact Hws.
    unfold Py.range_length. simpl length. simpl Z.of_nat.
    rewrite Z.ltb_irrefl. destruct (0 <? chunk_size - overlap); reflexivity.
Qed.

(** A witness of [chunks_are_nonempty]: a text of four words, the empty text
    and a text of blanks, tabs and line ends, with the default sizes. *)
Lemma chunks_are_nonempty_witness :
  (∃ chunks, chunk_text (lit "a b c d") 500 50 = inr chunks
             ∧ Forall (fun c => c ≠ []) chunks)
  ∧ chunk_text [] 500 50 = inr []
  ∧ chunk_text [32; 9; 10; 13; 32]%N 500 50 = inr [].
Proof.
  split; [|split].
  - apply (proj1 chunks_are_nonempty (lit "a b c d") 500 50). lia.
  - apply (proj2 chunks_are_nonempty [] 500 50); [constructor|lia].
  - apply (proj2 chunks_are_nonempty [32; 9; 10; 13; 32]%N 500 50);
      [repeat constructor|lia].
Defined.

(** ** What the chunker does with sizes outside its contract *)

(** C4 as stated fails: with an overlap above the chunk size, or with a
    chunk size that is not positive, [chunk_text] returns a list instead of
    raising. *)
Lemma chunker_configuration_counterexample :
  ¬ (∀ text chunk_size overlap,
       chunk_size ≤ overlap ∨ chunk_size ≤ 0 →
       ∃ e, chunk_text text chunk_size overlap = inl e)
  ∧ chunk_text (lit "a b c") 2 5 = inr []
  ∧ chunk_text (lit "a b c") 0 (-1) = inr []
  ∧ chunk_text (lit "a b c d e f g h") (-2) (-5) = inr [lit "a b c d e f"].
Proof.
  split; [|repeat split; vm_compute; reflexivity].
  intros Hclaim.
  destruct (Hclaim (lit "a b c") 2 5 ltac:(lia)) as [e He].
  vm_compute in He. discriminate He.
Qed.


Lemma chunk_text_default_returns text :
  ∃ chunks, chunk_text text default_chunk_size default_overlap = inr chunks.
Proof.
  eexists. apply chunk_text_returns.
  unfold default_chunk_size, default_overlap. lia.
Qed.

(** C4 (as amended). [chunk_text] raises exactly when the overlap equals the
    chunk size, the error being the [ValueError] of a zero range step; for
    any other sizes, an overlap above the chunk size and a chunk size that
    is not positive among them, it returns a list without an error, which
    is empty when the overlap is above the chunk size. *)
Theorem chunker_raises_only_on_zero_stride :
  (∀ text chunk_size overlap,
     overlap = chunk_size →
     chunk_text text chunk_size overlap
     = inl (Exception (lit "range() arg 3 must not be zero")))
  ∧ (∀ text chunk_size overlap,
       overlap ≠ chunk_size →
       ∃ chunks, chunk_text text chunk_size overlap = inr chunks)
  ∧ (∀ text chunk_size overlap,
       chunk_size < overlap →
       chunk_text text chunk_size overlap = inr []).
Proof.
  split; [|split].
  - intros text chunk_size overlap ->. unfold chunk_text, Py.range.
    rewrite Z.sub_diag. reflexivity.
  - intros text chunk_size overlap Hne. eexists.
    apply chunk_text_returns. congruence.
  - intros text chunk_size overlap Hlt. unfold chunk_text.
    rewrite range_backward by lia. reflexivity.
Qed.

(** A witness of [chunker_raises_only_on_zero_stride]. *)
Lemma chunker_raises_only_on_zero_stride_witness :
  chunk_text (lit "a b c") 3 3
  = inl (Exception (lit "range() arg 3 must not be zero"))
  ∧ (∃ chunks, chunk_text (lit "a b c") 0 (-1) = inr chunks)
  ∧ chunk_text (lit "a b c") 2 5 = inr [].
Proof.
  split; [|split].
  - apply (proj1 chunker_raises_only_on_zero_stride (lit "a b c") 3 3).
    reflexivity.
  - apply (proj1 (proj2 chunker_raises_only_on_zero_stride)
             (lit "a b c") 0 (-1)). lia.
  - apply (proj2 (proj2 chunker_raises_only_on_zero_stride)
             (lit "a b c") 2 5). lia.
Defined.

(** ** One call of [query] *)

Ltac run_query :=
  unfold query, save_query_log, try_except, write_file, record_request,
    get_collection, tick, lift, mbind, M_bind, mret, M_ret;
  cbn -[build_prompt Py.join lit log_file_name nl].

Lemma query_retrieval_raises self w question n_results s e :
  collection_query w (calls s) (coll s) question n_results = inl e →
  ∃ s', query self w question n_results s = (inl e, s')
        ∧ calls s' = S (calls s) ∧ coll s' = coll s
        ∧ files s' = files s ∧ writes s' = writes s
        ∧ sent s' = sent s ∧ shown s' = shown s.
Proof.
  intros Hq. run_query. rewrite Hq. eexists. repeat split; reflexivity.
Qed.

Lemma query_backend_answers self w question n_results s docs r :
  collection_query w (calls s) (coll s) question n_results = inr docs →
  ollama_chat w (S (calls s)) (model self)
    (build_prompt (Py.join (nl ++ nl) docs) question) = inr r →
  ∃ s' data,
    query self w question n_results s = (inr (content r), s')
    ∧ writes s'
      = writes s ++ [(log_file_name self (now w (S (S (calls s)))), data)]
    ∧ files s'
      = <[log_file_name self (now w (S (S (calls s)))) := data]> (files s)
    ∧ sent s'
      = sent s ++ [(model self,
                    build_prompt (Py.join (nl ++ nl) docs) question)]
    ∧ log_question data = question
    ∧ log_response data = content r
    ∧ log_token_details data = Some (details_of (token_info_of r))
    ∧ coll s' = coll s ∧ shown s' = shown s.
Proof.
  intros Hq Hc. run_query. rewrite Hq.
  cbn -[build_prompt Py.join lit log_file_name nl]. rewrite Hc.
  eexists _, _. repeat split; reflexivity.
Qed.

Lemma query_backend_raises self w question n_results s docs msg :
  collection_query w (calls s) (coll s) question n_results = inr docs →
  ollama_chat w (S (calls s)) (model self)
    (build_prompt (Py.join (nl ++ nl) docs) question)
  = inl (Exception msg) →
  ∃ s' data,
    query self w question n_results s
    = (inr (lit "Error querying model: " ++ msg), s')
    ∧ writes s'
      = writes s ++ [(log_file_name self (now w (S (S (calls s)))), data)]
    ∧ files s'
      = <[log_file_name self (now w (S (S (calls s)))) := data]> (files s)
    ∧ sent s'
      = sent s ++ [(model self,
                    build_prompt (Py.join (nl ++ nl) docs) question)]
    ∧ log_question data = question
    ∧ log_response data = lit "Error querying model: " ++ msg
    ∧ log_token_details data = None
    ∧ coll s' = coll s ∧ shown s' = shown s.
Proof.
  intros Hq Hc. run_query. rewrite Hq.
  cbn -[build_prompt Py.join lit log_file_name nl]. rewrite Hc.
  eexists _, _. repeat split; reflexivity.
Qed.

Lemma query_backend_interrupted self w question n_results s docs :
  collection_query w (calls s) (coll s) question n_results = inr docs →
  ollama_chat w (S (calls s)) (model self)
    (build_prompt (Py.join (nl ++ nl) docs) question)
  = inl KeyboardInterrupt →
  ∃ s',
    query self w question n_results s = (inl KeyboardInterrupt, s')
    ∧ writes s' = writes s
    ∧ sent s'
      = sent s ++ [(model self,
                    build_prompt (Py.join (nl ++ nl) docs) question)].
Proof.
  intros Hq Hc. run_query. rewrite Hq.
  cbn -[build_prompt Py.join lit log_file_name nl]. rewrite Hc.
  eexists. repeat split; reflexivity.
Qed.

(** ** The prompt *)

Lemma join_concat sep d ds :
  Py.join sep (d :: ds) = d ++ concat (map (app sep) ds).
Proof.
  revert d. induction ds as [|d' ds IH]; intros d.
  - simpl. rewrite app_nil_r. reflexivity.
  - change (Py.join sep (d :: d' :: ds))
      with (d ++ sep ++ Py.join sep (d' :: ds)).
    rewrite IH. simpl. rewrite <- app_assoc. reflexivity.
Qed.

Lemma query_sends_prompt self w question n_results s docs :
  collection_query w (calls s) (coll s) question n_results = inr docs →
  sent (query self w question n_results s).2
  = sent s ++ [(model self,
                build_prompt (Py.join (nl ++ nl) docs) question)].
Proof.
  intros Hq.
  destruct (ollama_chat w (S (calls s)) (model self)
              (build_prompt (Py.join (nl ++ nl) docs) question))
    as [[msg|]|r] eqn:Hc.
  - destruct (query_backend_raises self w question n_results s docs msg
                Hq Hc) as (s1 & data & -> & _ & _ & Hs & _). exact Hs.
  - destruct (query_backend_interrupted self w question n_results s docs
                Hq Hc) as (s1 & -> & _ & Hs). exact Hs.
  - destruct (query_backend_answers self w question n_results s docs r
                Hq Hc) as (s1 & data & -> & _ & _ & Hs & _). exact Hs.
Qed.

(** C9. For every question and every list of retrieved documents, the one
    prompt that [query] sends to the backend consists of the heading with
    the context block, in which the documents follow one another in their
    ranked order with a blank line between two of them, then the line
    ["Question: "] with the question as it was asked, then the cue
    ["Answer:"]. *)
Theorem prompt_follows_template self w question n_results s docs :
  collection_query w (calls s) (coll s) question n_results = inr docs →
  ∃ context prompt,
    sent (query self w question n_results s).2
    = sent s ++ [(model self, prompt)]
    ∧ context
      = match docs with
        | [] => []
        | d :: ds => d ++ concat (map (fun d' => [10; 10]%N ++ d') ds)
        end
    ∧ prompt
      = lit "Based on the following context from the document, please answer the question."
        ++ [10; 10]%N ++ lit "Context:" ++ [10]%N
        ++ context
        ++ [10; 10]%N ++ lit "Question: " ++ question
        ++ [10; 10]%N ++ lit "Answer:".
Proof.
  intros Hq.
  exists (Py.join (nl ++ nl) docs),
         (build_prompt (Py.join (nl ++ nl) docs) question).
  split; [apply query_sends_prompt; exact Hq|].
  split.
  - destruct docs as [|d ds]; [reflexivity|]. apply join_concat.
  - reflexivity.
Qed.

(** A witness of [prompt_follows_template]. *)
Lemma prompt_follows_template_witness :
  ∃ context prompt,
    sent (query sample_app
            (sample_world running_clock (inr [lit "a b"; lit "c"])
               (inr sample_response))
            (lit "what?") 5 initial_state).2
    = sent initial_state ++ [(model sample_app, prompt)]
    ∧ context
      = lit "a b" ++ concat (map (fun d' => [10; 10]%N ++ d') [lit "c"])
    ∧ prompt
      = lit "Based on the following context from the document, please answer the question."
        ++ [10; 10]%N ++ lit "Context:" ++ [10]%N
        ++ context
        ++ [10; 10]%N ++ lit "Question: " ++ lit "what?"
        ++ [10; 10]%N ++ lit "Answer:".
Proof.
  apply (prompt_follows_template sample_app
           (sample_world running_clock (inr [lit "a b"; lit "c"])
              (inr sample_response))
           (lit "what?") 5 initial_state [lit "a b"; lit "c"]).
  reflexivity.
Defined.

(** ** A failing retrieval *)

(** C6 as stated fails: when the query of the collection raises, [query]
    does not return an answer built on an empty context; it raises the same
    exception, and neither a prompt is sent nor a log written. *)
Lemma retrieval_failure_counterexample :
  ¬ (∃ answer s',
       query sample_app
         (sample_world running_clock
            (inl (Exception (lit "embedding failed"))) (inr sample_response))
         (lit "what?") 5 initial_state
       = (inr answer, s')
       ∧ sent s' = [(model sample_app, build_prompt [] (lit "what?"))])
  ∧ (query sample_app
       (sample_world running_clock
          (inl (Exception (lit "embedding failed"))) (inr sample_response))
       (lit "what?") 5 initial_state).1
    = inl (Exception (lit "embedding failed"))
  ∧ sent (query sample_app
            (sample_world running_clock
               (inl (Exception (lit "embedding failed")))
               (inr sample_response))
            (lit "what?") 5 initial_state).2
    = []
  ∧ writes (query sample_app
              (sample_world running_clock
                 (inl (Exception (lit "embedding failed")))
                 (inr sample_response))
              (lit "what?") 5 initial_state).2
    = [].
Proof.
  split; [|repeat split; vm_compute; reflexivity].
  intros (answer & s' & Hrun & _).
  vm_compute in Hrun. discriminate Hrun.
Qed.

Lemma loop_body_question self w s line :
  input w (calls s) = inr line →
  is_question line →
  loop_body self w s
  = match query self w (strip line) default_n_results
            (tick s).2 with
    | (inl KeyboardInterrupt, s1) =>
        (show ShowGoodbye;; mret Break) s1
    | (inl (Exception msg), s1) =>
        (show (ShowError msg);; mret Continue) s1
    | (inr answer, s1) =>
        (show (ShowAnswer answer);; mret Continue) s1
    end.
Proof.
  intros Hin (Hne & Hcmd & Hstats).
  unfold loop_body, try_except_interrupt.
  unfold mbind at 1. unfold M_bind at 1.
  unfold mbind at 1. unfold M_bind at 1.
  cbn [tick lift fst snd]. unfold lift. rewrite Hin.
  cbv zeta. rewrite Hne, Hcmd, Hstats. cbn [negb].
  unfold mbind at 1. unfold M_bind at 1.
  destruct (query self w (strip line) default_n_results _)
    as [[[msg|]|answer] s1]; reflexivity.
Qed.

(** C6 (as amended). When the query of the collection raises an
    [Exception], [query] raises it too: no prompt is sent to the backend and
    no log is written.  The interactive loop catches the exception, shows
    its message and goes on to its next pass, so the session does not
    end. *)
Theorem retrieval_failure_is_shown self w s msg :
  (∀ question n_results,
     collection_query w (calls s) (coll s) question n_results
     = inl (Exception msg) →
     ∃ s', query self w question n_results s = (inl (Exception msg), s')
           ∧ sent s' = sent s ∧ writes s' = writes s
           ∧ files s' = files s)
  ∧ (∀ line,
       input w (calls s) = inr line →
       is_question line →
       collection_query w (S (calls s)) (coll s) (strip line)
         default_n_results
       = inl (Exception msg) →
       ∃ s', loop_body self w s = (inr Continue, s')
             ∧ shown s' = shown s ++ [ShowError msg]
             ∧ sent s' = sent s ∧ writes s' = writes s
             ∧ files s' = files s
             ∧ ∀ fuel, run_interactive self w (S fuel) s
                       = run_interactive self w fuel s').
Proof.
  split.
  - intros question n_results Hq.
    destruct (query_retrieval_raises self w question n_results s _ Hq)
      as (s' & Hrun & _ & _ & Hf & Hw & Hs & _). eauto 6.
  - intros line Hin Hquestion Hq.
    pose proof (loop_body_question self w s line Hin Hquestion) as Hbody.
    destruct (query_retrieval_raises self w (strip line) default_n_results
                (tick s).2 (Exception msg) Hq)
      as (s1 & Hrun & _ & _ & Hf & Hw & Hs & Hsh).
    rewrite Hrun in Hbody.
    eexists. split; [exact Hbody|].
    split; [simpl; rewrite Hsh; reflexivity|].
    split; [exact Hs|]. split; [exact Hw|]. split; [exact Hf|].
    intros fuel. simpl run_interactive.
    unfold mbind at 1. unfold M_bind at 1. rewrite Hbody. reflexivity.
Qed.

(** A witness of [retrieval_failure_is_shown]. *)
Lemma retrieval_failure_is_shown_witness :
  (∃ s',
     query sample_app
       (sample_world running_clock
          (inl (Exception (lit "embedding failed"))) (inr sample_response))
       (lit "what?") 5 initial_state
     = (inl (Exception (lit "embedding failed")), s')
     ∧ sent s' = sent initial_state ∧ writes s' = writes initial_state
     ∧ files s' = files initial_state)
  ∧ (∃ s',
       loop_body sample_app
         (sample_world running_clock
            (inl (Exception (lit "embedding failed")))
            (inr sample_response))
         initial_state
       = (inr Continue, s')
       ∧ shown s'
         = shown initial_state ++ [ShowError (lit "embedding failed")]
       ∧ sent s' = sent initial_state ∧ writes s' = writes initial_state
       ∧ files s' = files initial_state
       ∧ ∀ fuel,
           run_interactive sample_app
             (sample_world running_clock
                (inl (Exception (lit "embedding failed")))
                (inr sample_response))
             (S fuel) initial_state
           = run_interactive sample_app
               (sample_world running_clock
                  (inl (Exception (lit "embedding failed")))
                  (inr sample_response))
               fuel s').
Proof.
  split.
  - apply (proj1 (retrieval_failure_is_shown sample_app
                    (sample_world running_clock
                       (inl (Exception (lit "embedding failed")))
                       (inr sample_response))
                    initial_state (lit "embedding failed"))
             (lit "what?") 5).
    reflexivity.
  - apply (proj2 (retrieval_failure_is_shown sample_app
                    (sample_world running_clock
                       (inl (Exception (lit "embedding failed")))
                       (inr sample_response))
                    initial_state (lit "embedding failed"))
             (lit " what is this? ")).
    + reflexivity.
    + repeat split; vm_compute; reflexivity.
    + reflexivity.
Defined.

(** ** Names of the log files *)

Lemma length_zero_padded w : ∀ n, length (zero_padded w n) = w.
Proof.
  induction w as [|w IH]; intros n; simpl; [reflexivity|].
  rewrite length_app, IH. simpl. lia.
Qed.

Lemma zero_padded_inj w : ∀ a b,
  (a < 10 ^ N.of_nat w)%N → (b < 10 ^ N.of_nat w)%N →
  zero_padded w a = zero_padded w b → a = b.
Proof.
  induction w as [|w IH]; intros a b Ha Hb Heq.
  - simpl in Ha, Hb. lia.
  - rewrite Nat2N.inj_succ, N.pow_succ_r' in Ha, Hb.
    simpl in Heq. apply app_inj_2 in Heq as [Hhigh Hlow]; [|reflexivity].
    injection Hlow as Hlow. unfold digit in Hlow.
    assert (Hdiv : (a / 10 = b / 10)%N).
    { apply IH; [| |exact Hhigh]; apply N.Div0.div_lt_upper_bound; lia. }
    rewrite (N.div_mod' a 10), (N.div_mod' b 10). lia.
Qed.

Lemma strftime_stamp_inj d1 d2 :
  valid_datetime d1 → valid_datetime d2 →
  strftime_stamp d1 = strftime_stamp d2 → d1 = d2.
Proof.
  intros (Hy1 & Hm1 & Hd1 & Hh1 & Hmi1 & Hs1 & Hu1)
         (Hy2 & Hm2 & Hd2 & Hh2 & Hmi2 & Hs2 & Hu2) Heq.
  unfold strftime_stamp in Heq.
  repeat match type of Heq with
  | zero_padded ?w ?a ++ _ = zero_padded ?w ?b ++ _ =>
      let H := fresh "Hfield" in
      apply app_inj_1 in Heq as [H Heq];
      [apply zero_padded_inj in H; [|simpl; lia|simpl; lia]
      |rewrite !length_zero_padded; reflexivity]
  | lit "_" ++ _ = lit "_" ++ _ => apply app_inv_head in Heq
  end.
  apply zero_padded_inj in Heq; [|simpl; lia|simpl; lia].
  destruct d1, d2; simpl in *; subst; reflexivity.
Qed.

Lemma log_file_name_inj self d1 d2 :
  valid_datetime d1 → valid_datetime d2 →
  log_file_name self d1 = log_file_name self d2 → d1 = d2.
Proof.
  intros Hv1 Hv2 Heq. unfold log_file_name in Heq.
  do 3 apply app_inv_head in Heq. apply app_inv_tail in Heq.
  apply strftime_stamp_inj; assumption.
Qed.

Lemma save_query_log_runs self w question answer context_length
    prompt_length info s :
  ∃ s' data,
    save_query_log self w question answer context_length prompt_length info s
    = (inr tt, s')
    ∧ calls s' = S (S (calls s))
    ∧ writes s' = writes s ++ [(log_file_name self (now w (calls s)), data)]
    ∧ files s' = <[log_file_name self (now w (calls s)) := data]> (files s)
    ∧ log_question data = question
    ∧ log_response data = answer.
Proof.
  unfold save_query_log, write_file, tick, mbind, M_bind.
  cbn -[log_file_name]. eexists _, _. repeat split; reflexivity.
Qed.

(** C8 as stated fails: the name of a log file is made from one reading of
    the clock and nothing else, so two writes that read the same microsecond
    get the same name and the second record replaces the first. *)
Lemma log_names_counterexample :
  ∃ name first second,
    writes ((save_query_log sample_app
               (sample_world stuck_clock (inr []) (inr sample_response))
               (lit "one?") (lit "1") 0 0 None;;
             save_query_log sample_app
               (sample_world stuck_clock (inr []) (inr sample_response))
               (lit "two?") (lit "2") 0 0 None) initial_state).2
    = [(name, first); (name, second)]
    ∧ log_question first = lit "one?"
    ∧ log_question second = lit "two?"
    ∧ files ((save_query_log sample_app
                (sample_world stuck_clock (inr []) (inr sample_response))
                (lit "one?") (lit "1") 0 0 None;;
              save_query_log sample_app
                (sample_world stuck_clock (inr []) (inr sample_response))
                (lit "two?") (lit "2") 0 0 None) initial_state).2
      = {[ name := second ]}.
Proof.
  eexists _, _, _. split; [vm_compute; reflexivity|].
  split; [vm_compute; reflexivity|]. split; [vm_compute; reflexivity|].
  unfold mbind, M_bind.
  destruct (save_query_log_runs sample_app
              (sample_world stuck_clock (inr []) (inr sample_response))
              (lit "one?") (lit "1") 0 0 None initial_state)
    as (s1 & data1 & -> & Hc1 & _ & Hf1 & _).
  unfold save_query_log, write_file, tick, mbind, M_bind.
  cbn -[log_file_name insert]. rewrite Hf1.
  cbn -[log_file_name insert]. rewrite insert_insert_eq.
  rewrite insert_empty. reflexivity.
Qed.

(** C8 (as amended). Two log files written at valid clock readings have the
    same name exactly when the two readings are equal down to the
    microsecond.  Hence two writes in a row whose readings differ, even
    within one second, produce two names, and both records are in the log
    directory afterwards. *)
Theorem log_names_distinct_readings self :
  (∀ d1 d2,
     valid_datetime d1 → valid_datetime d2 →
     (log_file_name self d1 = log_file_name self d2 ↔ d1 = d2))
  ∧ (∀ w s q1 a1 c1 p1 i1 q2 a2 c2 p2 i2,
       valid_datetime (now w (calls s)) →
       valid_datetime (now w (S (S (calls s)))) →
       now w (calls s) ≠ now w (S (S (calls s))) →
       ∃ s' name1 data1 name2 data2,
         (save_query_log self w q1 a1 c1 p1 i1;;
          save_query_log self w q2 a2 c2 p2 i2) s = (inr tt, s')
         ∧ writes s' = writes s ++ [(name1, data1); (name2, data2)]
         ∧ name1 ≠ name2
         ∧ files s' !! name1 = Some data1
         ∧ files s' !! name2 = Some data2).
Proof.
  split.
  - intros d1 d2 Hv1 Hv2. split; [|intros ->; reflexivity].
    apply log_file_name_inj; assumption.
  - intros w s q1 a1 c1 p1 i1 q2 a2 c2 p2 i2 Hv1 Hv2 Hne.
    destruct (save_query_log_runs self w q1 a1 c1 p1 i1 s)
      as (s1 & data1 & Hrun1 & Hc1 & Hw1 & Hf1 & _).
    destruct (save_query_log_runs self w q2 a2 c2 p2 i2 s1)
      as (s2 & data2 & Hrun2 & Hc2 & Hw2 & Hf2 & _).
    rewrite Hc1 in Hw2, Hf2.
    assert (Hnames : log_file_name self (now w (calls s))
                     ≠ log_file_name self (now w (S (S (calls s))))).
    { intros Heq. apply Hne. eapply log_file_name_inj; eassumption. }
    exists s2, (log_file_name self (now w (calls s))), data1,
           (log_file_name self (now w (S (S (calls s))))), data2.
    split.
    { unfold mbind, M_bind. rewrite Hrun1. exact Hrun2. }
    split; [rewrite Hw2, Hw1, <- app_assoc; reflexivity|].
    split; [exact Hnames|]. rewrite Hf2, Hf1. split.
    + rewrite lookup_insert_ne by congruence. apply lookup_insert_eq.
    + apply lookup_insert_eq.
Qed.

(** A witness of [log_names_distinct_readings]: two readings within one
    second that differ in the microsecond. *)
Lemma log_names_distinct_readings_witness :
  (log_file_name sample_app (running_clock 0)
   = log_file_name sample_app (running_clock 2)
   ↔ running_clock 0 = running_clock 2)
  ∧ (∃ s' name1 data1 name2 data2,
       (save_query_log sample_app
          (sample_world running_clock (inr []) (inr sample_response))
          (lit "one?") (lit "1") 0 0 None;;
        save_query_log sample_app
          (sample_world running_clock (inr []) (inr sample_response))
          (lit "two?") (lit "2") 0 0 None) initial_state
       = (inr tt, s')
       ∧ writes s'
         = writes initial_state ++ [(name1, data1); (name2, data2)]
       ∧ name1 ≠ name2
       ∧ files s' !! name1 = Some data1
       ∧ files s' !! name2 = Some data2).
Proof.
  split.
  - apply (proj1 (log_names_distinct_readings sample_app)
             (running_clock 0) (running_clock 2));
      vm_compute; intuition discriminate.
  - apply (proj2 (log_names_distinct_readings sample_app)
             (sample_world running_clock (inr []) (inr sample_response))
             initial_state (lit "one?") (lit "1") 0%nat 0%nat None
             (lit "two?") (lit "2") 0%nat 0%nat None).
    + vm_compute. intuition discriminate.
    + vm_compute. intuition discriminate.
    + discriminate.
Defined.

(** ** Queries of the vector index *)

Section IndexProperties.

Context {embedding score : Type}.
Variable embed : str → embedding.
Variable similarity : embedding → embedding → score.
Variable score_ge : relation score.
Context `{!RelDecision score_ge}.

Lemma ranked_total : Total score_ge → Total (VectorIndex.ranked score_ge).
Proof. intros Htotal a b. apply Htotal. Qed.

Lemma ranked_transitive :
  Transitive score_ge → Transitive (VectorIndex.ranked score_ge).
Proof. intros Htrans a b c. apply Htrans. Qed.

Lemma length_scored (g : VectorIndex.generation) q :
  length (VectorIndex.scored embed similarity g q) = VectorIndex.count g.
Proof. unfold VectorIndex.scored, VectorIndex.count. apply length_map. Qed.

Lemma length_sorted_scored (g : VectorIndex.generation) q :
  length (merge_sort (VectorIndex.ranked score_ge)
            (VectorIndex.scored embed similarity g q))
  = VectorIndex.count g.
Proof.
  rewrite <- (length_scored g q).
  apply Permutation_length, merge_sort_Permutation.
Qed.

End IndexProperties.

(** C7. For every query text and every positive [top_k], the query of the
    index returns at most [top_k] results and at most [count()] results,
    each of them a chunk of the current generation with its similarity, in
    the order of non-increasing similarity; when the generation holds fewer
    than [top_k] entries it returns all of them. *)
Theorem index_query_ranked {embedding score : Type}
    (embed : str → embedding) (similarity : embedding → embedding → score)
    (score_ge : relation score) `{!RelDecision score_ge}
    (g : VectorIndex.generation) (q : str) (top_k : Z) :
  Total score_ge → Transitive score_ge → 0 < top_k →
  let result := VectorIndex.query embed similarity score_ge g q top_k in
  Z.of_nat (length result) ≤ top_k
  ∧ (length result ≤ VectorIndex.count g)%nat
  ∧ StronglySorted (fun a b => score_ge a.2 b.2) result
  ∧ result ⊆+ VectorIndex.scored embed similarity g q
  ∧ (Z.of_nat (VectorIndex.count g) < top_k →
     length result = VectorIndex.count g
     ∧ result ≡ₚ VectorIndex.scored embed similarity g q).
Proof.
  intros Htotal Htrans Hk result. unfold result, VectorIndex.query.
  pose proof (length_sorted_scored embed similarity score_ge g q) as Hlen.
  split; [rewrite length_take; lia|].
  split; [rewrite length_take; lia|].
  split.
  { apply (StronglySorted_app_1_l _ _
             (drop (Z.to_nat top_k)
                (merge_sort (VectorIndex.ranked score_ge)
                   (VectorIndex.scored embed similarity g q)))).
    rewrite take_drop.
    apply (StronglySorted_merge_sort (VectorIndex.ranked score_ge)
             (Transitive0 := ranked_transitive score_ge Htrans)
             (Total0 := ranked_total score_ge Htotal)). }
  split.
  { etransitivity; [apply sublist_submseteq, sublist_take|].
    apply Permutation_submseteq, merge_sort_Permutation. }
  intros Hfew. rewrite take_ge by lia.
  split; [exact Hlen|apply merge_sort_Permutation].
Qed.

(** A witness of [index_query_ranked]: three chunks, five results asked. *)
Lemma index_query_ranked_witness :
  let result :=
    VectorIndex.query (fun t : str => t) sample_similarity Z.ge
      sample_generation (lit "x") 5 in
  Z.of_nat (length result) ≤ 5
  ∧ (length result ≤ VectorIndex.count sample_generation)%nat
  ∧ StronglySorted (fun a b => a.2 >= b.2) result
  ∧ result ⊆+ VectorIndex.scored (fun t : str => t) sample_similarity
                sample_generation (lit "x")
  ∧ (Z.of_nat (VectorIndex.count sample_generation) < 5 →
     length result = VectorIndex.count sample_generation
     ∧ result ≡ₚ VectorIndex.scored (fun t : str => t) sample_similarity
                   sample_generation (lit "x")).
Proof.
  apply (index_query_ranked (fun t : str => t) sample_similarity Z.ge
           sample_generation (lit "x") 5).
  - intros x y. lia.
  - intros x y z. lia.
  - lia.
Defined.

(** ** The program on small inputs *)

Example chunk_text_demo :
  chunk_text (lit "  a b  c d ") 3 2
  = inr [lit "a b c"; lit "b c d"; lit "c d"; lit "d"].
Proof. vm_compute. reflexivity. Qed.

Example chunk_text_short_tail :
  chunk_text (lit "a b c d e f g") 5 2 = inr [lit "a b c d e"; lit "d e f g"; lit "g"].
Proof. vm_compute. reflexivity. Qed.

Example chunk_text_negative_size :
  chunk_text (lit "a b c d e f g h") (-2) (-5) = inr [lit "a b c d e f"].
Proof. vm_compute. reflexivity. Qed.

Example log_file_name_demo :
  log_file_name sample_app (running_clock 42)
  = lit "query_logs/query_20251104_095907_000042.json".
Proof. vm_compute. reflexivity. Qed.

Example index_query_demo :
  map (fun r => (VectorIndex.sequence_index r.1, r.2))
    (VectorIndex.query (fun t : str => t) sample_similarity Z.ge
       sample_generation (lit "x") 2)
  = [(1%nat, 0); (2%nat, -4)].
Proof. vm_compute. reflexivity. Qed.

Example session_demo :
  shown (run_interactive sample_app
           (sample_world running_clock (inr [lit "a b"])
              (inl (Exception (lit "connection refused"))))
           2 initial_state).2
  = [ShowAnswer (lit "Error querying model: connection refused");
     ShowAnswer (lit "Error querying model: connection refused")].
Proof. vm_compute. reflexivity. Qed.

(** * Further properties of the program *)

(** ** How many chunks, and how long *)

Lemma range_length_ceil n step :
  0 < step → 0 ≤ n →
  Py.range_length 0 n step = (n + step - 1) / step.
Proof.
  intros Hstep Hn. unfold Py.range_length.
  destruct (Z.ltb_spec 0 step); [|lia].
  destruct (Z.ltb_spec 0 n).
  - replace (n - 0 - 1) with (n - 1) by lia.
    replace (n + step - 1) with (n - 1 + 1 * step) by lia.
    rewrite Z.div_add by lia. reflexivity.
  - replace n with 0 by lia. symmetry. apply Z.div_small. lia.
Qed.

Lemma range_length_nonneg n step :
  0 < step → 0 ≤ n → 0 ≤ Py.range_length 0 n step.
Proof.
  intros Hstep Hn. rewrite range_length_ceil by assumption.
  apply Z.div_pos; lia.
Qed.

(** X1. With a positive chunk size and an overlap below it, a text of [n] words
    gives [ceil (n / stride)] chunks, the stride being the chunk size less
    the overlap; chunk [k] has [min chunk_size (n - k * stride)] words,
    which is at least one and at most [chunk_size]. *)
Theorem chunk_count_and_sizes text chunk_size overlap :
  0 < chunk_size → 0 ≤ overlap < chunk_size →
  ∃ chunks,
    chunk_text text chunk_size overlap = inr chunks
    ∧ Z.of_nat (length chunks)
      = (Z.of_nat (length (Py.split text)) + (chunk_size - overlap) - 1)
        / (chunk_size - overlap)
    ∧ ∀ k c, chunks !! k = Some c →
        length (Py.split c)
        = Nat.min (Z.to_nat chunk_size)
            (length (Py.split text) - k * Z.to_nat (chunk_size - overlap))
        ∧ (1 ≤ length (Py.split c) ≤ Z.to_nat chunk_size)%nat.
Proof.
  intros Hsize Hov.
  pose proof (chunk_text_windows text chunk_size overlap Hsize Hov) as Hrun.
  eexists. split; [exact Hrun|]. split.
  - rewrite length_map, length_seq, Z2Nat.id
      by (apply range_length_nonneg; lia).
    apply range_length_ceil; lia.
  - intros k c Hk.
    destruct (chunk_lookup _ _ _ _ _ _ Hsize Hov Hrun Hk) as [Hlt ->].
    rewrite window_length.
    assert (k * Z.to_nat (chunk_size - overlap)
            < length (Py.split text))%nat; [|lia].
    apply Nat2Z.inj_lt. rewrite Nat2Z.inj_mul, Z2Nat.id by lia. exact Hlt.
Qed.

(** A witness of [chunk_count_and_sizes]: seven words in windows of five
    words that overlap by two. *)
Lemma chunk_count_and_sizes_witness :
  ∃ chunks,
    chunk_text (lit "a b c d e f g") 5 2 = inr chunks
    ∧ Z.of_nat (length chunks)
      = (Z.of_nat (length (Py.split (lit "a b c d e f g"))) + (5 - 2) - 1)
        / (5 - 2)
    ∧ ∀ k c, chunks !! k = Some c →
        length (Py.split c)
        = Nat.min (Z.to_nat 5)
            (length (Py.split (lit "a b c d e f g")) - k * Z.to_nat (5 - 2))
        ∧ (1 ≤ length (Py.split c) ≤ Z.to_nat 5)%nat.
Proof. apply (chunk_count_and_sizes (lit "a b c d e f g") 5 2); lia. Defined.

(** ** The chunks put the words back together *)

Lemma concat_strides {A} (l : list A) stride : ∀ count,
  concat (map (fun k => take stride (drop (k * stride) l)) (seq 0 count))
  = take (count * stride) l.
Proof.
  induction count as [|count IH]; [reflexivity|].
  rewrite seq_S, map_app, concat_app, IH. simpl.
  rewrite app_nil_r, take_take_drop. f_equal. lia.
Qed.

(** X2. With a positive chunk size and an overlap below it, the first [stride]
    words of every chunk, taken in the order of the chunks, are the words
    of the text: nothing is lost, repeated or reordered once the overlaps
    are cut off. *)
Theorem chunks_reconstruct_words text chunk_size overlap :
  0 < chunk_size → 0 ≤ overlap < chunk_size →
  ∃ chunks,
    chunk_text text chunk_size overlap = inr chunks
    ∧ concat (map (fun c => take (Z.to_nat (chunk_size - overlap))
                              (Py.split c)) chunks)
      = Py.split text.
Proof.
  intros Hsize Hov.
  eexists. split; [apply chunk_text_windows; assumption|].
  rewrite map_map.
  set (stride := Z.to_nat (chunk_size - overlap)).
  set (count := Z.to_nat (Py.range_length 0
                  (Z.of_nat (length (Py.split text)))
                  (chunk_size - overlap))).
  rewrite (map_ext _ (fun k => take stride (drop (k * stride) (Py.split text)))).
  - rewrite concat_strides. apply take_ge.
    assert (Hc : ¬ Z.of_nat count * (chunk_size - overlap)
                   < Z.of_nat (length (Py.split text))).
    { intros Hlt.
      apply (range_length_spec _ _ (Z.of_nat count)) in Hlt; [|lia|lia|lia].
      unfold count in Hlt. lia. }
    apply Nat2Z.inj_le. rewrite Nat2Z.inj_mul.
    unfold stride. rewrite Z2Nat.id by lia. lia.
  - intros k. rewrite split_join by apply window_words.
    unfold window. rewrite take_take. f_equal. unfold stride. lia.
Qed.

(** A witness of [chunks_reconstruct_words]. *)
Lemma chunks_reconstruct_words_witness :
  ∃ chunks,
    chunk_text (lit "a b c d e f g") 5 2 = inr chunks
    ∧ concat (map (fun c => take (Z.to_nat (5 - 2)) (Py.split c)) chunks)
      = Py.split (lit "a b c d e f g").
Proof. apply (chunks_reconstruct_words (lit "a b c d e f g") 5 2); lia. Defined.

(** ** Chunks for any sizes *)

Lemma slice_is_run {A} (l : list A) lo hi :
  ∃ before after, l = before ++ Py.slice l lo hi ++ after.
Proof.
  unfold Py.slice.
  set (a := Z.to_nat (Py.adjust_index (Z.of_nat (length l)) lo)).
  set (b := Z.to_nat (_ - _)).
  exists (take a l), (drop b (drop a l)).
  rewrite (take_drop b (drop a l)), take_drop. reflexivity.
Qed.

Lemma fold_chunk_step_runs words size : ∀ indices acc,
  Forall (run_of_words words) acc →
  Forall (run_of_words words)
         (fold_left (chunk_step words size) indices acc).
Proof.
  induction indices as [|i indices IH]; intros acc Hacc; simpl; [exact Hacc|].
  apply IH. unfold chunk_step.
  destruct (Py.truthy _) eqn:E; [|exact Hacc].
  apply Forall_app. split; [exact Hacc|]. constructor; [|constructor].
  destruct (slice_is_run words i (i + size)) as (before & after & Hl).
  exists before, (Py.slice words i (i + size)), after.
  split; [exact Hl|]. split; [|reflexivity].
  eapply join_nil_inv. exact E.
Qed.

Lemma run_of_words_split words c :
  Forall is_word words → run_of_words words c →
  Py.join (lit " ") (Py.split c) = c
  ∧ ∃ before after, words = before ++ Py.split c ++ after.
Proof.
  intros Hwords (before & run & after & Hl & _ & ->).
  assert (Hrun : Forall is_word run).
  { rewrite Hl in Hwords.
    apply Forall_app in Hwords as [_ Hwords].
    apply Forall_app in Hwords as [Hwords _]. exact Hwords. }
  rewrite split_join by exact Hrun. split; [reflexivity|]. eauto.
Qed.

(** X3. Whatever the sizes, when [chunk_text] returns, each chunk is a run of
    consecutive words of the text joined by single blanks: it never holds a
    word that is not in the text, never reorders words, and splitting it
    again and joining the words gives the chunk back. *)
Theorem chunks_are_runs_of_words text chunk_size overlap chunks :
  chunk_text text chunk_size overlap = inr chunks →
  Forall (fun c =>
            Py.join (lit " ") (Py.split c) = c
            ∧ ∃ before after,
                Py.split text = before ++ Py.split c ++ after)
         chunks.
Proof.
  intros Hrun. unfold chunk_text in Hrun.
  destruct (Py.range _ _ _) as [e|indices]; [discriminate|].
  injection Hrun as <-.
  eapply Forall_impl;
    [apply (fold_chunk_step_runs (Py.split text) chunk_size indices []);
     constructor|].
  intros c Hc. apply run_of_words_split; [apply split_words|exact Hc].
Qed.

(** A witness of [chunks_are_runs_of_words], with a negative chunk size. *)
Lemma chunks_are_runs_of_words_witness :
  Forall (fun c =>
            Py.join (lit " ") (Py.split c) = c
            ∧ ∃ before after,
                Py.split (lit "a b  c d e f g h")
                = before ++ Py.split c ++ after)
         [lit "a b c d e f"].
Proof.
  apply (chunks_are_runs_of_words (lit "a b  c d e f g h") (-2) (-5)).
  vm_compute. reflexivity.
Defined.

(** ** A text that fits into one chunk *)

(** X4. With a positive chunk size and an overlap below it, a text of at least
    one and at most [chunk_size] words gives a first chunk that holds the
    whole text, its words joined by single blanks.  Any further chunk only
    repeats the end of the text, and there is none when the text has at
    most [chunk_size - overlap] words. *)
Theorem short_text_first_chunk text chunk_size overlap :
  0 < chunk_size → 0 ≤ overlap < chunk_size →
  (0 < length (Py.split text))%nat →
  Z.of_nat (length (Py.split text)) ≤ chunk_size →
  ∃ rest,
    chunk_text text chunk_size overlap
    = inr (Py.join (lit " ") (Py.split text) :: rest)
    ∧ Forall (fun c => ∃ k, (0 < k)%nat
                            ∧ Py.split c = drop k (Py.split text)) rest
    ∧ (Z.of_nat (length (Py.split text)) ≤ chunk_size - overlap →
       rest = []).
Proof.
  intros Hsize Hov Hpos Hfit.
  pose proof (chunk_text_windows text chunk_size overlap Hsize Hov) as Hrun.
  set (count := Z.to_nat (Py.range_length 0
                  (Z.of_nat (length (Py.split text)))
                  (chunk_size - overlap))) in *.
  assert (Hcount : (0 < count)%nat).
  { apply Nat2Z.inj_lt. unfold count.
    rewrite Z2Nat.id by (apply range_length_nonneg; lia).
    apply range_length_spec; lia. }
  destruct count as [|count'] eqn:Ecount; [lia|].
  change (seq 0 (S count')) with (0%nat :: seq 1 count') in Hrun.
  simpl map in Hrun.
  assert (Hfirst : window (Py.split text) (Z.to_nat chunk_size)
                     (Z.to_nat (chunk_size - overlap)) 0 = Py.split text).
  { unfold window. simpl. apply take_ge. lia. }
  rewrite Hfirst in Hrun.
  eexists. split; [exact Hrun|]. split.
  - apply Forall_forall. intros c Hc.
    apply list_elem_of_In, in_map_iff in Hc as [k [<- Hk]].
    apply in_seq in Hk.
    exists (k * Z.to_nat (chunk_size - overlap))%nat. split; [nia|].
    rewrite split_join by apply window_words.
    unfold window. apply take_ge. rewrite length_drop. lia.
  - intros Hone. destruct count' as [|count'']; [reflexivity|].
    exfalso.
    assert (Hlt : 1 < Py.range_length 0
                        (Z.of_nat (length (Py.split text)))
                        (chunk_size - overlap)) by (fold count in Ecount; lia).
    apply range_length_spec in Hlt; lia.
Qed.

(** A witness of [short_text_first_chunk]: three words, chunks of five
    words that overlap by three. *)
Lemma short_text_first_chunk_witness :
  ∃ rest,
    chunk_text (lit " a  b c ") 5 3
    = inr (Py.join (lit " ") (Py.split (lit " a  b c ")) :: rest)
    ∧ Forall (fun c => ∃ k, (0 < k)%nat
                            ∧ Py.split c = drop k (Py.split (lit " a  b c ")))
             rest
    ∧ (Z.of_nat (length (Py.split (lit " a  b c "))) ≤ 5 - 3 → rest = []).
Proof.
  apply (short_text_first_chunk (lit " a  b c ") 5 3);
    [lia|lia|vm_compute; lia|vm_compute; discriminate].
Defined.

(** ** The text of the pages *)

Lemma split_from_app_space a : ∀ cur c b,
  Py.isspace c = true →
  Py.split_from cur (a ++ c :: b)
  = Py.split_from cur a ++ Py.split_from [] b.
Proof.
  induction a as [|x a IH]; intros cur c b Hc; simpl.
  - rewrite Hc. destruct cur; reflexivity.
  - destruct (Py.isspace x).
    + destruct cur; rewrite IH by exact Hc; reflexivity.
    + apply IH. exact Hc.
Qed.

Lemma split_app_space a c b :
  Py.isspace c = true → Py.split (a ++ c :: b) = Py.split a ++ Py.split b.
Proof. apply split_from_app_space. Qed.

Lemma digits_not_space u :
  Forall (fun c => Py.isspace c = false) (lit (NilEmpty.string_of_uint u)).
Proof.
  induction u; simpl; constructor; try reflexivity; assumption.
Qed.

Lemma str_of_nat_word n : is_word (str_of_nat n).
Proof.
  unfold str_of_nat, NilZero.string_of_uint.
  destruct (Nat.to_uint n) as [|u|u|u|u|u|u|u|u|u|u].
  - split; [discriminate|]. repeat constructor.
  - split; [discriminate|apply (digits_not_space (Decimal.D0 u))].
  - split; [discriminate|apply (digits_not_space (Decimal.D1 u))].
  - split; [discriminate|apply (digits_not_space (Decimal.D2 u))].
  - split; [discriminate|apply (digits_not_space (Decimal.D3 u))].
  - split; [discriminate|apply (digits_not_space (Decimal.D4 u))].
  - split; [discriminate|apply (digits_not_space (Decimal.D5 u))].
  - split; [discriminate|apply (digits_not_space (Decimal.D6 u))].
  - split; [discriminate|apply (digits_not_space (Decimal.D7 u))].
  - split; [discriminate|apply (digits_not_space (Decimal.D8 u))].
  - split; [discriminate|apply (digits_not_space (Decimal.D9 u))].
Qed.

Lemma marker_words_are_words i : Forall is_word (marker_words i).
Proof.
  unfold marker_words. repeat constructor; try discriminate.
  - apply str_of_nat_word.
  - apply str_of_nat_word.
Qed.

Lemma split_add_page text i page :
  Py.split (add_page text (i, page))
  = Py.split text ++ marker_words i ++ Py.split page.
Proof.
  unfold add_page, page_marker, nl. simpl fst. simpl snd.
  rewrite <- !app_assoc.
  change ([10%N] ++ ?x) with (10%N :: x).
  rewrite split_app_space by reflexivity. f_equal.
  replace (lit "--- Page " ++ str_of_nat (i + 1) ++ lit " ---" ++ [10%N] ++ page)
    with (Py.join (lit " ") (marker_words i) ++ 10%N :: page).
  - rewrite split_app_space by reflexivity.
    rewrite split_join by apply marker_words_are_words. reflexivity.
  - unfold marker_words. cbn [Py.join]. rewrite <- ?app_assoc. reflexivity.
Qed.

Lemma split_fold_add_page numbered : ∀ text,
  Py.split (fold_left add_page numbered text)
  = Py.split text
    ++ concat (map (fun ip => marker_words ip.1 ++ Py.split ip.2) numbered).
Proof.
  induction numbered as [|[i page] numbered IH]; intros text; simpl.
  - rewrite app_nil_r. reflexivity.
  - rewrite IH, split_add_page. rewrite <- !app_assoc. reflexivity.
Qed.

Lemma words_of_pages_aux page pages :
  ∃ tail,
    Py.split (text_of_pages (page :: pages))
    = lit "---" :: lit "Page" :: lit "1" :: lit "---" :: tail.
Proof.
  unfold text_of_pages. rewrite split_fold_add_page. simpl.
  eexists. reflexivity.
Qed.

(** X5. The words of the text built from the pages are, page after page, the
    four words of the separator, [---], [Page], the number of the page
    counted from one and [---], followed by the words of the page; the
    order of the pages and of the words within them is kept. *)
Theorem words_of_pages pages :
  Py.split (text_of_pages pages)
  = concat (map (fun ip => marker_words ip.1 ++ Py.split ip.2)
                (zip (seq 0 (length pages)) pages)).
Proof. unfold text_of_pages. apply split_fold_add_page. Qed.

(** X6. A PDF with at least one page always gives at least one chunk, even when
    no text could be read from any page: the first chunk begins with the
    separator of the first page.  A PDF without pages gives no chunk. *)
Theorem pages_give_chunks :
  (∀ pages,
     pages ≠ [] →
     ∃ c rest,
       chunk_text (text_of_pages pages) default_chunk_size default_overlap
       = inr (c :: rest)
       ∧ take 4 (Py.split c) = [lit "---"; lit "Page"; lit "1"; lit "---"])
  ∧ chunk_text (text_of_pages []) default_chunk_size default_overlap
    = inr [].
Proof.
  split; [|vm_compute; reflexivity].
  intros pages Hne. destruct pages as [|page pages]; [contradiction|].
  pose proof (words_of_pages_aux page pages) as (tail & Hwords).
  pose proof (chunk_text_windows (text_of_pages (page :: pages))
                default_chunk_size default_overlap
                ltac:(unfold default_chunk_size; lia)
                ltac:(unfold default_chunk_size, default_overlap; lia))
    as Hrun.
  set (count := Z.to_nat (Py.range_length _ _ _)) in Hrun.
  assert (Hcount : (0 < count)%nat).
  { apply Nat2Z.inj_lt. unfold count.
    rewrite Z2Nat.id
      by (apply range_length_nonneg;
          unfold default_chunk_size, default_overlap; lia).
    apply range_length_spec;
      [unfold default_chunk_size, default_overlap; lia|lia|lia|].
    rewrite Hwords. simpl length. lia. }
  destruct count as [|count']; [lia|].
  change (seq 0 (S count')) with (0%nat :: seq 1 count') in Hrun.
  simpl map in Hrun.
  eexists _, _. split; [exact Hrun|].
  rewrite split_join by apply window_words.
  unfold window. simpl drop. rewrite take_take, Hwords. reflexivity.
Qed.

(** A witness of [pages_give_chunks]: two pages, the first without text. *)
Lemma pages_give_chunks_witness :
  ∃ c rest,
    chunk_text (text_of_pages [[]; lit "some text"])
      default_chunk_size default_overlap
    = inr (c :: rest)
    ∧ take 4 (Py.split c) = [lit "---"; lit "Page"; lit "1"; lit "---"].
Proof.
  apply (proj1 pages_give_chunks [[]; lit "some text"]). discriminate.
Defined.

(** ** Indexing a PDF *)

Lemma lower_is_y answer :
  lower answer = lit "y" ↔ answer = lit "y" ∨ answer = lit "Y".
Proof.
  split.
  - destruct answer as [|c [|c' answer]]; try discriminate.
    unfold lower, lower_char. simpl. intros H. injection H as H.
    destruct ((65 <=? c) && (c <=? 90))%N eqn:E.
    + right. assert (c = 89%N) as -> by lia. reflexivity.
    + left. subst c. reflexivity.
  - intros [-> | ->]; reflexivity.
Qed.

Lemma reindex_test answer :
  negb (str_eqb (lower answer) (lit "y")) = false
  ↔ answer = lit "y" ∨ answer = lit "Y".
Proof.
  rewrite <- lower_is_y. unfold str_eqb.
  destruct (bool_decide_reflect (lower answer = lit "y")); simpl;
    split; intros; congruence.
Qed.




Ltac run_index :=
  unfold index_pdf, extract_text_from_pdf, get_collection, set_collection,
    tick, lift, mbind, M_bind, mret, M_ret;
  cbn -[chunk_text default_chunk_size default_overlap entries_of lower
        str_eqb lit collection_add].

Lemma index_pdf_declined self w s answer :
  coll s ≠ [] →
  input w (calls s) = inr answer →
  negb (str_eqb (lower answer) (lit "y")) = true →
  ∃ s', index_pdf self w s = (inr tt, s')
        ∧ coll s' = coll s ∧ calls s' = S (calls s)
        ∧ files s' = files s ∧ writes s' = writes s
        ∧ sent s' = sent s ∧ shown s' = shown s.
Proof.
  intros Hcoll Hin Hno. run_index.
  destruct (coll s) as [|e0 old] eqn:E; [contradiction|].
  cbn -[chunk_text default_chunk_size default_overlap entries_of lower
        str_eqb lit].
  rewrite Hin.
  cbn -[chunk_text default_chunk_size default_overlap entries_of lower
        str_eqb lit].
  rewrite Hno. eexists. repeat split; try reflexivity. simpl. exact E.
Qed.

Lemma collection_add_entries self chunks s :
  chunks ≠ [] →
  ∃ s', collection_add (entries_of self chunks) s = (inr tt, s')
        ∧ coll s' = coll s ++ entries_of self chunks
        ∧ files s' = files s ∧ writes s' = writes s
        ∧ sent s' = sent s ∧ shown s' = shown s.
Proof.
  intros Hne. destruct chunks as [|c chunks]; [contradiction|].
  unfold collection_add, set_collection. simpl.
  eexists. repeat split; reflexivity.
Qed.

Lemma collection_add_nothing self s :
  ∃ msg, collection_add (entries_of self []) s = (inl (Exception msg), s).
Proof. eexists. reflexivity. Qed.

Lemma index_pdf_accepted self w s answer :
  coll s ≠ [] →
  input w (calls s) = inr answer →
  negb (str_eqb (lower answer) (lit "y")) = false →
  (∀ text chunks,
     read_pdf w (S (calls s)) (pdf_path self) = inr text →
     chunk_text text default_chunk_size default_overlap = inr chunks →
     chunks ≠ [] →
     ∃ s', index_pdf self w s = (inr tt, s')
           ∧ coll s' = entries_of self chunks
           ∧ files s' = files s ∧ writes s' = writes s)
  ∧ (∀ e,
       read_pdf w (S (calls s)) (pdf_path self) = inl e →
       ∃ s', index_pdf self w s = (inl e, s') ∧ coll s' = [])
  ∧ (∀ text,
       read_pdf w (S (calls s)) (pdf_path self) = inr text →
       chunk_text text default_chunk_size default_overlap = inr [] →
       ∃ msg s', index_pdf self w s = (inl (Exception msg), s')
                 ∧ coll s' = []).
Proof.
  intros Hcoll Hin Hyes.
  split; [|split].
  - intros text chunks Hread Hchunks Hne. run_index.
    destruct (coll s) as [|e0 old] eqn:E; [contradiction|].
    cbn -[chunk_text default_chunk_size default_overlap entries_of lower
          str_eqb lit collection_add].
    rewrite Hin.
    cbn -[chunk_text default_chunk_size default_overlap entries_of lower
          str_eqb lit collection_add].
    rewrite Hyes.
    cbn -[chunk_text default_chunk_size default_overlap entries_of lower
          str_eqb lit collection_add].
    rewrite Hread.
    cbn -[chunk_text default_chunk_size default_overlap entries_of lower
          str_eqb lit collection_add].
    rewrite Hchunks.
    match goal with
    | |- context [collection_add _ ?st] =>
        destruct (collection_add_entries self chunks st Hne)
          as (s' & -> & Hc & Hf & Hw & _)
    end.
    exists s'. split; [reflexivity|]. simpl in Hc, Hf, Hw. auto.
  - intros e Hread. run_index.
    destruct (coll s) as [|e0 old] eqn:E; [contradiction|].
    cbn -[chunk_text default_chunk_size default_overlap entries_of lower
          str_eqb lit collection_add].
    rewrite Hin.
    cbn -[chunk_text default_chunk_size default_overlap entries_of lower
          str_eqb lit collection_add].
    rewrite Hyes.
    cbn -[chunk_text default_chunk_size default_overlap entries_of lower
          str_eqb lit collection_add].
    rewrite Hread. eexists. split; reflexivity.
  - intros text Hread Hchunks. run_index.
    destruct (coll s) as [|e0 old] eqn:E; [contradiction|].
    cbn -[chunk_text default_chunk_size default_overlap entries_of lower
          str_eqb lit collection_add].
    rewrite Hin.
    cbn -[chunk_text default_chunk_size default_overlap entries_of lower
          str_eqb lit collection_add].
    rewrite Hyes.
    cbn -[chunk_text default_chunk_size default_overlap entries_of lower
          str_eqb lit collection_add].
    rewrite Hread.
    cbn -[chunk_text default_chunk_size default_overlap entries_of lower
          str_eqb lit collection_add].
    rewrite Hchunks. eexists _, _. split; reflexivity.
Qed.


(** X7. When the collection already holds documents and the user answers the
    question [Re-index? (y/n)] with anything but [y] or [Y] (a blank before
    or after the letter counts as something else), [index_pdf] returns at
    once: the collection, the log files and everything else stay as they
    were, and the PDF is not read. *)
Theorem reindex_declined self w s answer :
  coll s ≠ [] →
  input w (calls s) = inr answer →
  answer ≠ lit "y" → answer ≠ lit "Y" →
  ∃ s', index_pdf self w s = (inr tt, s')
        ∧ coll s' = coll s ∧ calls s' = S (calls s)
        ∧ files s' = files s ∧ writes s' = writes s
        ∧ sent s' = sent s ∧ shown s' = shown s.
Proof.
  intros Hcoll Hin Hy HY.
  apply (index_pdf_declined self w s answer Hcoll Hin).
  destruct (negb (str_eqb (lower answer) (lit "y"))) eqn:E; [reflexivity|].
  apply reindex_test in E. destruct E; contradiction.
Qed.

(** A witness of [reindex_declined]: the user types [ y], with a blank. *)
Lemma reindex_declined_witness :
  ∃ s',
    index_pdf sample_app
      (scripted_world (fun _ => inr (lit " y")) (inr (lit "new text"))
         (inr []) (inr sample_response))
      indexed_state
    = (inr tt, s')
    ∧ coll s' = coll indexed_state ∧ calls s' = S (calls indexed_state)
    ∧ files s' = files indexed_state ∧ writes s' = writes indexed_state
    ∧ sent s' = sent indexed_state ∧ shown s' = shown indexed_state.
Proof.
  apply (reindex_declined sample_app
           (scripted_world (fun _ => inr (lit " y")) (inr (lit "new text"))
              (inr []) (inr sample_response))
           indexed_state (lit " y"));
    [discriminate|reflexivity|discriminate|discriminate].
Defined.





(** X9. Re-indexing empties the collection before the PDF is read: when the
    user has answered [y] or [Y] and reading the PDF then raises,
    [index_pdf] raises the same exception and the collection is left empty,
    the documents it held being lost. *)
Theorem failed_reindex_empties_collection self w s e :
  coll s ≠ [] →
  input w (calls s) = inr (lit "y") ∨ input w (calls s) = inr (lit "Y") →
  read_pdf w (S (calls s)) (pdf_path self) = inl e →
  ∃ s', index_pdf self w s = (inl e, s') ∧ coll s' = [].
Proof.
  intros Hcoll Hin Hread.
  assert (∃ answer, input w (calls s) = inr answer
                    ∧ negb (str_eqb (lower answer) (lit "y")) = false)
    as (answer & Hanswer & Hyes).
  { destruct Hin as [Hin | Hin]; eexists; (split; [exact Hin|]);
      reflexivity. }
  apply (proj1 (proj2 (index_pdf_accepted self w s answer Hcoll Hanswer
                         Hyes))).
  exact Hread.
Qed.

(** A witness of [failed_reindex_empties_collection]. *)
Lemma failed_reindex_empties_collection_witness :
  ∃ s',
    index_pdf sample_app
      (scripted_world (fun _ => inr (lit "y"))
         (inl (Exception (lit "file not found")))
         (inr []) (inr sample_response))
      indexed_state
    = (inl (Exception (lit "file not found")), s')
    ∧ coll s' = [].
Proof.
  apply (failed_reindex_empties_collection sample_app
           (scripted_world (fun _ => inr (lit "y"))
              (inl (Exception (lit "file not found")))
              (inr []) (inr sample_response))
           indexed_state (Exception (lit "file not found")));
    [discriminate|left; reflexivity|reflexivity].
Defined.

(** ** One pass of the interactive loop *)

Lemma loop_body_unfold self w s :
  loop_body self w s
  = match input w (calls s) with
    | inl KeyboardInterrupt => (inr Break, (show ShowGoodbye (tick s).2).2)
    | inl (Exception msg) => (inr Continue, (show (ShowError msg) (tick s).2).2)
    | inr line =>
        if negb (Py.truthy (strip line)) then (inr Continue, (tick s).2)
        else if existsb (str_eqb (lower (strip line)))
                  [lit "quit"; lit "exit"; lit "q"]
        then (inr Break, (show ShowGoodbye (tick s).2).2)
        else if str_eqb (lower (strip line)) (lit "stats")
        then (inr Continue,
              (show (ShowStats (length (coll s)) (collection_name self))
                 (tick s).2).2)
        else match query self w (strip line) default_n_results (tick s).2 with
             | (inl KeyboardInterrupt, s1) =>
                 (inr Break, (show ShowGoodbye s1).2)
             | (inl (Exception msg), s1) =>
                 (inr Continue, (show (ShowError msg) s1).2)
             | (inr answer, s1) =>
                 (inr Continue, (show (ShowAnswer answer) s1).2)
             end
    end.
Proof.
  unfold loop_body, try_except_interrupt.
  unfold mbind at 1. unfold M_bind at 1.
  unfold mbind at 1. unfold M_bind at 1.
  cbn [tick lift fst snd]. unfold lift.
  destruct (input w (calls s)) as [[msg|]|line]; [reflexivity|reflexivity|].
  cbv zeta.
  destruct (negb (Py.truthy (strip line))); [reflexivity|].
  destruct (existsb _ _); [reflexivity|].
  destruct (str_eqb _ _); [reflexivity|].
  unfold mbind at 1. unfold M_bind at 1.
  destruct (query self w (strip line) default_n_results _)
    as [[[msg|]|answer] s1]; reflexivity.
Qed.

(** What one call of [query] does to the state, whatever the world
    answers. *)
Lemma query_effects self w question n_results s :
  ∃ r s' ws ps,
    query self w question n_results s = (r, s')
    ∧ coll s' = coll s ∧ shown s' = shown s
    ∧ writes s' = writes s ++ ws ∧ sent s' = sent s ++ ps
    ∧ (length ws ≤ length ps ≤ 1)%nat
    ∧ (calls s < calls s')%nat
    ∧ match r with
      | inr answer =>
          ∃ name data, ws = [(name, data)]
                       ∧ log_question data = question
                       ∧ log_response data = answer
                       ∧ files s' !! name = Some data
      | inl _ => ws = []
      end.
Proof.
  destruct (collection_query w (calls s) (coll s) question n_results)
    as [e|docs] eqn:Hq.
  { exists (inl e), (tick s).2, [], []. run_query. rewrite Hq.
    rewrite !app_nil_r. repeat split; simpl; first [reflexivity | lia]. }
  destruct (ollama_chat w (S (calls s)) (model self)
              (build_prompt (Py.join (nl ++ nl) docs) question))
    as [[msg|]|r] eqn:Hc.
  - eexists (inr _), _, [_], [_]. run_query. rewrite Hq.
    cbn -[build_prompt Py.join lit log_file_name nl]. rewrite Hc.
    cbn -[build_prompt Py.join lit log_file_name nl].
    repeat split; try reflexivity; try (simpl; lia).
    eexists _, _. repeat split; try reflexivity. apply lookup_insert_eq.
  - eexists (inl KeyboardInterrupt), _, [], [_]. run_query. rewrite Hq.
    cbn -[build_prompt Py.join lit log_file_name nl]. rewrite Hc.
    cbn -[build_prompt Py.join lit log_file_name nl].
    rewrite app_nil_r. repeat split; try reflexivity; simpl; lia.
  - eexists (inr _), _, [_], [_]. run_query. rewrite Hq.
    cbn -[build_prompt Py.join lit log_file_name nl]. rewrite Hc.
    cbn -[build_prompt Py.join lit log_file_name nl].
    repeat split; try reflexivity; try (simpl; lia).
    eexists _, _. repeat split; try reflexivity. apply lookup_insert_eq.
Qed.

(** What one pass of the loop does to the state, whatever the world
    answers. *)
Lemma loop_body_effects self w s :
  ∃ ctl s' ws ps os,
    loop_body self w s = (inr ctl, s')
    ∧ coll s' = coll s
    ∧ writes s' = writes s ++ ws ∧ sent s' = sent s ++ ps
    ∧ shown s' = shown s ++ os
    ∧ (length ws ≤ length ps ≤ 1)%nat ∧ (length os ≤ 1)%nat
    ∧ (calls s < calls s')%nat.
Proof.
  rewrite loop_body_unfold.
  destruct (input w (calls s)) as [[msg|]|line].
  - exists Continue, (show (ShowError msg) (tick s).2).2, [], [],
      [ShowError msg].
    simpl. rewrite !app_nil_r. repeat split; simpl; first [reflexivity | lia].
  - exists Break, (show ShowGoodbye (tick s).2).2, [], [], [ShowGoodbye].
    simpl. rewrite !app_nil_r. repeat split; simpl; first [reflexivity | lia].
  - destruct (negb (Py.truthy (strip line))).
    { exists Continue, (tick s).2, [], [], []. simpl. rewrite !app_nil_r.
      repeat split; simpl; first [reflexivity | lia]. }
    destruct (existsb _ _).
    { exists Break, (show ShowGoodbye (tick s).2).2, [], [], [ShowGoodbye].
      simpl. rewrite !app_nil_r. repeat split; simpl; first [reflexivity | lia]. }
    destruct (str_eqb _ _).
    { eexists Continue, _, [], [], [_].
      simpl. rewrite !app_nil_r. repeat split; simpl; first [reflexivity | lia]. }
    destruct (query_effects self w (strip line) default_n_results (tick s).2)
      as (r & s1 & ws & ps & -> & Hc & Hsh & Hw & Hs & Hlen & Hcl & _).
    simpl in Hc, Hsh, Hw, Hs, Hcl.
    destruct r as [[msg|]|answer].
    + exists Continue, (show (ShowError msg) s1).2, ws, ps, [ShowError msg].
      simpl. rewrite Hsh. repeat split; auto; lia.
    + exists Break, (show ShowGoodbye s1).2, ws, ps, [ShowGoodbye].
      simpl. rewrite Hsh. repeat split; auto; lia.
    + exists Continue, (show (ShowAnswer answer) s1).2, ws, ps,
        [ShowAnswer answer].
      simpl. rewrite Hsh. repeat split; auto; lia.
Qed.

Lemma run_interactive_effects self w : ∀ fuel s,
  ∃ ctl s' ws ps os,
    run_interactive self w fuel s = (inr ctl, s')
    ∧ coll s' = coll s
    ∧ writes s' = writes s ++ ws ∧ sent s' = sent s ++ ps
    ∧ shown s' = shown s ++ os
    ∧ (length ws ≤ length ps ≤ fuel)%nat ∧ (length os ≤ fuel)%nat.
Proof.
  induction fuel as [|fuel IH]; intros s.
  - exists Continue, s, [], [], []. simpl. rewrite !app_nil_r.
    repeat split; simpl; first [reflexivity | lia].
  - destruct (loop_body_effects self w s)
      as (ctl & s1 & ws1 & ps1 & os1 & Hrun & Hc & Hw & Hs & Hsh & Hl & Ho & _).
    simpl run_interactive. unfold mbind at 1. unfold M_bind at 1.
    rewrite Hrun. destruct ctl.
    + destruct (IH s1)
        as (ctl2 & s2 & ws2 & ps2 & os2 & Hrun2 & Hc2 & Hw2 & Hs2 & Hsh2
            & Hl2 & Ho2).
      exists ctl2, s2, (ws1 ++ ws2), (ps1 ++ ps2), (os1 ++ os2).
      rewrite !length_app, !app_assoc, <- Hw, <- Hs, <- Hsh.
      repeat split; try assumption; try congruence; lia.
    + exists Break, s1, ws1, ps1, os1.
      repeat split; try assumption; lia.
Qed.

(** ** The session as a whole *)

(** X11. The session never changes the collection: after any number of passes
    it holds the documents it held when the session began. *)
Theorem session_keeps_collection self w fuel s :
  coll (run_interactive self w fuel s).2 = coll s.
Proof.
  destruct (run_interactive_effects self w fuel s)
    as (ctl & s' & ws & ps & os & -> & Hc & _).
  exact Hc.
Qed.

Lemma run_interactive_step self w fuel s ctl s' :
  loop_body self w s = (inr ctl, s') →
  run_interactive self w (S fuel) s
  = match ctl with
    | Break => (inr Break, s')
    | Continue => run_interactive self w fuel s'
    end.
Proof.
  intros Hbody. simpl run_interactive.
  unfold mbind at 1. unfold M_bind at 1. rewrite Hbody.
  destruct ctl; reflexivity.
Qed.

(** X13. When reading a line keeps raising an exception other than an interrupt,
    as [input] does at the end of its input, the loop never stops: every
    pass shows the message of the exception and goes on, and nothing is
    sent or logged. *)
Theorem end_of_input_never_stops self w msg :
  (∀ n, input w n = inl (Exception msg)) →
  ∀ fuel s,
    ∃ s', run_interactive self w fuel s = (inr Continue, s')
          ∧ shown s' = shown s ++ replicate fuel (ShowError msg)
          ∧ writes s' = writes s ∧ sent s' = sent s
          ∧ coll s' = coll s.
Proof.
  intros Hinput. induction fuel as [|fuel IH]; intros s.
  - exists s. simpl. rewrite app_nil_r. auto.
  - assert (Hbody : loop_body self w s
                    = (inr Continue, (show (ShowError msg) (tick s).2).2)).
    { rewrite loop_body_unfold, Hinput. reflexivity. }
    rewrite (run_interactive_step _ _ _ _ _ _ Hbody).
    destruct (IH (show (ShowError msg) (tick s).2).2)
      as (s' & Hrun & Hsh & Hw & Hs & Hc).
    exists s'. split; [exact Hrun|].
    simpl in Hsh, Hw, Hs, Hc. rewrite Hsh, <- app_assoc. auto.
Qed.

(** A witness of [end_of_input_never_stops]. *)
Lemma end_of_input_never_stops_witness :
  ∃ s',
    run_interactive sample_app
      (scripted_world (fun _ => inl (Exception (lit "EOF when reading a line")))
         (inr (lit "a b")) (inr []) (inr sample_response))
      3 initial_state
    = (inr Continue, s')
    ∧ shown s'
      = shown initial_state
        ++ replicate 3 (ShowError (lit "EOF when reading a line"))
    ∧ writes s' = writes initial_state ∧ sent s' = sent initial_state
    ∧ coll s' = coll initial_state.
Proof.
  apply (end_of_input_never_stops sample_app
           (scripted_world
              (fun _ => inl (Exception (lit "EOF when reading a line")))
              (inr (lit "a b")) (inr []) (inr sample_response))
           (lit "EOF when reading a line")).
  intros n. reflexivity.
Defined.

(** ** Interrupts *)

(** X14. An interrupt ends the session with the goodbye message, both while the
    loop waits for a line and while a question waits for the backend; in the
    second case the prompt has been sent, but no log is written for the
    question. *)
Theorem interrupt_ends_session self w s :
  (input w (calls s) = inl KeyboardInterrupt →
   ∃ s', loop_body self w s = (inr Break, s')
         ∧ shown s' = shown s ++ [ShowGoodbye]
         ∧ writes s' = writes s ∧ sent s' = sent s
         ∧ ∀ fuel, run_interactive self w (S fuel) s = (inr Break, s'))
  ∧ (∀ line docs,
       input w (calls s) = inr line →
       is_question line →
       collection_query w (S (calls s)) (coll s) (strip line)
         default_n_results = inr docs →
       ollama_chat w (S (S (calls s))) (model self)
         (build_prompt (Py.join (nl ++ nl) docs) (strip line))
       = inl KeyboardInterrupt →
       ∃ s', loop_body self w s = (inr Break, s')
             ∧ shown s' = shown s ++ [ShowGoodbye]
             ∧ writes s' = writes s
             ∧ sent s'
               = sent s ++ [(model self,
                             build_prompt (Py.join (nl ++ nl) docs)
                               (strip line))]
             ∧ ∀ fuel, run_interactive self w (S fuel) s = (inr Break, s')).
Proof.
  split.
  - intros Hin.
    assert (Hbody : loop_body self w s
                    = (inr Break, (show ShowGoodbye (tick s).2).2)).
    { rewrite loop_body_unfold, Hin. reflexivity. }
    eexists. split; [exact Hbody|]. repeat split.
    intros fuel. apply (run_interactive_step _ _ _ _ _ _ Hbody).
  - intros line docs Hin (Hne & Hcmd & Hstats) Hq Hc.
    destruct (query_backend_interrupted self w (strip line)
                default_n_results (tick s).2 docs Hq Hc)
      as (s1 & Hrun & Hw & Hs).
    destruct (query_effects self w (strip line) default_n_results (tick s).2)
      as (r & s1' & _ & _ & Hrun' & _ & Hsh & _).
    rewrite Hrun in Hrun'. injection Hrun' as <- <-.
    assert (Hbody : loop_body self w s = (inr Break, (show ShowGoodbye s1).2)).
    { rewrite loop_body_unfold, Hin, Hne, Hcmd, Hstats. simpl negb. cbv iota.
      rewrite Hrun. reflexivity. }
    eexists. split; [exact Hbody|].
    split; [simpl; rewrite Hsh; reflexivity|].
    split; [exact Hw|]. split; [exact Hs|].
    intros fuel. apply (run_interactive_step _ _ _ _ _ _ Hbody).
Qed.

(** A witness of [interrupt_ends_session]: an interrupt at the prompt, and
    one during the call of the backend. *)
Lemma interrupt_ends_session_witness :
  (∃ s',
     loop_body sample_app
       (scripted_world (fun _ => inl KeyboardInterrupt) (inr (lit "a b"))
          (inr []) (inr sample_response))
       initial_state
     = (inr Break, s')
     ∧ shown s' = shown initial_state ++ [ShowGoodbye]
     ∧ writes s' = writes initial_state ∧ sent s' = sent initial_state
     ∧ ∀ fuel,
         run_interactive sample_app
           (scripted_world (fun _ => inl KeyboardInterrupt) (inr (lit "a b"))
              (inr []) (inr sample_response))
           (S fuel) initial_state
         = (inr Break, s'))
  ∧ (∃ s',
       loop_body sample_app
         (sample_world running_clock (inr [lit "a b"])
            (inl KeyboardInterrupt))
         initial_state
       = (inr Break, s')
       ∧ shown s' = shown initial_state ++ [ShowGoodbye]
       ∧ writes s' = writes initial_state
       ∧ sent s'
         = sent initial_state
           ++ [(model sample_app,
                build_prompt (Py.join (nl ++ nl) [lit "a b"])
                  (strip (lit " what is this? ")))]
       ∧ ∀ fuel,
           run_interactive sample_app
             (sample_world running_clock (inr [lit "a b"])
                (inl KeyboardInterrupt))
             (S fuel) initial_state
           = (inr Break, s')).
Proof.
  split.
  - apply (proj1 (interrupt_ends_session sample_app
                    (scripted_world (fun _ => inl KeyboardInterrupt)
                       (inr (lit "a b")) (inr []) (inr sample_response))
                    initial_state)).
    reflexivity.
  - apply (proj2 (interrupt_ends_session sample_app
                    (sample_world running_clock (inr [lit "a b"])
                       (inl KeyboardInterrupt))
                    initial_state)
             (lit " what is this? ") [lit "a b"]).
    + reflexivity.
    + repeat split; vm_compute; reflexivity.
    + reflexivity.
    + reflexivity.
Defined.

(** ** Commands *)

Lemma lstrip_whitespace line :
  Forall (fun c => Py.isspace c = true) line → lstrip line = [].
Proof.
  induction 1 as [|c line Hc _ IH]; simpl; [reflexivity|].
  rewrite Hc. exact IH.
Qed.

Lemma strip_whitespace line :
  Forall (fun c => Py.isspace c = true) line → strip line = [].
Proof.
  intros H. unfold strip. rewrite (lstrip_whitespace line H). reflexivity.
Qed.

Lemma lower_nonempty s : lower s ≠ [] → Py.truthy s = true.
Proof. destruct s; [contradiction|reflexivity]. Qed.

(** X15. The commands of the loop never reach the collection, the backend or the
    log.  A line of blanks (or an empty line) is skipped without a message;
    [quit], [exit] and [q], in any mix of upper and lower case and with
    blanks around them, end the session with the goodbye message; [stats]
    shows the number of documents in the collection and its name. *)
Theorem commands_do_not_query self w s line :
  input w (calls s) = inr line →
  (Forall (fun c => Py.isspace c = true) line →
   ∃ s', loop_body self w s = (inr Continue, s')
         ∧ shown s' = shown s ∧ writes s' = writes s ∧ sent s' = sent s
         ∧ calls s' = S (calls s))
  ∧ (lower (strip line) = lit "quit" ∨ lower (strip line) = lit "exit"
     ∨ lower (strip line) = lit "q" →
     ∃ s', loop_body self w s = (inr Break, s')
           ∧ shown s' = shown s ++ [ShowGoodbye]
           ∧ writes s' = writes s ∧ sent s' = sent s
           ∧ calls s' = S (calls s))
  ∧ (lower (strip line) = lit "stats" →
     ∃ s', loop_body self w s = (inr Continue, s')
           ∧ shown s'
             = shown s ++ [ShowStats (length (coll s)) (collection_name self)]
           ∧ writes s' = writes s ∧ sent s' = sent s
           ∧ calls s' = S (calls s)).
Proof.
  intros Hin. split; [|split].
  - intros Hblank. rewrite loop_body_unfold, Hin.
    rewrite (strip_whitespace line Hblank). simpl.
    eexists. repeat split; reflexivity.
  - intros Hcmd. rewrite loop_body_unfold, Hin.
    rewrite (lower_nonempty (strip line))
      by (destruct Hcmd as [H | [H | H]]; rewrite H; discriminate).
    replace (existsb (str_eqb (lower (strip line)))
               [lit "quit"; lit "exit"; lit "q"]) with true
      by (destruct Hcmd as [H | [H | H]]; rewrite H; reflexivity).
    simpl. eexists. repeat split; reflexivity.
  - intros Hcmd. rewrite loop_body_unfold, Hin.
    rewrite (lower_nonempty (strip line)) by (rewrite Hcmd; discriminate).
    rewrite Hcmd. simpl. eexists. repeat split; reflexivity.
Qed.

(** A witness of [commands_do_not_query]: a line of blanks, [ ExIt ] and
    [STATS]. *)
Lemma commands_do_not_query_witness :
  (∃ s',
     loop_body sample_app
       (scripted_world (fun _ => inr [32; 9; 32]%N) (inr (lit "a b"))
          (inr []) (inr sample_response))
       indexed_state
     = (inr Continue, s')
     ∧ shown s' = shown indexed_state ∧ writes s' = writes indexed_state
     ∧ sent s' = sent indexed_state ∧ calls s' = S (calls indexed_state))
  ∧ (∃ s',
       loop_body sample_app
         (scripted_world (fun _ => inr (lit " ExIt ")) (inr (lit "a b"))
            (inr []) (inr sample_response))
         indexed_state
       = (inr Break, s')
       ∧ shown s' = shown indexed_state ++ [ShowGoodbye]
       ∧ writes s' = writes indexed_state ∧ sent s' = sent indexed_state
       ∧ calls s' = S (calls indexed_state))
  ∧ (∃ s',
       loop_body sample_app
         (scripted_world (fun _ => inr (lit "STATS")) (inr (lit "a b"))
            (inr []) (inr sample_response))
         indexed_state
       = (inr Continue, s')
       ∧ shown s'
         = shown indexed_state
           ++ [ShowStats (length (coll indexed_state))
                 (collection_name sample_app)]
       ∧ writes s' = writes indexed_state ∧ sent s' = sent indexed_state
       ∧ calls s' = S (calls indexed_state)).
Proof.
  split; [|split].
  - apply (proj1 (commands_do_not_query sample_app
                    (scripted_world (fun _ => inr [32; 9; 32]%N)
                       (inr (lit "a b")) (inr []) (inr sample_response))
                    indexed_state [32; 9; 32]%N eq_refl)).
    repeat constructor.
  - apply (proj1 (proj2 (commands_do_not_query sample_app
                           (scripted_world (fun _ => inr (lit " ExIt "))
                              (inr (lit "a b")) (inr [])
                              (inr sample_response))
                           indexed_state (lit " ExIt ") eq_refl))).
    right. left. reflexivity.
  - apply (proj2 (proj2 (commands_do_not_query sample_app
                           (scripted_world (fun _ => inr (lit "STATS"))
                              (inr (lit "a b")) (inr [])
                              (inr sample_response))
                           indexed_state (lit "STATS") eq_refl))).
    reflexivity.
Defined.

(** ** The record of a query *)

Lemma query_record self w question n_results s docs outcome :
  collection_query w (calls s) (coll s) question n_results = inr docs →
  ollama_chat w (S (calls s)) (model self)
    (build_prompt (Py.join (nl ++ nl) docs) question) = outcome →
  outcome ≠ inl KeyboardInterrupt →
  ∃ s',
    query self w question n_results s = (inr (answer_of outcome), s')
    ∧ writes s'
      = writes s
        ++ [(log_file_name self (now w (S (S (calls s)))),
             {| log_timestamp := now w (S (S (S (calls s))));
                log_model := model self;
                log_question := question;
                log_response := answer_of outcome;
                context_length_chars := length (Py.join (nl ++ nl) docs);
                prompt_length_chars :=
                  length (build_prompt (Py.join (nl ++ nl) docs) question);
                pdf_source := pdf_path self;
                log_token_details :=
                  match outcome with
                  | inr r => Some (details_of (token_info_of r))
                  | inl _ => None
                  end |})]
    ∧ files s'
      = <[log_file_name self (now w (S (S (calls s)))) :=
            {| log_timestamp := now w (S (S (S (calls s))));
               log_model := model self;
               log_question := question;
               log_response := answer_of outcome;
               context_length_chars := length (Py.join (nl ++ nl) docs);
               prompt_length_chars :=
                 length (build_prompt (Py.join (nl ++ nl) docs) question);
               pdf_source := pdf_path self;
               log_token_details :=
                 match outcome with
                 | inr r => Some (details_of (token_info_of r))
                 | inl _ => None
                 end |}]> (files s)
    ∧ sent s'
      = sent s ++ [(model self,
                    build_prompt (Py.join (nl ++ nl) docs) question)]
    ∧ coll s' = coll s ∧ shown s' = shown s.
Proof.
  intros Hq Hc Hne. run_query. rewrite Hq.
  cbn -[build_prompt Py.join lit log_file_name nl]. rewrite Hc.
  destruct outcome as [[msg|]|r]; [|contradiction|];
    eexists; repeat split; reflexivity.
Qed.

Lemma length_build_prompt context question :
  length (build_prompt context question)
  = (length context + length question + 109)%nat.
Proof.
  unfold build_prompt. rewrite !length_app. simpl. lia.
Qed.

Lemma length_join sep docs :
  length (Py.join sep docs)
  = (list_sum (map length docs) + length sep * (length docs - 1))%nat.
Proof.
  induction docs as [|d docs IH]; [simpl; lia|].
  destruct docs as [|d' docs].
  - simpl. lia.
  - change (Py.join sep (d :: d' :: docs))
      with (d ++ sep ++ Py.join sep (d' :: docs)).
    rewrite !length_app, IH. simpl. lia.
Qed.

(** X17. The two lengths in a log record: [context_length_chars] is the number
    of characters of the retrieved documents joined by blank lines, and
    [prompt_length_chars] exceeds it by the length of the question and the
    109 characters of the fixed text of the prompt. *)
Theorem logged_lengths self w question n_results s docs outcome :
  collection_query w (calls s) (coll s) question n_results = inr docs →
  ollama_chat w (S (calls s)) (model self)
    (build_prompt (Py.join (nl ++ nl) docs) question) = outcome →
  outcome ≠ inl KeyboardInterrupt →
  ∃ name data,
    writes (query self w question n_results s).2
    = writes s ++ [(name, data)]
    ∧ context_length_chars data
      = (list_sum (map length docs) + 2 * (length docs - 1))%nat
    ∧ prompt_length_chars data
      = (context_length_chars data + length question + 109)%nat.
Proof.
  intros Hq Hc Hne.
  destruct (query_record self w question n_results s docs outcome Hq Hc Hne)
    as (s' & Hrun & Hw & _).
  rewrite Hrun. eexists _, _. split; [exact Hw|].
  cbn [context_length_chars prompt_length_chars]. split.
  - rewrite length_join. simpl. lia.
  - apply length_build_prompt.
Qed.

(** A witness of [logged_lengths]. *)
Lemma logged_lengths_witness :
  ∃ name data,
    writes (query sample_app
              (sample_world running_clock (inr [lit "a b"; lit "c"])
                 (inl (Exception (lit "connection refused"))))
              (lit "what?") 5 initial_state).2
    = writes initial_state ++ [(name, data)]
    ∧ context_length_chars data
      = (list_sum (map length [lit "a b"; lit "c"])
         + 2 * (length [lit "a b"; lit "c"] - 1))%nat
    ∧ prompt_length_chars data
      = (context_length_chars data + length (lit "what?") + 109)%nat.
Proof.
  apply (logged_lengths sample_app
           (sample_world running_clock (inr [lit "a b"; lit "c"])
              (inl (Exception (lit "connection refused"))))
           (lit "what?") 5 initial_state [lit "a b"; lit "c"]
           (inl (Exception (lit "connection refused"))));
    [reflexivity|reflexivity|discriminate].
Defined.

(** ** Starting the program *)




(** ** The order of the names of log files *)

Lemma str_compare_refl a : str_compare a a = Eq.
Proof.
  induction a as [|x a IH]; [reflexivity|]. simpl.
  rewrite N.compare_refl. exact IH.
Qed.

Lemma str_compare_prefix p a b :
  str_compare (p ++ a) (p ++ b) = str_compare a b.
Proof.
  induction p as [|x p IH]; [reflexivity|]. simpl.
  rewrite N.compare_refl. exact IH.
Qed.

Lemma str_compare_app a : ∀ b x y,
  length a = length b →
  str_compare (a ++ x) (b ++ y)
  = and_then (str_compare a b) (str_compare x y).
Proof.
  induction a as [|c a IH]; intros [|d b] x y Hlen; try discriminate.
  - reflexivity.
  - simpl. destruct (c ?= d)%N; try reflexivity.
    apply IH. simpl in Hlen. lia.
Qed.

Lemma compare_by_digits a b :
  and_then (a / 10 ?= b / 10)%N (a mod 10 ?= b mod 10)%N = (a ?= b)%N.
Proof.
  pose proof (N.div_mod' a 10) as Ha. pose proof (N.div_mod' b 10) as Hb.
  pose proof (N.mod_lt a 10 ltac:(discriminate)) as Hma.
  pose proof (N.mod_lt b 10 ltac:(discriminate)) as Hmb.
  set (qa := (a / 10)%N) in *. set (ra := (a mod 10)%N) in *.
  set (qb := (b / 10)%N) in *. set (rb := (b mod 10)%N) in *.
  clearbody qa ra qb rb.
  destruct (N.compare_spec qa qb) as [Hq|Hq|Hq]; unfold and_then.
  - destruct (N.compare_spec ra rb) as [Hr|Hr|Hr];
      symmetry; [apply N.compare_eq_iff|apply N.compare_lt_iff
                |apply N.compare_gt_iff]; lia.
  - symmetry. apply N.compare_lt_iff. lia.
  - symmetry. apply N.compare_gt_iff. lia.
Qed.

Lemma digit_compare x y : (digit x ?= digit y)%N = (x ?= y)%N.
Proof.
  unfold digit.
  destruct (N.compare_spec x y) as [H|H|H];
    [apply N.compare_eq_iff|apply N.compare_lt_iff|apply N.compare_gt_iff];
    lia.
Qed.

Lemma zero_padded_compare w : ∀ a b,
  (a < 10 ^ N.of_nat w)%N → (b < 10 ^ N.of_nat w)%N →
  str_compare (zero_padded w a) (zero_padded w b) = (a ?= b)%N.
Proof.
  induction w as [|w IH]; intros a b Ha Hb.
  - simpl in Ha, Hb. assert (a = b) as -> by lia.
    rewrite N.compare_refl. reflexivity.
  - rewrite Nat2N.inj_succ, N.pow_succ_r' in Ha, Hb.
    simpl zero_padded.
    rewrite str_compare_app by (rewrite !length_zero_padded; reflexivity).
    rewrite IH by (apply N.Div0.div_lt_upper_bound; lia).
    simpl str_compare. rewrite digit_compare.
    rewrite <- (compare_by_digits a b).
    destruct (a mod 10 ?= b mod 10)%N; reflexivity.
Qed.

Lemma str_compare_field w a b x y :
  (a < 10 ^ N.of_nat w)%N → (b < 10 ^ N.of_nat w)%N →
  str_compare (zero_padded w a ++ x) (zero_padded w b ++ y)
  = and_then (a ?= b)%N (str_compare x y).
Proof.
  intros Ha Hb.
  rewrite str_compare_app by (rewrite !length_zero_padded; reflexivity).
  rewrite zero_padded_compare by assumption. reflexivity.
Qed.

(** X22. For two valid clock readings in the years 1000 to 9999, where the
    year is printed with its four digits, the names of the two log files
    compare, as strings, the way the two readings compare field by field
    from the year down to the microsecond. *)
Theorem log_names_sort_by_time self d1 d2 :
  valid_datetime d1 → valid_datetime d2 →
  (1000 <= year d1)%N → (1000 <= year d2)%N →
  str_compare (log_file_name self d1) (log_file_name self d2)
  = datetime_compare d1 d2.
Proof.
  intros (Hy1 & Hm1 & Hd1 & Hh1 & Hmi1 & Hs1 & Hu1)
         (Hy2 & Hm2 & Hd2 & Hh2 & Hmi2 & Hs2 & Hu2) _ _.
  unfold log_file_name, strftime_stamp, datetime_compare.
  rewrite !str_compare_prefix.
  rewrite <- !app_assoc.
  rewrite !str_compare_field by (simpl; lia).
  rewrite str_compare_prefix.
  rewrite !str_compare_field by (simpl; lia).
  rewrite str_compare_prefix.
  rewrite str_compare_field by (simpl; lia).
  rewrite str_compare_refl.
  destruct (microsecond d1 ?= microsecond d2)%N; reflexivity.
Qed.

(** A witness of [log_names_sort_by_time]: two readings within one
    second. *)
Lemma log_names_sort_by_time_witness :
  str_compare (log_file_name sample_app (running_clock 7))
    (log_file_name sample_app (running_clock 12))
  = datetime_compare (running_clock 7) (running_clock 12).
Proof.
  apply (log_names_sort_by_time sample_app (running_clock 7)
           (running_clock 12));
    vm_compute; intuition discriminate.
Defined.

(** * The query when saving the log can fail *)

Ltac run_fallible :=
  unfold Fallible.query, Fallible.save_query_log, Fallible.try_except,
    Fallible.note_save, Fallible.record_request, Fallible.get_collection,
    Fallible.tick, Fallible.lift, Fallible.raise, mbind, Fallible.M_bind,
    mret, Fallible.M_ret;
  cbn -[build_prompt Py.join lit log_file_name nl Fallible.details_of
        Fallible.token_info_of Fallible.write_file].

Ltac step_fallible :=
  cbn -[build_prompt Py.join lit log_file_name nl Fallible.details_of
        Fallible.token_info_of Fallible.write_file].

Ltac write_fallible :=
  cbn -[build_prompt Py.join lit log_file_name nl Fallible.details_of
        Fallible.token_info_of Fallible.write].

Lemma fallible_query_saved self w question n_results s docs outcome :
  Fallible.collection_query w (Fallible.calls s) (Fallible.coll s) question
    n_results = inr docs →
  Fallible.ollama_chat w (S (Fallible.calls s)) (model self)
    (build_prompt (Py.join (nl ++ nl) docs) question) = outcome →
  outcome ≠ inl KeyboardInterrupt →
  ∀ details,
    match outcome with
    | inr r =>
        ∃ d, Fallible.details_of (Fallible.token_info_of r) = inr d
             ∧ details = Some d
    | inl _ => details = None
    end →
    Fallible.write w (4 + Fallible.calls s) = Fallible.Written →
    ∃ s',
      Fallible.query self w question n_results s
      = (inr (reported outcome), s')
      ∧ Fallible.saves s'
        = Fallible.saves s ++ [(question, reported outcome)]
      ∧ Fallible.opened s'
        = Fallible.opened s
          ++ [log_file_name self (Fallible.now w (2 + Fallible.calls s))]
      ∧ Fallible.files s'
        = <[log_file_name self (Fallible.now w (2 + Fallible.calls s)) :=
              Some (record_of self w (3 + Fallible.calls s) question
                      (reported outcome) docs details)]>
            (Fallible.files s)
      ∧ Fallible.sent s'
        = Fallible.sent s
          ++ [(model self, build_prompt (Py.join (nl ++ nl) docs) question)]
      ∧ Fallible.coll s' = Fallible.coll s
      ∧ Fallible.shown s' = Fallible.shown s
      ∧ Fallible.calls s' = (5 + Fallible.calls s)%nat.
Proof.
  intros Hq Hc Hne details Hdetails Hwrite. run_fallible. rewrite Hq.
  step_fallible. rewrite Hc.
  destruct outcome as [[msg|]|r]; [|contradiction|].
  - subst details. step_fallible. simpl in Hwrite. rewrite Hwrite.
    eexists. repeat split; reflexivity.
  - destruct Hdetails as (d & Hd & ->). step_fallible. rewrite Hd.
    step_fallible. simpl in Hwrite. rewrite Hwrite.
    eexists. repeat split; reflexivity.
Qed.

Lemma fallible_query_retrieval_raises self w question n_results s e :
  Fallible.collection_query w (Fallible.calls s) (Fallible.coll s) question
    n_results = inl e →
  ∃ s',
    Fallible.query self w question n_results s = (inl e, s')
    ∧ Fallible.saves s' = Fallible.saves s
    ∧ Fallible.opened s' = Fallible.opened s
    ∧ Fallible.files s' = Fallible.files s
    ∧ Fallible.sent s' = Fallible.sent s.
Proof.
  intros Hq. run_fallible. rewrite Hq. eexists. repeat split; reflexivity.
Qed.

(** The backend answers, but the token details cannot be computed. *)
Lemma fallible_query_details_fail self w question n_results s docs r msg :
  Fallible.collection_query w (Fallible.calls s) (Fallible.coll s) question
    n_results = inr docs →
  Fallible.ollama_chat w (S (Fallible.calls s)) (model self)
    (build_prompt (Py.join (nl ++ nl) docs) question) = inr r →
  Fallible.details_of (Fallible.token_info_of r) = inl msg →
  Fallible.write w (6 + Fallible.calls s) = Fallible.Written →
  ∃ s',
    Fallible.query self w question n_results s
    = (inr (lit "Error querying model: " ++ msg), s')
    ∧ Fallible.saves s'
      = Fallible.saves s
        ++ [(question, Fallible.content r);
            (question, lit "Error querying model: " ++ msg)]
    ∧ Fallible.opened s'
      = Fallible.opened s
        ++ [log_file_name self (Fallible.now w (4 + Fallible.calls s))]
    ∧ Fallible.files s'
      = <[log_file_name self (Fallible.now w (4 + Fallible.calls s)) :=
            Some (record_of self w (5 + Fallible.calls s) question
                    (lit "Error querying model: " ++ msg) docs None)]>
          (Fallible.files s).
Proof.
  intros Hq Hc Hd Hwrite. run_fallible. rewrite Hq.
  step_fallible. rewrite Hc. step_fallible. rewrite Hd.
  step_fallible. simpl in Hwrite. rewrite Hwrite.
  eexists. split; [reflexivity|]. simpl. rewrite <- !app_assoc.
  repeat split; reflexivity.
Qed.

(** The backend answers and the token details are computed, but the first
    write fails after the file was opened; the second write succeeds. *)
Lemma fallible_query_write_retried self w question n_results s docs r d msg :
  Fallible.collection_query w (Fallible.calls s) (Fallible.coll s) question
    n_results = inr docs →
  Fallible.ollama_chat w (S (Fallible.calls s)) (model self)
    (build_prompt (Py.join (nl ++ nl) docs) question) = inr r →
  Fallible.details_of (Fallible.token_info_of r) = inr d →
  Fallible.write w (4 + Fallible.calls s) = Fallible.DumpFails msg →
  Fallible.write w (7 + Fallible.calls s) = Fallible.Written →
  ∃ s',
    Fallible.query self w question n_results s
    = (inr (lit "Error querying model: " ++ msg), s')
    ∧ Fallible.saves s'
      = Fallible.saves s
        ++ [(question, Fallible.content r);
            (question, lit "Error querying model: " ++ msg)]
    ∧ Fallible.opened s'
      = Fallible.opened s
        ++ [log_file_name self (Fallible.now w (2 + Fallible.calls s));
            log_file_name self (Fallible.now w (5 + Fallible.calls s))]
    ∧ Fallible.files s'
      = <[log_file_name self (Fallible.now w (5 + Fallible.calls s)) :=
            Some (record_of self w (6 + Fallible.calls s) question
                    (lit "Error querying model: " ++ msg) docs None)]>
          (<[log_file_name self (Fallible.now w (2 + Fallible.calls s)) :=
               None]> (Fallible.files s)).
Proof.
  intros Hq Hc Hd Hw1 Hw2. run_fallible. rewrite Hq.
  step_fallible. rewrite Hc. step_fallible. rewrite Hd.
  step_fallible. simpl in Hw1. rewrite Hw1.
  write_fallible. simpl in Hw2. rewrite Hw2.
  eexists. split; [reflexivity|]. simpl. rewrite <- !app_assoc.
  repeat split; reflexivity.
Qed.

(** The backend raises, and the write of the handler fails as well. *)
Lemma fallible_query_handler_write_fails self w question n_results s docs
    msg :
  Fallible.collection_query w (Fallible.calls s) (Fallible.coll s) question
    n_results = inr docs →
  Fallible.ollama_chat w (S (Fallible.calls s)) (model self)
    (build_prompt (Py.join (nl ++ nl) docs) question)
  = inl (Exception msg) →
  ∀ failure,
    Fallible.write w (4 + Fallible.calls s) = Fallible.OpenFails failure
    ∨ Fallible.write w (4 + Fallible.calls s) = Fallible.DumpFails failure →
    ∃ s',
      Fallible.query self w question n_results s
      = (inl (Exception failure), s')
      ∧ Fallible.saves s'
        = Fallible.saves s
          ++ [(question, lit "Error querying model: " ++ msg)]
      ∧ ∀ name data,
          Fallible.files s' !! name = Some (Some data) →
          Fallible.files s !! name = Some (Some data).
Proof.
  intros Hq Hc failure Hwrite. run_fallible. rewrite Hq.
  step_fallible. rewrite Hc. step_fallible. simpl in Hwrite.
  destruct Hwrite as [-> | ->]; eexists; (split; [reflexivity|]);
    (split; [reflexivity|]); simpl; intros name data Hfile.
  - exact Hfile.
  - destruct (decide (log_file_name self
                        (Fallible.now w (S (S (Fallible.calls s)))) = name))
      as [<-|Hne].
    + rewrite lookup_insert_eq in Hfile. discriminate.
    + rewrite lookup_insert_ne in Hfile by exact Hne. exact Hfile.
Qed.

(** ** One record per query *)

(** C1 as stated fails.  When the first write of the log fails after the
    file was opened, the call saves a second time: [save_query_log] is
    called twice, two files are opened, the first is left incomplete, and
    the call returns the error text although the backend answered.  When
    the query of the collection raises, the call ends with that exception
    and [save_query_log] is not called at all. *)
Lemma one_log_per_query_counterexample :
  ¬ (∀ w,
       length (Fallible.saves
                 (Fallible.query sample_app w (lit "what?") 5
                    fallible_initial).2) = 1%nat)
  ∧ (∃ s' first second data,
       Fallible.query sample_app
         (fallible_world (inr [lit "a b"]) (inr full_response)
            (failing_at 4))
         (lit "what?") 5 fallible_initial
       = (inr (lit "Error querying model: No space left on device"), s')
       ∧ Fallible.saves s'
         = [(lit "what?", lit "It is a test.");
            (lit "what?",
             lit "Error querying model: No space left on device")]
       ∧ Fallible.opened s' = [first; second]
       ∧ Fallible.files s' !! first = Some None
       ∧ Fallible.files s' !! second = Some (Some data))
  ∧ (∃ s',
       Fallible.query sample_app
         (fallible_world (inl (Exception (lit "embedding failed")))
            (inr full_response) reliable)
         (lit "what?") 5 fallible_initial
       = (inl (Exception (lit "embedding failed")), s')
       ∧ Fallible.saves s' = [] ∧ Fallible.opened s' = []
       ∧ Fallible.files s' = ∅).
Proof.
  split; [|split].
  - intros Hclaim.
    specialize (Hclaim (fallible_world (inl (Exception (lit "embedding failed")))
                          (inr full_response) reliable)).
    vm_compute in Hclaim. discriminate Hclaim.
  - destruct (fallible_query_write_retried sample_app
                (fallible_world (inr [lit "a b"]) (inr full_response)
                   (failing_at 4))
                (lit "what?") 5 fallible_initial [lit "a b"] full_response
                {| Fallible.prompt_tokens := 120;
                   Fallible.response_tokens := 5;
                   Fallible.total_tokens := 125;
                   Fallible.total_duration_ns := 900;
                   Fallible.load_duration_ns := Some 0;
                   Fallible.prompt_eval_duration_ns := None;
                   Fallible.eval_duration_ns := 300 |}
                (lit "No space left on device")
                eq_refl eq_refl eq_refl eq_refl eq_refl)
      as (s' & Hrun & Hsaves & Hopened & Hfiles).
    eexists s', _, _, _. split; [exact Hrun|].
    split; [exact Hsaves|]. split; [exact Hopened|]. rewrite Hfiles. split.
    + rewrite lookup_insert_ne by (vm_compute; discriminate).
      apply lookup_insert_eq.
    + apply lookup_insert_eq.
  - destruct (fallible_query_retrieval_raises sample_app
                (fallible_world (inl (Exception (lit "embedding failed")))
                   (inr full_response) reliable)
                (lit "what?") 5 fallible_initial
                (Exception (lit "embedding failed")) eq_refl)
      as (s' & Hrun & Hsaves & Hopened & Hfiles & _).
    exists s'. auto.
Qed.

(** C1 (as amended). For every call of [query] in which the collection
    returns documents, the backend answers or raises an [Exception], the
    token details of an answer can be computed and the file is written at
    the first attempt, [save_query_log] is called exactly once and exactly
    one log record is written before the call returns: one file is opened,
    and it holds the question and the text that the call returns. *)
Theorem query_saves_once self w question n_results s docs outcome :
  Fallible.collection_query w (Fallible.calls s) (Fallible.coll s) question
    n_results = inr docs →
  Fallible.ollama_chat w (S (Fallible.calls s)) (model self)
    (build_prompt (Py.join (nl ++ nl) docs) question) = outcome →
  outcome ≠ inl KeyboardInterrupt →
  (∀ r, outcome = inr r → usable_counters r) →
  Fallible.write w (4 + Fallible.calls s) = Fallible.Written →
  ∃ s' name data,
    Fallible.query self w question n_results s = (inr (reported outcome), s')
    ∧ Fallible.saves s' = Fallible.saves s ++ [(question, reported outcome)]
    ∧ Fallible.opened s' = Fallible.opened s ++ [name]
    ∧ Fallible.files s' = <[name := Some data]> (Fallible.files s)
    ∧ Fallible.log_question data = question
    ∧ Fallible.log_response data = reported outcome.
Proof.
  intros Hq Hc Hne Husable Hwrite.
  assert (Hdetails : ∃ details,
            match outcome with
            | inr r =>
                ∃ d, Fallible.details_of (Fallible.token_info_of r) = inr d
                     ∧ details = Some d
            | inl _ => details = None
            end).
  { destruct outcome as [e|r]; [exists None; reflexivity|].
    destruct (Husable r eq_refl) as [d Hd]. exists (Some d), d. auto. }
  destruct Hdetails as [details Hdetails].
  destruct (fallible_query_saved self w question n_results s docs outcome
              Hq Hc Hne details Hdetails Hwrite)
    as (s' & Hrun & Hsaves & Hopened & Hfiles & _).
  eexists s', _, _. split; [exact Hrun|]. split; [exact Hsaves|].
  split; [exact Hopened|]. split; [exact Hfiles|]. split; reflexivity.
Qed.

(** A witness of [query_saves_once]: the backend answers, and the backend
    raises. *)
Lemma query_saves_once_witness :
  (∃ s' name data,
     Fallible.query sample_app
       (fallible_world (inr [lit "a b"]) (inr full_response) reliable)
       (lit "what?") 5 fallible_initial
     = (inr (reported (inr full_response)), s')
     ∧ Fallible.saves s'
       = Fallible.saves fallible_initial
         ++ [(lit "what?", reported (inr full_response))]
     ∧ Fallible.opened s' = Fallible.opened fallible_initial ++ [name]
     ∧ Fallible.files s'
       = <[name := Some data]> (Fallible.files fallible_initial)
     ∧ Fallible.log_question data = lit "what?"
     ∧ Fallible.log_response data = reported (inr full_response))
  ∧ (∃ s' name data,
       Fallible.query sample_app
         (fallible_world (inr [lit "a b"])
            (inl (Exception (lit "connection refused"))) reliable)
         (lit "what?") 5 fallible_initial
       = (inr (reported (inl (Exception (lit "connection refused")))), s')
       ∧ Fallible.saves s'
         = Fallible.saves fallible_initial
           ++ [(lit "what?",
                reported (inl (Exception (lit "connection refused"))))]
       ∧ Fallible.opened s' = Fallible.opened fallible_initial ++ [name]
       ∧ Fallible.files s'
         = <[name := Some data]> (Fallible.files fallible_initial)
       ∧ Fallible.log_question data = lit "what?"
       ∧ Fallible.log_response data
         = reported (inl (Exception (lit "connection refused")))).
Proof.
  split.
  - refine (query_saves_once sample_app
              (fallible_world (inr [lit "a b"]) (inr full_response) reliable)
              (lit "what?") 5 fallible_initial [lit "a b"]
              (inr full_response) eq_refl eq_refl _ _ eq_refl).
    + discriminate.
    + intros r Hr. injection Hr as <-. eexists. vm_compute. reflexivity.
  - refine (query_saves_once sample_app
              (fallible_world (inr [lit "a b"])
                 (inl (Exception (lit "connection refused"))) reliable)
              (lit "what?") 5 fallible_initial [lit "a b"]
              (inl (Exception (lit "connection refused")))
              eq_refl eq_refl _ _ eq_refl).
    + discriminate.
    + intros r Hr. discriminate Hr.
Defined.

(** ** A failing backend *)

(** C5 as stated fails: when the backend call raises and the log file then
    cannot be opened, [query] does not return the error text; the exception
    of the failed write leaves the call. *)
Lemma backend_failure_counterexample :
  ¬ (∃ answer s',
       Fallible.query sample_app
         (fallible_world (inr [lit "a b"])
            (inl (Exception (lit "connection refused"))) never_opening)
         (lit "what?") 5 fallible_initial
       = (inr answer, s'))
  ∧ (Fallible.query sample_app
       (fallible_world (inr [lit "a b"])
          (inl (Exception (lit "connection refused"))) never_opening)
       (lit "what?") 5 fallible_initial).1
    = inl (Exception (lit "Permission denied")).
Proof.
  destruct (fallible_query_handler_write_fails sample_app
              (fallible_world (inr [lit "a b"])
                 (inl (Exception (lit "connection refused"))) never_opening)
              (lit "what?") 5 fallible_initial [lit "a b"]
              (lit "connection refused") eq_refl eq_refl
              (lit "Permission denied") (or_introl eq_refl))
    as (s' & Hrun & _).
  split.
  - intros (answer & s1 & Hanswer). rewrite Hrun in Hanswer.
    discriminate Hanswer.
  - rewrite Hrun. reflexivity.
Qed.

(** C5 (as amended). If the backend call raises an [Exception] and the log
    file is written, [query] returns the text ["Error querying model: "]
    followed by the message of the exception, which is not empty, instead
    of raising, and the log record written for the query holds that text
    and has no ["token_details"].  If the write of the log fails, the
    exception of the write leaves [query] instead, and no record is
    written. *)
Theorem backend_failure_is_reported self w question n_results s docs msg :
  Fallible.collection_query w (Fallible.calls s) (Fallible.coll s) question
    n_results = inr docs →
  Fallible.ollama_chat w (S (Fallible.calls s)) (model self)
    (build_prompt (Py.join (nl ++ nl) docs) question)
  = inl (Exception msg) →
  (Fallible.write w (4 + Fallible.calls s) = Fallible.Written →
   ∃ answer s' name data,
     Fallible.query self w question n_results s = (inr answer, s')
     ∧ answer = lit "Error querying model: " ++ msg
     ∧ answer ≠ []
     ∧ Fallible.saves s' = Fallible.saves s ++ [(question, answer)]
     ∧ Fallible.opened s' = Fallible.opened s ++ [name]
     ∧ Fallible.files s' !! name = Some (Some data)
     ∧ Fallible.log_question data = question
     ∧ Fallible.log_response data = answer
     ∧ Fallible.log_token_details data = None)
  ∧ (∀ failure,
       Fallible.write w (4 + Fallible.calls s) = Fallible.OpenFails failure
       ∨ Fallible.write w (4 + Fallible.calls s)
         = Fallible.DumpFails failure →
       ∃ s',
         Fallible.query self w question n_results s
         = (inl (Exception failure), s')
         ∧ ∀ name data,
             Fallible.files s' !! name = Some (Some data) →
             Fallible.files s !! name = Some (Some data)).
Proof.
  intros Hq Hc. split.
  - intros Hwrite.
    destruct (fallible_query_saved self w question n_results s docs
                (inl (Exception msg)) Hq Hc ltac:(discriminate) None
                eq_refl Hwrite)
      as (s' & Hrun & Hsaves & Hopened & Hfiles & _).
    eexists _, s', _, _. split; [exact Hrun|]. split; [reflexivity|].
    split; [discriminate|]. split; [exact Hsaves|]. split; [exact Hopened|].
    split; [rewrite Hfiles; apply lookup_insert_eq|]. repeat split.
  - intros failure Hwrite.
    destruct (fallible_query_handler_write_fails self w question n_results
                s docs msg Hq Hc failure Hwrite) as (s' & Hrun & _ & Hkeep).
    eauto.
Qed.

(** A witness of [backend_failure_is_reported]: the log is written, and the
    log cannot be opened. *)
Lemma backend_failure_is_reported_witness :
  (∃ answer s' name data,
     Fallible.query sample_app
       (fallible_world (inr [lit "a b"])
          (inl (Exception (lit "connection refused"))) reliable)
       (lit "what?") 5 fallible_initial
     = (inr answer, s')
     ∧ answer = lit "Error querying model: " ++ lit "connection refused"
     ∧ answer ≠ []
     ∧ Fallible.saves s'
       = Fallible.saves fallible_initial ++ [(lit "what?", answer)]
     ∧ Fallible.opened s' = Fallible.opened fallible_initial ++ [name]
     ∧ Fallible.files s' !! name = Some (Some data)
     ∧ Fallible.log_question data = lit "what?"
     ∧ Fallible.log_response data = answer
     ∧ Fallible.log_token_details data = None)
  ∧ (∃ s',
       Fallible.query sample_app
         (fallible_world (inr [lit "a b"])
            (inl (Exception (lit "connection refused"))) never_opening)
         (lit "what?") 5 fallible_initial
       = (inl (Exception (lit "Permission denied")), s')
       ∧ ∀ name data,
           Fallible.files s' !! name = Some (Some data) →
           Fallible.files fallible_initial !! name = Some (Some data)).
Proof.
  split.
  - apply (proj1 (backend_failure_is_reported sample_app
                    (fallible_world (inr [lit "a b"])
                       (inl (Exception (lit "connection refused")))
                       reliable)
                    (lit "what?") 5 fallible_initial [lit "a b"]
                    (lit "connection refused") eq_refl eq_refl)).
    reflexivity.
  - apply (proj2 (backend_failure_is_reported sample_app
                    (fallible_world (inr [lit "a b"])
                       (inl (Exception (lit "connection refused")))
                       never_opening)
                    (lit "what?") 5 fallible_initial [lit "a b"]
                    (lit "connection refused") eq_refl eq_refl)
             (lit "Permission denied")).
    left. reflexivity.
Defined.

(** ** The token details of a record *)

Lemma details_of_computed ti d :
  Fallible.details_of ti = inr d →
  ∃ p e,
    Fallible.prompt_eval_count ti = Some p
    ∧ Fallible.eval_count ti = Some e
    ∧ Fallible.prompt_tokens d = p
    ∧ Fallible.response_tokens d = e
    ∧ Fallible.total_tokens d = p + e.
Proof.
  unfold Fallible.details_of.
  destruct (Fallible.prompt_eval_count ti) as [p|],
    (Fallible.eval_count ti) as [e|]; try discriminate.
  destruct (Fallible.total_duration ti) as [t|]; [|discriminate].
  destruct (Fallible.fits_float t); [|discriminate].
  destruct (Fallible.eval_duration ti) as [u|]; [|discriminate].
  destruct (Fallible.fits_float u); [|discriminate].
  intros [= <-]. exists p, e. repeat split.
Qed.

Lemma details_of_unset r :
  Fallible.r_prompt_eval_count r = Fallible.Unset
  ∨ Fallible.r_eval_count r = Fallible.Unset
  ∨ Fallible.r_total_duration r = Fallible.Unset
  ∨ Fallible.r_eval_duration r = Fallible.Unset →
  ∃ msg, Fallible.details_of (Fallible.token_info_of r) = inl msg.
Proof.
  intros Hunset.
  destruct (Fallible.details_of (Fallible.token_info_of r)) as [msg|d] eqn:Hd;
    [eauto|].
  exfalso. revert Hd. unfold Fallible.details_of, Fallible.token_info_of.
  cbn. destruct Hunset as [-> | [-> | [-> | ->]]]; cbn.
  - destruct (Fallible.get_or 0 (Fallible.r_eval_count r)); discriminate.
  - destruct (Fallible.get_or 0 (Fallible.r_prompt_eval_count r));
      discriminate.
  - destruct (Fallible.get_or 0 (Fallible.r_prompt_eval_count r)),
      (Fallible.get_or 0 (Fallible.r_eval_count r)); discriminate.
  - destruct (Fallible.get_or 0 (Fallible.r_prompt_eval_count r)),
      (Fallible.get_or 0 (Fallible.r_eval_count r)); try discriminate.
    destruct (Fallible.get_or 0 (Fallible.r_total_duration r)) as [t|];
      [|discriminate].
    destruct (Fallible.fits_float t); discriminate.
Qed.

Lemma details_for (outcome : exception + Fallible.response) :
  (∀ r, outcome = inr r → usable_counters r) →
  ∃ details,
    match outcome with
    | inr r =>
        ∃ d, Fallible.details_of (Fallible.token_info_of r) = inr d
             ∧ details = Some d
    | inl _ => details = None
    end.
Proof.
  intros Husable. destruct outcome as [e|r]; [exists None; reflexivity|].
  destruct (Husable r eq_refl) as [d Hd]. exists (Some d), d. auto.
Qed.

(** X16. When the collection yields documents, the backend call is not
    interrupted, the token details of an answer can be computed and the log
    file is written at the first attempt, the file can be read back under
    its name and holds the question as asked, the very text that the call
    returns, the model, the path of the PDF and, exactly when the backend
    answered, the token details; every log file with another name is left
    as it was. *)
Theorem logged_answer_is_returned self w question n_results s docs outcome :
  Fallible.collection_query w (Fallible.calls s) (Fallible.coll s) question
    n_results = inr docs →
  Fallible.ollama_chat w (S (Fallible.calls s)) (model self)
    (build_prompt (Py.join (nl ++ nl) docs) question) = outcome →
  outcome ≠ inl KeyboardInterrupt →
  (∀ r, outcome = inr r → usable_counters r) →
  Fallible.write w (4 + Fallible.calls s) = Fallible.Written →
  ∃ answer s' name data,
    Fallible.query self w question n_results s = (inr answer, s')
    ∧ answer = reported outcome
    ∧ Fallible.files s' !! name = Some (Some data)
    ∧ Fallible.log_question data = question
    ∧ Fallible.log_response data = answer
    ∧ Fallible.log_model data = model self
    ∧ Fallible.pdf_source data = pdf_path self
    ∧ (is_Some (Fallible.log_token_details data) ↔ ∃ r, outcome = inr r)
    ∧ ∀ other, other ≠ name →
        Fallible.files s' !! other = Fallible.files s !! other.
Proof.
  intros Hq Hc Hne Husable Hwrite.
  destruct (details_for outcome Husable) as [details Hdetails].
  destruct (fallible_query_saved self w question n_results s docs outcome
              Hq Hc Hne details Hdetails Hwrite)
    as (s' & Hrun & _ & _ & Hfiles & _).
  eexists _, s', _, _. split; [exact Hrun|]. split; [reflexivity|].
  rewrite Hfiles. split; [apply lookup_insert_eq|].
  do 4 (split; [reflexivity|]). split.
  - simpl. destruct outcome as [e|r].
    + subst details.
      split; [intros [td Htd]; discriminate|intros [r Hr]; discriminate].
    + destruct Hdetails as (d & _ & ->). split; eauto.
  - intros other Hother. apply lookup_insert_ne. congruence.
Qed.

(** A witness of [logged_answer_is_returned]. *)
Lemma logged_answer_is_returned_witness :
  ∃ answer s' name data,
    Fallible.query sample_app
      (fallible_world (inr [lit "a b"; lit "c"]) (inr full_response) reliable)
      (lit "what?") 5 fallible_initial
    = (inr answer, s')
    ∧ answer = reported (inr full_response)
    ∧ Fallible.files s' !! name = Some (Some data)
    ∧ Fallible.log_question data = lit "what?"
    ∧ Fallible.log_response data = answer
    ∧ Fallible.log_model data = model sample_app
    ∧ Fallible.pdf_source data = pdf_path sample_app
    ∧ (is_Some (Fallible.log_token_details data)
       ↔ ∃ r, inr full_response = @inr exception Fallible.response r)
    ∧ ∀ other, other ≠ name →
        Fallible.files s' !! other = Fallible.files fallible_initial !! other.
Proof.
  refine (logged_answer_is_returned sample_app
            (fallible_world (inr [lit "a b"; lit "c"]) (inr full_response)
               reliable)
            (lit "what?") 5 fallible_initial [lit "a b"; lit "c"]
            (inr full_response) eq_refl eq_refl _ _ eq_refl).
  - discriminate.
  - intros r Hr. injection Hr as <-. eexists. vm_compute. reflexivity.
Defined.

(** X18. When the backend answers with counters from which the token details
    can be computed and the log file is written at the first attempt, the
    token details of the record give the two counters of the response, a
    counter whose key is missing counting as zero, and their sum as the
    total. *)
Theorem token_totals self w question n_results s docs r :
  Fallible.collection_query w (Fallible.calls s) (Fallible.coll s) question
    n_results = inr docs →
  Fallible.ollama_chat w (S (Fallible.calls s)) (model self)
    (build_prompt (Py.join (nl ++ nl) docs) question) = inr r →
  usable_counters r →
  Fallible.write w (4 + Fallible.calls s) = Fallible.Written →
  ∃ name data details p e,
    Fallible.opened (Fallible.query self w question n_results s).2
    = Fallible.opened s ++ [name]
    ∧ Fallible.files (Fallible.query self w question n_results s).2 !! name
      = Some (Some data)
    ∧ Fallible.log_token_details data = Some details
    ∧ Fallible.get_or 0 (Fallible.r_prompt_eval_count r) = Some p
    ∧ Fallible.get_or 0 (Fallible.r_eval_count r) = Some e
    ∧ Fallible.prompt_tokens details = p
    ∧ Fallible.response_tokens details = e
    ∧ Fallible.total_tokens details = p + e
    ∧ (Fallible.r_prompt_eval_count r = Fallible.Missing →
       Fallible.r_eval_count r = Fallible.Missing →
       Fallible.total_tokens details = 0).
Proof.
  intros Hq Hc [d Hd] Hwrite.
  destruct (fallible_query_saved self w question n_results s docs
              (@inr exception _ r) Hq Hc ltac:(discriminate) (Some d)
              (ex_intro _ d (conj Hd eq_refl)) Hwrite)
    as (s' & Hrun & _ & Hopened & Hfiles & _).
  destruct (details_of_computed _ _ Hd) as (p & e & Hp & He & Hdp & Hde & Hdt).
  rewrite Hrun. eexists _, _, d, p, e. split; [exact Hopened|].
  split; [cbn [snd]; rewrite Hfiles; apply lookup_insert_eq|].
  split; [reflexivity|]. do 5 (split; [assumption|]).
  intros Hmp Hme. rewrite Hdt. cbn in Hp, He. rewrite Hmp in Hp.
  rewrite Hme in He. cbn in Hp, He. injection Hp as <-. injection He as <-.
  reflexivity.
Qed.

(** A witness of [token_totals]. *)
Lemma token_totals_witness :
  ∃ name data details p e,
    Fallible.opened
      (Fallible.query sample_app
         (fallible_world (inr [lit "a b"]) (inr full_response) reliable)
         (lit "what?") 5 fallible_initial).2
    = Fallible.opened fallible_initial ++ [name]
    ∧ Fallible.files
        (Fallible.query sample_app
           (fallible_world (inr [lit "a b"]) (inr full_response) reliable)
           (lit "what?") 5 fallible_initial).2 !! name
      = Some (Some data)
    ∧ Fallible.log_token_details data = Some details
    ∧ Fallible.get_or 0 (Fallible.r_prompt_eval_count full_response) = Some p
    ∧ Fallible.get_or 0 (Fallible.r_eval_count full_response) = Some e
    ∧ Fallible.prompt_tokens details = p
    ∧ Fallible.response_tokens details = e
    ∧ Fallible.total_tokens details = p + e
    ∧ (Fallible.r_prompt_eval_count full_response = Fallible.Missing →
       Fallible.r_eval_count full_response = Fallible.Missing →
       Fallible.total_tokens details = 0).
Proof.
  refine (token_totals sample_app
            (fallible_world (inr [lit "a b"]) (inr full_response) reliable)
            (lit "what?") 5 fallible_initial [lit "a b"] full_response
            eq_refl eq_refl _ eq_refl).
  eexists. vm_compute. reflexivity.
Defined.

(** X19. When the collection returns no document, [query] goes on as usual:
    the prompt is sent with nothing between the [Context:] line and the
    question and, when the token details can be computed and the log file
    is written at the first attempt, the answer of the backend is returned
    and the record holds a context of length zero. *)
Theorem empty_context_is_sent self w question n_results s r :
  Fallible.collection_query w (Fallible.calls s) (Fallible.coll s) question
    n_results = inr [] →
  Fallible.ollama_chat w (S (Fallible.calls s)) (model self)
    (build_prompt [] question) = inr r →
  usable_counters r →
  Fallible.write w (4 + Fallible.calls s) = Fallible.Written →
  ∃ s' name data,
    Fallible.query self w question n_results s
    = (inr (Fallible.content r), s')
    ∧ Fallible.sent s'
      = Fallible.sent s
        ++ [(model self,
             lit "Based on the following context from the document, please answer the question."
             ++ [10; 10]%N ++ lit "Context:" ++ [10; 10; 10]%N
             ++ lit "Question: " ++ question ++ [10; 10]%N ++ lit "Answer:")]
    ∧ Fallible.files s' !! name = Some (Some data)
    ∧ Fallible.context_length_chars data = 0%nat
    ∧ Fallible.log_response data = Fallible.content r.
Proof.
  intros Hq Hc [d Hd] Hwrite.
  destruct (fallible_query_saved self w question n_results s []
              (@inr exception _ r) Hq Hc ltac:(discriminate) (Some d)
              (ex_intro _ d (conj Hd eq_refl)) Hwrite)
    as (s' & Hrun & _ & _ & Hfiles & Hsent & _).
  eexists s', _, _. split; [exact Hrun|].
  split; [rewrite Hsent; reflexivity|].
  split; [rewrite Hfiles; apply lookup_insert_eq|].
  split; reflexivity.
Qed.

(** A witness of [empty_context_is_sent]. *)
Lemma empty_context_is_sent_witness :
  ∃ s' name data,
    Fallible.query sample_app
      (fallible_world (inr []) (inr full_response) reliable)
      (lit "what?") 5 fallible_initial
    = (inr (Fallible.content full_response), s')
    ∧ Fallible.sent s'
      = Fallible.sent fallible_initial
        ++ [(model sample_app,
             lit "Based on the following context from the document, please answer the question."
             ++ [10; 10]%N ++ lit "Context:" ++ [10; 10; 10]%N
             ++ lit "Question: " ++ lit "what?" ++ [10; 10]%N
             ++ lit "Answer:")]
    ∧ Fallible.files s' !! name = Some (Some data)
    ∧ Fallible.context_length_chars data = 0%nat
    ∧ Fallible.log_response data = Fallible.content full_response.
Proof.
  refine (empty_context_is_sent sample_app
            (fallible_world (inr []) (inr full_response) reliable)
            (lit "what?") 5 fallible_initial full_response
            eq_refl eq_refl _ eq_refl).
  eexists. vm_compute. reflexivity.
Defined.

(** ** Failures while the log is saved *)

(** X23. A counter that the response holds as [None] turns an answer into an
    error.  When the backend answers and one of the four counters that the
    token details add or divide is [None], the first [save_query_log]
    raises before it opens a file; the handler of [query] saves again, so
    that, when that write succeeds, the call returns the error text made
    from the message of the exception instead of the answer, the one file
    written holds the error text and no token details, and
    [save_query_log] has been called twice. *)
Theorem unset_counter_is_reported self w question n_results s docs r :
  Fallible.collection_query w (Fallible.calls s) (Fallible.coll s) question
    n_results = inr docs →
  Fallible.ollama_chat w (S (Fallible.calls s)) (model self)
    (build_prompt (Py.join (nl ++ nl) docs) question) = inr r →
  Fallible.r_prompt_eval_count r = Fallible.Unset
  ∨ Fallible.r_eval_count r = Fallible.Unset
  ∨ Fallible.r_total_duration r = Fallible.Unset
  ∨ Fallible.r_eval_duration r = Fallible.Unset →
  Fallible.write w (6 + Fallible.calls s) = Fallible.Written →
  ∃ msg s' name data,
    Fallible.details_of (Fallible.token_info_of r) = inl msg
    ∧ Fallible.query self w question n_results s
      = (inr (lit "Error querying model: " ++ msg), s')
    ∧ Fallible.saves s'
      = Fallible.saves s
        ++ [(question, Fallible.content r);
            (question, lit "Error querying model: " ++ msg)]
    ∧ Fallible.opened s' = Fallible.opened s ++ [name]
    ∧ Fallible.files s' = <[name := Some data]> (Fallible.files s)
    ∧ Fallible.log_question data = question
    ∧ Fallible.log_response data = lit "Error querying model: " ++ msg
    ∧ Fallible.log_token_details data = None.
Proof.
  intros Hq Hc Hunset Hwrite.
  destruct (details_of_unset r Hunset) as [msg Hd].
  destruct (fallible_query_details_fail self w question n_results s docs r
              msg Hq Hc Hd Hwrite)
    as (s' & Hrun & Hsaves & Hopened & Hfiles).
  exists msg, s'. eexists _, _. split; [exact Hd|]. split; [exact Hrun|].
  split; [exact Hsaves|]. split; [exact Hopened|]. split; [exact Hfiles|].
  repeat split.
Qed.

(** A witness of [unset_counter_is_reported]: a response whose counters are
    all [None]. *)
Lemma unset_counter_is_reported_witness :
  ∃ msg s' name data,
    Fallible.details_of (Fallible.token_info_of bare_response) = inl msg
    ∧ Fallible.query sample_app
        (fallible_world (inr [lit "a b"]) (inr bare_response) reliable)
        (lit "what?") 5 fallible_initial
      = (inr (lit "Error querying model: " ++ msg), s')
    ∧ Fallible.saves s'
      = Fallible.saves fallible_initial
        ++ [(lit "what?", Fallible.content bare_response);
            (lit "what?", lit "Error querying model: " ++ msg)]
    ∧ Fallible.opened s' = Fallible.opened fallible_initial ++ [name]
    ∧ Fallible.files s'
      = <[name := Some data]> (Fallible.files fallible_initial)
    ∧ Fallible.log_question data = lit "what?"
    ∧ Fallible.log_response data = lit "Error querying model: " ++ msg
    ∧ Fallible.log_token_details data = None.
Proof.
  apply (unset_counter_is_reported sample_app
           (fallible_world (inr [lit "a b"]) (inr bare_response) reliable)
           (lit "what?") 5 fallible_initial [lit "a b"] bare_response
           eq_refl eq_refl (or_introl eq_refl) eq_refl).
Defined.

(** X24. A write of the log that fails is tried again.  When the backend
    answers, the token details are computed and the first write fails, at
    [open] or after the file was opened, the handler of [query] saves
    again under a name made from a later reading of the clock; when that
    write succeeds, the call returns the error text made from the message
    of the failed write although the backend answered, [save_query_log]
    has been called twice, and the file written last holds the error text
    and no token details. *)
Theorem failed_write_is_retried self w question n_results s docs r d msg :
  Fallible.collection_query w (Fallible.calls s) (Fallible.coll s) question
    n_results = inr docs →
  Fallible.ollama_chat w (S (Fallible.calls s)) (model self)
    (build_prompt (Py.join (nl ++ nl) docs) question) = inr r →
  Fallible.details_of (Fallible.token_info_of r) = inr d →
  Fallible.write w (4 + Fallible.calls s) = Fallible.OpenFails msg
  ∨ Fallible.write w (4 + Fallible.calls s) = Fallible.DumpFails msg →
  Fallible.write w (7 + Fallible.calls s) = Fallible.Written →
  ∃ s' before data,
    Fallible.query self w question n_results s
    = (inr (lit "Error querying model: " ++ msg), s')
    ∧ Fallible.saves s'
      = Fallible.saves s
        ++ [(question, Fallible.content r);
            (question, lit "Error querying model: " ++ msg)]
    ∧ Fallible.opened s'
      = Fallible.opened s ++ before
        ++ [log_file_name self (Fallible.now w (5 + Fallible.calls s))]
    ∧ (length before ≤ 1)%nat
    ∧ Fallible.files s'
      !! log_file_name self (Fallible.now w (5 + Fallible.calls s))
      = Some (Some data)
    ∧ Fallible.log_question data = question
    ∧ Fallible.log_response data = lit "Error querying model: " ++ msg
    ∧ Fallible.log_token_details data = None.
Proof.
  intros Hq Hc Hd Hw1 Hw2. run_fallible. rewrite Hq.
  step_fallible. rewrite Hc. step_fallible. rewrite Hd.
  step_fallible. simpl in Hw1, Hw2.
  destruct Hw1 as [Hw1|Hw1]; rewrite Hw1; write_fallible; rewrite Hw2.
  - eexists _, [], _. split; [reflexivity|]. simpl.
    rewrite <- !app_assoc. split; [reflexivity|]. split; [reflexivity|].
    split; [lia|]. split; [apply lookup_insert_eq|]. repeat split.
  - eexists _, [_], _. split; [reflexivity|]. simpl.
    rewrite <- !app_assoc. split; [reflexivity|]. split; [reflexivity|].
    split; [lia|]. split; [apply lookup_insert_eq|]. repeat split.
Qed.

(** A witness of [failed_write_is_retried]: the disk is full at the first
    write. *)
Lemma failed_write_is_retried_witness :
  ∃ s' before data,
    Fallible.query sample_app
      (fallible_world (inr [lit "a b"]) (inr full_response) (failing_at 4))
      (lit "what?") 5 fallible_initial
    = (inr (lit "Error querying model: " ++ lit "No space left on device"),
       s')
    ∧ Fallible.saves s'
      = Fallible.saves fallible_initial
        ++ [(lit "what?", Fallible.content full_response);
            (lit "what?",
             lit "Error querying model: " ++ lit "No space left on device")]
    ∧ Fallible.opened s'
      = Fallible.opened fallible_initial ++ before
        ++ [log_file_name sample_app (running_clock 5)]
    ∧ (length before ≤ 1)%nat
    ∧ Fallible.files s' !! log_file_name sample_app (running_clock 5)
      = Some (Some data)
    ∧ Fallible.log_question data = lit "what?"
    ∧ Fallible.log_response data
      = lit "Error querying model: " ++ lit "No space left on device"
    ∧ Fallible.log_token_details data = None.
Proof.
  apply (failed_write_is_retried sample_app
           (fallible_world (inr [lit "a b"]) (inr full_response)
              (failing_at 4))
           (lit "what?") 5 fallible_initial [lit "a b"] full_response
           {| Fallible.prompt_tokens := 120;
              Fallible.response_tokens := 5;
              Fallible.total_tokens := 125;
              Fallible.total_duration_ns := 900;
              Fallible.load_duration_ns := Some 0;
              Fallible.prompt_eval_duration_ns := None;
              Fallible.eval_duration_ns := 300 |}
           (lit "No space left on device")
           eq_refl eq_refl eq_refl (or_intror eq_refl) eq_refl).
Defined.

(** ** The session when saving the log can fail *)

Ltac fallible_bounds :=
  split; [reflexivity|]; cbn; rewrite ?app_nil_r, <- ?app_assoc;
  repeat split; cbn; first [reflexivity | lia].

Ltac fallible_leaves :=
  first [ eexists _, _, [], [], [_]; fallible_bounds
        | eexists _, _, [], [_], [_]; fallible_bounds
        | eexists _, _, [_], [_], [_]; fallible_bounds
        | eexists _, _, [], [_; _], [_]; fallible_bounds
        | eexists _, _, [_], [_; _], [_]; fallible_bounds
        | eexists _, _, [_; _], [_; _], [_]; fallible_bounds ].

(** What one call of [Fallible.query] does to the state, whatever the world
    answers: at most one prompt is sent, [save_query_log] is called at most
    twice for it, and each call opens at most one file. *)
Lemma fallible_query_effects self w question n_results s :
  ∃ r s' os ss ps,
    Fallible.query self w question n_results s = (r, s')
    ∧ Fallible.coll s' = Fallible.coll s
    ∧ Fallible.shown s' = Fallible.shown s
    ∧ Fallible.opened s' = Fallible.opened s ++ os
    ∧ Fallible.saves s' = Fallible.saves s ++ ss
    ∧ Fallible.sent s' = Fallible.sent s ++ ps
    ∧ (length os ≤ length ss)%nat
    ∧ (length ss ≤ 2 * length ps)%nat
    ∧ (length ps ≤ 1)%nat
    ∧ (Fallible.calls s < Fallible.calls s')%nat.
Proof.
  run_fallible.
  destruct (Fallible.collection_query w (Fallible.calls s) (Fallible.coll s)
              question n_results) as [e|docs].
  { eexists _, _, [], [], []. fallible_bounds. }
  step_fallible.
  destruct (Fallible.ollama_chat w (S (Fallible.calls s)) (model self)
              (build_prompt (Py.join (nl ++ nl) docs) question))
    as [[msg|]|r].
  - step_fallible.
    destruct (Fallible.write w _) as [|m|m]; write_fallible; fallible_leaves.
  - step_fallible. fallible_leaves.
  - step_fallible.
    destruct (Fallible.details_of (Fallible.token_info_of r)) as [msg|d].
    + step_fallible.
      destruct (Fallible.write w _) as [|m|m]; write_fallible;
        fallible_leaves.
    + step_fallible.
      destruct (Fallible.write w (S (S (S (S (Fallible.calls s))))))
        as [|m|m]; write_fallible.
      * fallible_leaves.
      * destruct (Fallible.write w _) as [|m'|m']; write_fallible;
          fallible_leaves.
      * destruct (Fallible.write w _) as [|m'|m']; write_fallible;
          fallible_leaves.
Qed.

Lemma fallible_loop_body_unfold self w s :
  Fallible.loop_body self w s
  = match Fallible.input w (Fallible.calls s) with
    | inl KeyboardInterrupt =>
        (inr Break, (Fallible.show ShowGoodbye (Fallible.tick s).2).2)
    | inl (Exception msg) =>
        (inr Continue, (Fallible.show (ShowError msg) (Fallible.tick s).2).2)
    | inr line =>
        if negb (Py.truthy (strip line))
        then (inr Continue, (Fallible.tick s).2)
        else if existsb (str_eqb (lower (strip line)))
                  [lit "quit"; lit "exit"; lit "q"]
        then (inr Break, (Fallible.show ShowGoodbye (Fallible.tick s).2).2)
        else if str_eqb (lower (strip line)) (lit "stats")
        then (inr Continue,
              (Fallible.show
                 (ShowStats (length (Fallible.coll s)) (collection_name self))
                 (Fallible.tick s).2).2)
        else match Fallible.query self w (strip line) default_n_results
                     (Fallible.tick s).2 with
             | (inl KeyboardInterrupt, s1) =>
                 (inr Break, (Fallible.show ShowGoodbye s1).2)
             | (inl (Exception msg), s1) =>
                 (inr Continue, (Fallible.show (ShowError msg) s1).2)
             | (inr answer, s1) =>
                 (inr Continue, (Fallible.show (ShowAnswer answer) s1).2)
             end
    end.
Proof.
  unfold Fallible.loop_body, Fallible.try_except_interrupt.
  unfold mbind at 1. unfold Fallible.M_bind at 1.
  unfold mbind at 1. unfold Fallible.M_bind at 1.
  cbn [Fallible.tick Fallible.lift fst snd]. unfold Fallible.lift.
  destruct (Fallible.input w (Fallible.calls s)) as [[msg|]|line];
    [reflexivity|reflexivity|].
  cbv zeta.
  destruct (negb (Py.truthy (strip line))); [reflexivity|].
  destruct (existsb _ _); [reflexivity|].
  destruct (str_eqb _ _); [reflexivity|].
  unfold mbind at 1. unfold Fallible.M_bind at 1.
  destruct (Fallible.query self w (strip line) default_n_results _)
    as [[[msg|]|answer] s1]; reflexivity.
Qed.

(** What one pass of the loop does to the state, whatever the world
    answers. *)
Lemma fallible_loop_body_effects self w s :
  ∃ ctl s' os ss ps shs,
    Fallible.loop_body self w s = (inr ctl, s')
    ∧ Fallible.coll s' = Fallible.coll s
    ∧ Fallible.opened s' = Fallible.opened s ++ os
    ∧ Fallible.saves s' = Fallible.saves s ++ ss
    ∧ Fallible.sent s' = Fallible.sent s ++ ps
    ∧ Fallible.shown s' = Fallible.shown s ++ shs
    ∧ (length os ≤ length ss)%nat
    ∧ (length ss ≤ 2 * length ps)%nat
    ∧ (length ps ≤ 1)%nat
    ∧ (length shs ≤ 1)%nat.
Proof.
  rewrite fallible_loop_body_unfold.
  destruct (Fallible.input w (Fallible.calls s)) as [[msg|]|line].
  - eexists Continue, _, [], [], [], [_]. split; [reflexivity|].
    simpl. rewrite !app_nil_r. repeat split; simpl; lia.
  - eexists Break, _, [], [], [], [_]. split; [reflexivity|].
    simpl. rewrite !app_nil_r. repeat split; simpl; lia.
  - destruct (negb (Py.truthy (strip line))).
    { eexists Continue, _, [], [], [], []. split; [reflexivity|].
      simpl. rewrite !app_nil_r. repeat split; simpl; lia. }
    destruct (existsb _ _).
    { eexists Break, _, [], [], [], [_]. split; [reflexivity|].
      simpl. rewrite !app_nil_r. repeat split; simpl; lia. }
    destruct (str_eqb _ _).
    { eexists Continue, _, [], [], [], [_]. split; [reflexivity|].
      simpl. rewrite !app_nil_r. repeat split; simpl; lia. }
    destruct (fallible_query_effects self w (strip line) default_n_results
                (Fallible.tick s).2)
      as (r & s1 & os & ss & ps & -> & Hcoll & Hshown & Hopened & Hsaves
          & Hsent & Hos & Hss & Hps & _).
    simpl in Hcoll, Hshown, Hopened, Hsaves, Hsent.
    destruct r as [[msg|]|answer].
    + exists Continue, (Fallible.show (ShowError msg) s1).2, os, ss, ps,
        [ShowError msg].
      simpl. rewrite Hshown. repeat split; auto.
    + exists Break, (Fallible.show ShowGoodbye s1).2, os, ss, ps,
        [ShowGoodbye].
      simpl. rewrite Hshown. repeat split; auto.
    + exists Continue, (Fallible.show (ShowAnswer answer) s1).2, os, ss, ps,
        [ShowAnswer answer].
      simpl. rewrite Hshown. repeat split; auto.
Qed.

Lemma fallible_run_interactive_effects self w : ∀ fuel s,
  ∃ ctl s' os ss ps shs,
    Fallible.run_interactive self w fuel s = (inr ctl, s')
    ∧ Fallible.coll s' = Fallible.coll s
    ∧ Fallible.opened s' = Fallible.opened s ++ os
    ∧ Fallible.saves s' = Fallible.saves s ++ ss
    ∧ Fallible.sent s' = Fallible.sent s ++ ps
    ∧ Fallible.shown s' = Fallible.shown s ++ shs
    ∧ (length os ≤ length ss)%nat
    ∧ (length ss ≤ 2 * length ps)%nat
    ∧ (length ps ≤ fuel)%nat
    ∧ (length shs ≤ fuel)%nat.
Proof.
  induction fuel as [|fuel IH]; intros s.
  - exists Continue, s, [], [], [], []. simpl. rewrite !app_nil_r.
    repeat split; simpl; first [reflexivity | lia].
  - destruct (fallible_loop_body_effects self w s)
      as (ctl & s1 & os1 & ss1 & ps1 & shs1 & Hrun & Hcoll & Hopened & Hsaves
          & Hsent & Hshown & Hos & Hss & Hps & Hshs).
    simpl Fallible.run_interactive.
    unfold mbind at 1. unfold Fallible.M_bind at 1.
    rewrite Hrun. destruct ctl.
    + destruct (IH s1)
        as (ctl2 & s2 & os2 & ss2 & ps2 & shs2 & Hrun2 & Hcoll2 & Hopened2
            & Hsaves2 & Hsent2 & Hshown2 & Hos2 & Hss2 & Hps2 & Hshs2).
      exists ctl2, s2, (os1 ++ os2), (ss1 ++ ss2), (ps1 ++ ps2),
        (shs1 ++ shs2).
      rewrite !length_app, !app_assoc, <- Hopened, <- Hsaves, <- Hsent,
        <- Hshown.
      repeat split; try assumption; try congruence; lia.
    + exists Break, s1, os1, ss1, ps1, shs1.
      repeat split; try assumption; lia.
Qed.

(** X12. In a session every pass of the loop sends at most one prompt to the
    backend and shows at most one message; [save_query_log] is called at
    most twice for a prompt that was sent, and not at all without one; each
    call opens at most one file; and what was opened, saved, sent and shown
    before stays in place, in its order. *)
Theorem session_log_bounds self w fuel s :
  ∃ os ss ps shs,
    Fallible.opened (Fallible.run_interactive self w fuel s).2
    = Fallible.opened s ++ os
    ∧ Fallible.saves (Fallible.run_interactive self w fuel s).2
      = Fallible.saves s ++ ss
    ∧ Fallible.sent (Fallible.run_interactive self w fuel s).2
      = Fallible.sent s ++ ps
    ∧ Fallible.shown (Fallible.run_interactive self w fuel s).2
      = Fallible.shown s ++ shs
    ∧ (length os ≤ length ss)%nat
    ∧ (length ss ≤ 2 * length ps)%nat
    ∧ (length ps ≤ fuel)%nat
    ∧ (length shs ≤ fuel)%nat.
Proof.
  destruct (fallible_run_interactive_effects self w fuel s)
    as (ctl & s' & os & ss & ps & shs & -> & _ & Hopened & Hsaves & Hsent
        & Hshown & Hos & Hss & Hps & Hshs).
  exists os, ss, ps, shs. simpl. repeat split; assumption.
Qed.

(** ** A question in the session *)

(** X20. When the user types a question, the backend call is not
    interrupted, the token details of an answer can be computed and the log
    file is written at the first attempt, the pass shows exactly the text
    that is logged: the record written in the pass holds the line as typed
    less the blanks around it as its question, and the text shown as its
    response; the session goes on. *)
Theorem shown_answer_is_logged self w s line docs outcome :
  Fallible.input w (Fallible.calls s) = inr line →
  is_question line →
  Fallible.collection_query w (S (Fallible.calls s)) (Fallible.coll s)
    (strip line) default_n_results = inr docs →
  Fallible.ollama_chat w (S (S (Fallible.calls s))) (model self)
    (build_prompt (Py.join (nl ++ nl) docs) (strip line)) = outcome →
  outcome ≠ inl KeyboardInterrupt →
  (∀ r, outcome = inr r → usable_counters r) →
  Fallible.write w (5 + Fallible.calls s) = Fallible.Written →
  ∃ s' name data,
    Fallible.loop_body self w s = (inr Continue, s')
    ∧ Fallible.shown s' = Fallible.shown s ++ [ShowAnswer (reported outcome)]
    ∧ Fallible.saves s'
      = Fallible.saves s ++ [(strip line, reported outcome)]
    ∧ Fallible.opened s' = Fallible.opened s ++ [name]
    ∧ Fallible.files s' !! name = Some (Some data)
    ∧ Fallible.log_question data = strip line
    ∧ Fallible.log_response data = reported outcome
    ∧ Fallible.coll s' = Fallible.coll s.
Proof.
  intros Hin (Hne & Hcmd & Hstats) Hq Hc Hout Husable Hwrite.
  destruct (details_for outcome Husable) as [details Hdetails].
  destruct (fallible_query_saved self w (strip line) default_n_results
              (Fallible.tick s).2 docs outcome Hq Hc Hout details Hdetails
              Hwrite)
    as (s1 & Hrun & Hsaves & Hopened & Hfiles & _ & Hcoll & Hshown & _).
  rewrite fallible_loop_body_unfold, Hin, Hne, Hcmd, Hstats. simpl negb.
  cbv iota. rewrite Hrun. eexists _, _, _. split; [reflexivity|].
  split; [simpl; rewrite Hshown; reflexivity|].
  split; [exact Hsaves|]. split; [exact Hopened|].
  split; [simpl; rewrite Hfiles; apply lookup_insert_eq|].
  split; [reflexivity|]. split; [reflexivity|]. exact Hcoll.
Qed.

(** A witness of [shown_answer_is_logged]. *)
Lemma shown_answer_is_logged_witness :
  ∃ s' name data,
    Fallible.loop_body sample_app
      (fallible_world (inr [lit "a b"]) (inr full_response) reliable)
      fallible_initial
    = (inr Continue, s')
    ∧ Fallible.shown s'
      = Fallible.shown fallible_initial
        ++ [ShowAnswer (reported (inr full_response))]
    ∧ Fallible.saves s'
      = Fallible.saves fallible_initial
        ++ [(strip (lit " what is this? "), reported (inr full_response))]
    ∧ Fallible.opened s' = Fallible.opened fallible_initial ++ [name]
    ∧ Fallible.files s' !! name = Some (Some data)
    ∧ Fallible.log_question data = strip (lit " what is this? ")
    ∧ Fallible.log_response data = reported (inr full_response)
    ∧ Fallible.coll s' = Fallible.coll fallible_initial.
Proof.
  refine (shown_answer_is_logged sample_app
            (fallible_world (inr [lit "a b"]) (inr full_response) reliable)
            fallible_initial (lit " what is this? ") [lit "a b"]
            (inr full_response) eq_refl _ eq_refl eq_refl _ _ eq_refl).
  - repeat split; vm_compute; reflexivity.
  - discriminate.
  - intros r Hr. injection Hr as <-. eexists. vm_compute. reflexivity.
Defined.

(** X25. A write of the log that fails for good is shown, and the session
    goes on.  When the user types a question, the backend call raises an
    [Exception] and the write of the log fails, the exception of the write
    leaves [query]; the pass shows ["Error: "] followed by the message of
    the failed write, not the message of the backend, writes no record,
    and the loop continues. *)
Theorem write_failure_is_shown self w s line docs msg failure :
  Fallible.input w (Fallible.calls s) = inr line →
  is_question line →
  Fallible.collection_query w (S (Fallible.calls s)) (Fallible.coll s)
    (strip line) default_n_results = inr docs →
  Fallible.ollama_chat w (S (S (Fallible.calls s))) (model self)
    (build_prompt (Py.join (nl ++ nl) docs) (strip line))
  = inl (Exception msg) →
  Fallible.write w (5 + Fallible.calls s) = Fallible.OpenFails failure
  ∨ Fallible.write w (5 + Fallible.calls s) = Fallible.DumpFails failure →
  ∃ s',
    Fallible.loop_body self w s = (inr Continue, s')
    ∧ Fallible.shown s' = Fallible.shown s ++ [ShowError failure]
    ∧ Fallible.saves s'
      = Fallible.saves s
        ++ [(strip line, lit "Error querying model: " ++ msg)]
    ∧ ∀ name data,
        Fallible.files s' !! name = Some (Some data) →
        Fallible.files s !! name = Some (Some data).
Proof.
  intros Hin (Hne & Hcmd & Hstats) Hq Hc Hwrite.
  destruct (fallible_query_handler_write_fails self w (strip line)
              default_n_results (Fallible.tick s).2 docs msg Hq Hc failure
              Hwrite)
    as (s1 & Hrun & Hsaves & Hkeep).
  destruct (fallible_query_effects self w (strip line) default_n_results
              (Fallible.tick s).2)
    as (r & s2 & os & ss & ps & Hrun2 & _ & Hshown & _).
  rewrite Hrun in Hrun2. injection Hrun2 as <- <-.
  rewrite fallible_loop_body_unfold, Hin, Hne, Hcmd, Hstats. simpl negb.
  cbv iota. rewrite Hrun. eexists. split; [reflexivity|].
  split; [simpl; rewrite Hshown; reflexivity|].
  split; [exact Hsaves|]. exact Hkeep.
Qed.

(** A witness of [write_failure_is_shown]: the log directory cannot be
    written. *)
Lemma write_failure_is_shown_witness :
  ∃ s',
    Fallible.loop_body sample_app
      (fallible_world (inr [lit "a b"])
         (inl (Exception (lit "connection refused"))) never_opening)
      fallible_initial
    = (inr Continue, s')
    ∧ Fallible.shown s'
      = Fallible.shown fallible_initial
        ++ [ShowError (lit "Permission denied")]
    ∧ Fallible.saves s'
      = Fallible.saves fallible_initial
        ++ [(strip (lit " what is this? "),
             lit "Error querying model: " ++ lit "connection refused")]
    ∧ ∀ name data,
        Fallible.files s' !! name = Some (Some data) →
        Fallible.files fallible_initial !! name = Some (Some data).
Proof.
  refine (write_failure_is_shown sample_app
            (fallible_world (inr [lit "a b"])
               (inl (Exception (lit "connection refused"))) never_opening)
            fallible_initial (lit " what is this? ") [lit "a b"]
            (lit "connection refused") (lit "Permission denied")
            eq_refl _ eq_refl eq_refl (or_introl eq_refl)).
  repeat split; vm_compute; reflexivity.
Defined.
